(** * mockstep: a walking-step simulator for the Android emulator console

    Shallow embedding of [mockstep.py] and the properties of its protocol
    client, signal generator, text plotter and simulation loop.

    - Python [float] is IEEE 754 binary64: it is Rocq's primitive [float],
      whose operations are specified by [SpecFloat] through [Prim2SF].
    - Python [int] is [Z]; [str] and [bytes] are [string].
    - Effects (the telnet session, the console, the clock and the user's
      interrupt key) are calls answered by an oracle carried in the [world];
      every call is recorded in the world's history. *)

From Stdlib Require Import ZArith Lia List String Ascii Bool Floats.
From Stdlib Require Import DecimalString DecimalPos DecimalN.
Import ListNotations.

Set Warnings "-inexact-float".

Local Open Scope string_scope.
Local Open Scope Z_scope.

(** ** Strings *)

Definition nl : string := String "010"%char EmptyString.

(** [s * n] on Python strings. *)
Fixpoint str_repeat (s : string) (n : nat) : string :=
  match n with
  | O => ""
  | S n' => s ++ str_repeat s n'
  end.

(** [needle in hay] on Python bytes. *)
Fixpoint contains (needle hay : string) : bool :=
  if String.prefix needle hay then true
  else match hay with
       | EmptyString => false
       | String _ rest => contains needle rest
       end.

(** [hay.endswith(needle)]. *)
Fixpoint ends_with (needle hay : string) : bool :=
  if String.eqb needle hay then true
  else match hay with
       | EmptyString => false
       | String _ rest => ends_with needle rest
       end.

(** Left padding with spaces up to a minimal width, as a format width does. *)
Definition pad_left (width : nat) (s : string) : string :=
  str_repeat " " (width - String.length s) ++ s.

Definition is_digit (c : ascii) : bool :=
  let n := nat_of_ascii c in (48 <=? n)%nat && (n <=? 57)%nat.

Fixpoint all_digits (s : string) : bool :=
  match s with
  | EmptyString => true
  | String c rest => is_digit c && all_digits rest
  end.

(** ** Python numbers *)

Module Py.

Definition digit (d : Z) : string :=
  String (ascii_of_nat (48 + Z.to_nat d)) EmptyString.

(** [str(n)] for a non-negative integer. *)
Definition str_of_nat (n : Z) : string :=
  NilEmpty.string_of_uint (N.to_uint (Z.to_N n)).

(** Rounding of the non-negative rational [num / den] to the nearest integer,
    ties to even: the rounding of Python's float formatting, which works on
    the exact binary value. *)
Definition round_half_even (num den : Z) : Z :=
  let q := num / den in
  let r := num mod den in
  if 2 * r <? den then q
  else if 2 * r =? den then (if Z.even q then q else q + 1)
  else q + 1.

(** The hundredths of [m * 2^e], rounded. *)
Definition hundredths (m e : Z) : Z :=
  if 0 <=? e then 100 * m * 2 ^ e
  else round_half_even (100 * m) (2 ^ (- e)).

Definition fixed2 (negative : bool) (h : Z) : string :=
  (if negative then "-" else "")
    ++ str_of_nat (h / 100) ++ "." ++ digit (h / 10 mod 10) ++ digit (h mod 10).

(** [format(v, '<width>.2f')]. *)
Definition format_2f (width : nat) (v : float) : string :=
  pad_left width
    match Prim2SF v with
    | S754_nan => "nan"
    | S754_infinity s => if s then "-inf" else "inf"
    | S754_zero s => fixed2 s 0
    | S754_finite s m e => fixed2 s (hundredths (Zpos m) e)
    end.

Inductive error : Type :=
| ValueError (msg : string)
| OverflowError (msg : string)
| ZeroDivisionError (msg : string).

(** [int(x)]: truncation toward zero; NaN and the infinities raise. *)
Definition int (x : float) : error + Z :=
  match Prim2SF x with
  | S754_nan => inl (ValueError "cannot convert float NaN to integer")
  | S754_infinity _ => inl (OverflowError "cannot convert float infinity to integer")
  | S754_zero _ => inr 0
  | S754_finite s m e =>
      inr (cond_Zopp s (if 0 <=? e then Zpos m * 2 ^ e else Zpos m / 2 ^ (- e)))
  end.

(** [float(n)], the conversion applied to an [int] operand of a float
    operation: the nearest binary64 value.  Beyond the binary64 range, where
    this rounding yields an infinity, Python raises [OverflowError] instead:
    the conversion is Python's only up to the largest binary64 value,
    [2^1024 - 2^971], which [GRAPH_WIDTH] and every step a loop can count to
    are far below. *)
Definition float (n : Z) : float :=
  SF2Prim (binary_normalize prec emax n 0 false).

(** [x / y] on floats. *)
Definition truediv (x y : PrimFloat.float) : error + PrimFloat.float :=
  if (y =? 0)%float then inl (ZeroDivisionError "float division by zero")
  else inr (x / y)%float.

(** [min(a, b)] and [max(a, b)] with two arguments: the first argument is
    kept unless the second compares strictly smaller (resp. greater). *)
Definition min (a b : PrimFloat.float) : PrimFloat.float :=
  if (b <? a)%float then b else a.

Definition max (a b : PrimFloat.float) : PrimFloat.float :=
  if (a <? b)%float then b else a.

End Py.

(** ** Graphing constants *)

Definition GRAPH_WIDTH : Z := 50.
Definition AMPLITUDE : float := 2.0%float.
Definition Y_BASELINE : float := 9.8%float.

(** ** [plot_data_point]: the text of the plotted line *)

Definition min_y : float := (Y_BASELINE - AMPLITUDE)%float.
Definition max_y : float := (Y_BASELINE + AMPLITUDE)%float.

Definition y_value_clamped (y_value : float) : float :=
  Py.max min_y (Py.min y_value max_y).

Definition normalized_value (y_value : float) : Py.error + float :=
  Py.truediv (y_value_clamped y_value - min_y)%float (max_y - min_y)%float.

Definition bar_length (y_value : float) : Py.error + Z :=
  match normalized_value y_value with
  | inl e => inl e
  | inr t => Py.int (t * Py.float GRAPH_WIDTH)%float
  end.

Definition plot_line (y_value : float) : Py.error + string :=
  match bar_length y_value with
  | inl e => inl e
  | inr n =>
      let bar := str_repeat "#" (Z.to_nat n) in
      inr (Py.format_2f 5 y_value ++ " | " ++ bar)
  end.

(** ** [generate_walking_acceleration] *)

Definition frequency : float := 1.25%float.

(** [math.sin] belongs to the platform's C library: it is a parameter. *)
Definition generate_walking_acceleration (sin : float -> float) (step : Z)
  : float * float * float :=
  let x := 0.0%float in
  let y := (Y_BASELINE + AMPLITUDE * sin (frequency * Py.float step))%float in
  let z := 0.0%float in
  (x, y, z).

(** ** [set_sensor_data]: the command line *)

Definition sensor_command (sensor : string) (x y z : float) : string :=
  "sensor set " ++ sensor ++ " "
    ++ Py.format_2f 0 x ++ ":" ++ Py.format_2f 0 y ++ ":" ++ Py.format_2f 0 z ++ nl.

(** ** Exceptions, calls and the world *)

(** Python's exception classes, as far as the [except] clauses of the program
    tell them apart: [Exception] is what [except Exception] catches;
    [KeyboardInterrupt] and [SystemExit] derive from [BaseException] only. *)
Inductive exn : Type :=
| KeyboardInterrupt
| SystemExit
| Exception (msg : string).

Definition is_Exception (e : exn) : bool :=
  match e with Exception _ => true | _ => false end.

Definition is_KeyboardInterrupt (e : exn) : bool :=
  match e with KeyboardInterrupt => true | _ => false end.

(** [str(e)]. *)
Definition str_of_exn (e : exn) : string :=
  match e with Exception msg => msg | _ => "" end.

Definition exn_of_error (e : Py.error) : exn :=
  match e with
  | Py.ValueError msg | Py.OverflowError msg | Py.ZeroDivisionError msg => Exception msg
  end.

(** A [telnetlib.Telnet] object. *)
Record Telnet : Type := { host : string; port : Z }.

(** The calls that reach outside the program. *)
Inductive call : Type :=
| Connect (host : string) (port : Z) (timeout : Z)
| ReadUntil (session : Telnet) (expected : string) (timeout : Z)
| Write (session : Telnet) (buffer : string)
| Close (session : Telnet)
| Print (text : string)
| Sleep (secs : float).

(** What a call does: it returns (with the data read, for [ReadUntil]) or it
    raises.  [telnetlib]'s [read_until] returns what has arrived when its
    timeout expires, with or without the expected terminator; it raises only
    on a closed or broken connection.  A [KeyboardInterrupt] is raised by
    whichever call is in progress when the user interrupts. *)
Inductive outcome : Type :=
| Returns (data : string)
| Raises (e : exn).

Definition event : Type := call * outcome.

(** The world: an oracle that answers the [n]-th call of the run, and the
    calls made so far, oldest first. *)
Record world : Type := { oracle : nat -> call -> outcome; history : list event }.

Inductive result (A : Type) : Type :=
| Ret (a : A)
| Exc (e : exn)
| Running.
Arguments Ret {A} a.
Arguments Exc {A} e.
Arguments Running {A}.

(** A computation runs in a world and ends with a value, with an exception, or
    is still [Running] when the fuel given to [while True] is spent. *)
Definition M (A : Type) : Type := world -> result A * world.

Definition ret {A} (a : A) : M A := fun w => (Ret a, w).

Definition raise {A} (e : exn) : M A := fun w => (Exc e, w).

Definition bind {A B} (c : M A) (f : A -> M B) : M B :=
  fun w =>
    match c w with
    | (Ret a, w') => f a w'
    | (Exc e, w') => (Exc e, w')
    | (Running, w') => (Running, w')
    end.

Declare Scope py_scope.
Delimit Scope py_scope with py.
Notation "x <- c ;; k" := (bind c (fun x => k))
  (at level 61, c at next level, right associativity) : py_scope.
Notation "c ;; k" := (bind c (fun _ => k))
  (at level 61, right associativity) : py_scope.
Local Open Scope py_scope.

Definition perform (c : call) : M string :=
  fun w =>
    let o := oracle w (List.length (history w)) c in
    let w' := {| oracle := oracle w; history := history w ++ [(c, o)] |} in
    match o with
    | Returns data => (Ret data, w')
    | Raises e => (Exc e, w')
    end.

(** [try: body except <catches> as e: handler e]. *)
Definition try_except {A} (body : M A) (catches : exn -> bool) (handler : exn -> M A) : M A :=
  fun w =>
    match body w with
    | (Exc e, w') => if catches e then handler e w' else (Exc e, w')
    | r => r
    end.

(** [try: body finally: final]: [final] runs however [body] ends; an
    exception of [final] replaces the outcome of [body]. *)
Definition try_finally {A} (body : M A) (final : M unit) : M A :=
  fun w =>
    match body w with
    | (Running, w') => (Running, w')
    | (r, w') =>
        match final w' with
        | (Ret _, w'') => (r, w'')
        | (Exc e, w'') => (Exc e, w'')
        | (Running, w'') => (Running, w'')
        end
    end.

Definition print (text : string) : M unit := perform (Print text) ;; ret tt.

Definition time_sleep (secs : float) : M unit := perform (Sleep secs) ;; ret tt.

Definition telnetlib_Telnet (host : string) (port : Z) (timeout : Z) : M Telnet :=
  perform (Connect host port timeout) ;; ret {| host := host; port := port |}.

Definition read_until (emulator : Telnet) (expected : string) (timeout : Z) : M string :=
  perform (ReadUntil emulator expected timeout).

Definition write (emulator : Telnet) (buffer : string) : M unit :=
  perform (Write emulator buffer) ;; ret tt.

Definition close (emulator : Telnet) : M unit := perform (Close emulator) ;; ret tt.

(** ** [connect_to_emulator] *)

(** The truth value of [auth_token]: [None] and the empty string are false. *)
Definition truthy (auth_token : option string) : bool :=
  match auth_token with
  | Some (String _ _) => true
  | _ => false
  end.

Definition str_of_token (auth_token : option string) : string :=
  match auth_token with Some t => t | None => "None" end.

Definition str_of_int (n : Z) : string := NilEmpty.string_of_int (Z.to_int n).

Definition connect_to_emulator (host : string) (port : Z) (auth_token : option string)
  : M (option Telnet) :=
  try_except
    (emulator <- telnetlib_Telnet host port 10 ;;
     _ <- read_until emulator "OK" 10 ;;
     if negb (truthy auth_token) then
       print "Authentication token is missing..." ;;
       ret None
     else
       write emulator ("auth " ++ str_of_token auth_token ++ nl) ;;
       response <- read_until emulator "OK" 10 ;;
       if contains "KO" response then
         print "Authentication failed." ;;
         ret None
       else
         print ("Connected and authenticated with emulator on port "
                  ++ str_of_int port ++ ".") ;;
         ret (Some emulator))
    is_Exception
    (fun e =>
       print ("An error occurred during connection: " ++ str_of_exn e) ;;
       ret None).

(** ** [set_sensor_data] *)

Definition set_sensor_data (emulator : Telnet) (sensor : string) (x y z : float) : M unit :=
  try_except
    (let command := sensor_command sensor x y z in
     write emulator command ;;
     _ <- read_until emulator "OK" 2 ;;
     ret tt)
    is_Exception
    (fun e =>
       print ("An error occurred while setting " ++ sensor ++ " data: " ++ str_of_exn e)).

(** ** [plot_data_point] *)

Definition plot_data_point (y_value : float) : M unit :=
  match plot_line y_value with
  | inl e => raise (exn_of_error e)
  | inr line => print line
  end.

(** ** [run_simulation] *)

Record loop_state : Type :=
  { step_counter : Z; previous_y : float; was_rising : bool }.

Definition initial_state : loop_state :=
  {| step_counter := 0; previous_y := Y_BASELINE; was_rising := false |}.

Definition STEP_IMPACT : string :=
  "-------------------- STEP IMPACT --------------------".

(** The edge detector of the loop body: whether the step-impact marker is
    printed for the value [y], and the state carried to the next tick. *)
Definition detect_edge (st : loop_state) (y : float) : bool * loop_state :=
  let is_rising_now := (previous_y st <? y)%float in
  (was_rising st && negb is_rising_now,
   {| step_counter := step_counter st + 1;
      previous_y := y;
      was_rising := is_rising_now |}).

(** One pass through the body of [while True]. *)
Definition tick (sin : float -> float) (emulator : Telnet) (st : loop_state) : M loop_state :=
  let '(x, y, z) := generate_walking_acceleration sin (step_counter st) in
  set_sensor_data emulator "acceleration" x y z ;;
  plot_data_point y ;;
  let '(impact, st') := detect_edge st y in
  (if impact then print STEP_IMPACT else ret tt) ;;
  time_sleep 0.1 ;;
  ret st'.

Fixpoint while_True (fuel : nat) (body : loop_state -> M loop_state) (st : loop_state)
  : M unit :=
  match fuel with
  | O => fun w => (Running, w)
  | S fuel' => st' <- body st ;; while_True fuel' body st'
  end.

Definition reset_command : string := sensor_command "acceleration" 0 9.8 0.

(** The [finally] block.  (The source passes the ints [0]; [format(0, '.2f')]
    is that of [0.0].) *)
Definition cleanup (emulator : Telnet) : M unit :=
  print "Resetting sensor data." ;;
  set_sensor_data emulator "acceleration" 0 9.8 0 ;;
  close emulator ;;
  print "Telnet connection closed.".

Definition run_simulation (sin : float -> float) (fuel : nat) (emulator : Telnet) : M unit :=
  print (nl ++ "Simulating walking steps and displaying live graph...") ;;
  print (str_repeat "-" (Z.to_nat (GRAPH_WIDTH + 8))) ;;
  try_finally
    (try_except
       (while_True fuel (tick sin emulator) initial_state)
       is_KeyboardInterrupt
       (fun _ => print (nl ++ "Stopping simulation.")))
    (cleanup emulator).

(** The end of [main]: connect, and simulate if a session was obtained. *)
Definition main (sin : float -> float) (fuel : nat) (port : Z) (auth_token : option string)
  : M unit :=
  emulator <- connect_to_emulator "localhost" port auth_token ;;
  match emulator with
  | Some e => run_simulation sin fuel e
  | None => ret tt
  end.

(** ** Binary64 arithmetic, for the proofs

    The rounding that [SpecFloat] performs bit by bit, restated on integers:
    [rnd M E] is the mantissa and exponent of the binary64 value nearest to
    [M * 2^E] (ties to even), and [rank] embeds the floats into [Z] in their
    order, in units of [2^-1074]. *)

Definition fexp64 (k : Z) : Z := Z.max (k - 53) (-1074).

Definition digits (M : Z) : Z := Z.log2 M + 1.

Definition shr_state (M : Z) (n : nat) : shr_record :=
  match n with
  | O => Build_shr_record M false false
  | S n' =>
      Build_shr_record (M / 2 ^ Z.of_nat n) (Z.testbit M (Z.of_nat n'))
        (negb (M mod 2 ^ Z.of_nat n' =? 0))
  end.

Definition rnd (M E : Z) : Z * Z :=
  let e' := fexp64 (digits M + E) in
  if e' <=? E then (M * 2 ^ (E - e'), e')
  else
    let m1 := Py.round_half_even M (2 ^ (e' - E)) in
    if m1 =? 2 ^ 53 then (2 ^ 52, e' + 1) else (m1, e').

Definition SFofpair (s : bool) (p : Z * Z) : spec_float :=
  match fst p with
  | Z0 => S754_zero s
  | Zpos m => if snd p <=? 971 then S754_finite s m (snd p) else S754_infinity s
  | Zneg _ => S754_nan
  end.

Definition pval (p : Z * Z) : Z := fst p * 2 ^ (snd p + 1074).

Definition rank (x : spec_float) : Z :=
  match x with
  | S754_nan => 0
  | S754_zero _ => 0
  | S754_infinity s => cond_Zopp s (2 ^ 2100)
  | S754_finite s m e => cond_Zopp s (Zpos m * 2 ^ (e + 1074))
  end.

Definition is_nan_sf (x : spec_float) : bool :=
  match x with S754_nan => true | _ => false end.

Definition frank (x : float) : Z := rank (Prim2SF x).

Definition aligned_sum (sx : bool) (mx : positive) (ex : Z)
                       (sy : bool) (my : positive) (ey : Z) : Z :=
  cond_Zopp sx (Zpos mx * 2 ^ (ex - Z.min ex ey))
  + cond_Zopp sy (Zpos my * 2 ^ (ey - Z.min ex ey)).

(** The mantissas of [min_y = M0 * 2^-50], [max_y = M1 * 2^-49] and
    [50.0 = F50 * 2^-47]. *)
Definition M0 : Z := 8782019273372468.
Definition M1 : Z := 6642809450371482.
Definition F50 : Z := 7036874417766400.

(** The offset of the clamped value above [min_y], in units of [2^-50], and
    the bar length as a function of that offset. *)
Definition clamp_offset (v : float) : Z := frank (y_value_clamped v) / 2 ^ 1024 - M0.

(** The value whose integer part is the bar length. *)
Definition scaled_value (y_value : float) : float :=
  ((y_value_clamped y_value - min_y) / (max_y - min_y) * Py.float GRAPH_WIDTH)%float.

Definition bar_of (k : Z) : Z :=
  if k =? 0 then 0
  else let p := rnd k (-50) in pval (rnd (fst p * F50) (snd p - 49)) / 2 ^ 1074.

(** ** Observing a run *)

(** The world after one more call, and the oracle's answer to the [k]-th
    call from now. *)
Definition push (w : world) (c : call) (o : outcome) : world :=
  {| oracle := oracle w; history := history w ++ [(c, o)] |}.

Definition answer (w : world) (k : nat) (c : call) : outcome :=
  oracle w (List.length (history w) + k) c.

Definition start (o : nat -> call -> outcome) : world :=
  {| oracle := o; history := [] |}.

Definition is_close (ev : event) : bool :=
  match fst ev with Close _ => true | _ => false end.

Definition is_sleep (ev : event) : bool :=
  match fst ev with Sleep _ => true | _ => false end.

(** How often the session was closed, and how many ticks reached their sleep. *)
Definition closes (evs : list event) : nat := List.length (filter is_close evs).

Definition sleeps (evs : list event) : nat := List.length (filter is_sleep evs).

(** The calls that touch the network, in order. *)
Definition is_network_call (c : call) : bool :=
  match c with
  | Connect _ _ _ | ReadUntil _ _ _ | Write _ _ | Close _ => true
  | Print _ | Sleep _ => false
  end.

Definition network_calls (evs : list event) : list call :=
  filter is_network_call (map fst evs).

(** The commands written to the session and its closing, in order. *)
Definition is_session_action (c : call) : bool :=
  match c with Write _ _ | Close _ => true | _ => false end.

Definition session_actions (evs : list event) : list call :=
  filter is_session_action (map fst evs).

(** The calls made inside the [try] of [set_sensor_data]. *)
Definition is_transmission (c : call) : bool :=
  match c with Write _ _ | ReadUntil _ _ _ => true | _ => false end.

(** An event stops the loop unless it returns or is an [Exception] raised by
    a transmission, which [set_sensor_data] absorbs. *)
Definition fatal (ev : event) : bool :=
  match ev with
  | (_, Returns _) => false
  | (c, Raises e) => negb (is_Exception e && is_transmission c)
  end.

Definition fatal_count (evs : list event) : nat := List.length (filter fatal evs).

(** Nothing but transmission errors ever happens: the console and the clock
    work and the user does not interrupt. *)
Definition only_transmission_errors (w : world) : Prop :=
  forall i c, fatal (c, oracle w i c) = false.

Definition error_log (sensor : string) (e : exn) : string :=
  "An error occurred while setting " ++ sensor ++ " data: " ++ str_of_exn e.

(** Every raising call is followed at once by the line that logs it. *)
Fixpoint failures_logged (evs : list event) : bool :=
  match evs with
  | [] => true
  | (_, Raises e) :: rest =>
      match rest with
      | (Print text, Returns _) :: _ => String.eqb text (error_log "acceleration" e)
      | _ => false
      end && failures_logged rest
  | _ :: rest => failures_logged rest
  end.

(** The acknowledgements that had not arrived when [read_until] gave up, and
    the error lines on the console. *)
Definition ack_timed_out (ev : event) : bool :=
  match ev with
  | (ReadUntil _ _ 2, Returns data) => negb (ends_with "OK" data)
  | _ => false
  end.

Definition is_error_line (ev : event) : bool :=
  match ev with
  | (Print text, _) => String.prefix "An error occurred" text
  | _ => false
  end.

(** The two lines printed before the loop is entered. *)
Definition header1 : string := nl ++ "Simulating walking steps and displaying live graph...".
Definition header2 : string := str_repeat "-" (Z.to_nat (GRAPH_WIDTH + 8)).

(** ** The edge detector fed with a sequence of values *)

Fixpoint feed (st : loop_state) (ys : list float) : list bool :=
  match ys with
  | [] => []
  | y :: rest => fst (detect_edge st y) :: feed (snd (detect_edge st y)) rest
  end.

(** ** The plotter in the words of its description *)

(** [floor] of a float, where it has one. *)
Definition floor (x : float) : option Z :=
  match Prim2SF x with
  | S754_nan | S754_infinity _ => None
  | S754_zero _ => Some 0
  | S754_finite s m e =>
      Some (if 0 <=? e then cond_Zopp s (Zpos m * 2 ^ e)
            else cond_Zopp s (Zpos m) / 2 ^ (- e))
  end.

(** A number printed with exactly two decimals: an optional sign, at least
    one digit, a point and two digits. *)
Fixpoint digits_point_2 (s : string) : bool :=
  match s with
  | EmptyString => false
  | String c rest =>
      if Ascii.eqb c "."%char then
        match rest with
        | String d1 (String d2 EmptyString) => is_digit d1 && is_digit d2
        | _ => false
        end
      else is_digit c && digits_point_2 rest
  end.

Definition unsigned_two_decimals (s : string) : bool :=
  match s with
  | EmptyString => false
  | String c _ => is_digit c && digits_point_2 s
  end.

Definition two_decimals (s : string) : bool :=
  match s with
  | String c rest => if Ascii.eqb c "-"%char then unsigned_two_decimals rest
                     else unsigned_two_decimals s
  | EmptyString => false
  end.

(** ** Sample environments *)

Definition emulator0 : Telnet := {| host := "localhost"; port := 5554 |}.

(** A stand-in for the C library's [sin], for running the model. *)
Definition sin_taylor (x : float) : float :=
  (x - x*x*x/6 + x*x*x*x*x/120 - x*x*x*x*x*x*x/5040)%float.

(** A cooperative emulator: every read ends in [OK]. *)
Definition cooperative (n : nat) (c : call) : outcome :=
  match c with
  | ReadUntil _ _ _ => Returns "Android Console: type help for a list of commands OK"
  | _ => Returns ""
  end.

(** An emulator that rejects the token. *)
Definition rejecting (n : nat) (c : call) : outcome :=
  match c with
  | ReadUntil _ _ _ => if (n =? 3)%nat then Returns "KO: bad auth token" else Returns "OK"
  | _ => Returns ""
  end.

(** The user interrupts the first sleep, and interrupts again while the
    reset command waits for its acknowledgement. *)
Definition interrupted_twice (n : nat) (c : call) : outcome :=
  if ((n =? 5) || (n =? 9))%nat then Raises KeyboardInterrupt else cooperative n c.

(** The user interrupts the first sleep, once. *)
Definition interrupted_once (n : nat) (c : call) : outcome :=
  if (n =? 5)%nat then Raises KeyboardInterrupt else cooperative n c.

(** An emulator that never acknowledges a sensor command: the read gives up
    after its timeout with nothing read. *)
Definition unresponsive (n : nat) (c : call) : outcome :=
  match c with
  | ReadUntil _ _ 2 => Returns ""
  | ReadUntil _ _ _ => Returns "OK"
  | _ => Returns ""
  end.

(** An emulator whose connection breaks: every transmission raises. *)
Definition broken_pipe (n : nat) (c : call) : outcome :=
  match c with
  | Write _ _ | ReadUntil _ _ _ => Raises (Exception "[Errno 32] Broken pipe")
  | _ => Returns ""
  end.

(** A computation is orderly when it keeps the oracle, only adds to the
    history, never closes the session, and raises only from a fatal event. *)
Definition orderly {A} (c : M A) : Prop :=
  forall w,
    oracle (snd (c w)) = oracle w /\
    exists evs, history (snd (c w)) = (history w ++ evs)%list /\
                closes evs = 0%nat /\
                (forall e, fst (c w) = Exc e -> (1 <= fatal_count evs)%nat).

(** ** [main]: the token of the command line, or of the token file *)

(** What opening and reading the token file does: its text, a
    [FileNotFoundError], or any other error (a [PermissionError], a
    directory, an undecodable file, an interrupt). *)
Inductive file_outcome : Type :=
| Contents (text : string)
| FileNotFoundError
| OtherError (e : exn).

(** [c.isspace()] on a character of a [str], for the code points below 256. *)
Definition is_space (c : ascii) : bool :=
  let n := nat_of_ascii c in
  ((9 <=? n) && (n <=? 13) || (28 <=? n) && (n <=? 32) || (n =? 133) || (n =? 160))%nat.

Fixpoint lstrip (s : string) : string :=
  match s with
  | EmptyString => EmptyString
  | String c rest => if is_space c then lstrip rest else s
  end.

Fixpoint rstrip (s : string) : string :=
  match s with
  | EmptyString => EmptyString
  | String c rest =>
      match rstrip rest with
      | EmptyString => if is_space c then EmptyString else String c EmptyString
      | kept => String c kept
      end
  end.

(** [s.strip()]. *)
Definition strip (s : string) : string := rstrip (lstrip s).

(** Lines 129 to 136 of [main]: [args_token] is [args.token], [token_path] the
    expansion of [~/.emulator_console_auth_token], [file] what reading it
    does.  Only a [FileNotFoundError] is caught. *)
Definition resolve_auth_token (args_token : option string) (token_path : string)
    (file : file_outcome) : M (option string) :=
  if negb (truthy args_token) then
    match file with
    | Contents text =>
        let auth_token := Some (strip text) in
        print ("Read auth token from " ++ token_path) ;;
        ret auth_token
    | FileNotFoundError =>
        print "Warning: Auth token file not found and --token was not provided." ;;
        ret args_token
    | OtherError e => raise e
    end
  else ret args_token.

(** [main], from the parsed arguments on. *)
Definition main_from_args (sin : float -> float) (fuel : nat) (args_port : Z)
    (args_token : option string) (token_path : string) (file : file_outcome) : M unit :=
  auth_token <- resolve_auth_token args_token token_path file ;;
  main sin fuel args_port auth_token.

(** ** More observations *)

(** The world with more events in its history. *)
Definition extend (w : world) (evs : list event) : world :=
  {| oracle := oracle w; history := history w ++ evs |}.

(** The console never fails, and nobody interrupts or exits: whatever is
    raised is an [Exception]. *)
Definition console_works (w : world) : Prop :=
  forall i text, exists d, oracle w i (Print text) = Returns d.

Definition uninterrupted (w : world) : Prop :=
  forall i c e, oracle w i c = Raises e -> is_Exception e = true.

(** The user interrupts the [K]-th call of the run, whichever it is, and
    nothing else is fatal. *)
Definition interrupted_at (K : nat) (w : world) : Prop :=
  (forall c, oracle w K c = Raises KeyboardInterrupt) /\
  (forall i c, i <> K -> fatal (c, oracle w i c) = false).

(** A computation that an interrupt at the [K]-th call either precedes, running
    at least [n] calls without a fatal event, or does not survive. *)
Definition interruptible (n : nat) {A} (c : M A) : Prop :=
  forall K w,
    interrupted_at K w -> (List.length (history w) <= K)%nat ->
    exists evs,
      fatal_count evs = 0%nat /\ closes evs = 0%nat /\
      ((exists a, c w = (Ret a, extend w evs) /\
                  (n <= List.length evs)%nat /\
                  (List.length (history w) + List.length evs <= K)%nat) \/
       (exists cl, c w = (Exc KeyboardInterrupt,
                          extend w (evs ++ [(cl, Raises KeyboardInterrupt)])) /\
                   (List.length (history w) + List.length evs = K)%nat)).

(** The command written at the tick of step [n]. *)
Definition step_command (sin : float -> float) (n : Z) : string :=
  let '(x, y, z) := generate_walking_acceleration sin n in
  sensor_command "acceleration" x y z.

(** The writes of the first [m] ticks from step [n] on. *)
Definition step_writes (sin : float -> float) (em : Telnet) (n : Z) (m : nat) : list call :=
  map (fun i => Write em (step_command sin (n + Z.of_nat i))) (seq 0 m).

Definition is_print (ev : event) : bool :=
  match fst ev with Print _ => true | _ => false end.

(** An emulator that is not running: the connection is refused. *)
Definition refused (n : nat) (c : call) : outcome :=
  match c with
  | Connect _ _ _ => Raises (Exception "[Errno 111] Connection refused")
  | _ => Returns ""
  end.

(** The user interrupts the [k]-th call; the emulator cooperates. *)
Definition interrupted_in (k : nat) (n : nat) (c : call) : outcome :=
  if (n =? k)%nat then Raises KeyboardInterrupt else cooperative n c.

(** A computation that does not touch the session. *)
Definition quiet {A} (c : M A) : Prop :=
  forall w, exists evs, snd (c w) = extend w evs /\ session_actions evs = [].

(** A string of whitespace only. *)
Fixpoint all_space (s : string) : bool :=
  match s with
  | EmptyString => true
  | String c rest => is_space c && all_space rest
  end.

(** A console that is gone: every [print] fails. *)
Definition broken_console (n : nat) (c : call) : outcome :=
  match c with
  | Print _ => Raises (Exception "[Errno 5] Input/output error")
  | _ => Returns ""
  end.

(** A computation whose exceptions are those of its calls: when it raises, its
    last call raised. *)
Definition traced {A} (c : M A) : Prop :=
  forall w, exists evs,
    snd (c w) = extend w evs /\
    forall e, fst (c w) = Exc e -> exists before cl, evs = (before ++ [(cl, Raises e)])%list.

(** ** The lines of a run *)

Definition is_step_impact (ev : event) : bool :=
  match ev with
  | (Print text, _) => String.eqb text STEP_IMPACT
  | _ => false
  end.

(** How many step-impact lines a history holds. *)
Definition step_impacts (evs : list event) : nat := List.length (filter is_step_impact evs).

(** Tick by tick (a tick ends with its sleep), whether the tick printed the
    step-impact line; [seen] is whether the tick under way has. *)
Fixpoint marks (seen : bool) (evs : list event) : list bool :=
  match evs with
  | [] => []
  | ev :: rest =>
      if is_sleep ev then seen :: marks false rest
      else marks (seen || is_step_impact ev) rest
  end.

(** The vertical value of step [n], and those of the [m] steps from [n] on. *)
Definition sample (sin : float -> float) (n : Z) : float :=
  snd (fst (generate_walking_acceleration sin n)).

Definition samples (sin : float -> float) (n : Z) (m : nat) : list float :=
  map (fun i => sample sin (n + Z.of_nat i)) (seq 0 m).

(** No error line without an error: the call that follows a call that
    returned is never the print of an error line. *)
Fixpoint logs_follow_failures (evs : list event) : bool :=
  match evs with
  | [] => true
  | ev :: rest =>
      match snd ev, rest with
      | Returns _, next :: _ => negb (is_error_line next)
      | _, _ => true
      end && logs_follow_failures rest
  end.

Definition starts_clean (evs : list event) : bool :=
  match evs with
  | [] => true
  | ev :: _ => negb (is_error_line ev)
  end.

Definition is_raise (ev : event) : bool :=
  match snd ev with Raises _ => true | Returns _ => false end.

Fixpoint has_char (c : ascii) (s : string) : bool :=
  match s with
  | EmptyString => false
  | String c' rest => Ascii.eqb c c' || has_char c rest
  end.

(** ** The lifetime of the session object *)

(** The sessions a history opens: one for each [telnetlib.Telnet(...)] that
    returned. *)
Definition opened (evs : list event) : list Telnet :=
  flat_map (fun ev : event =>
              match ev with
              | (Connect h p _, Returns _) => [{| host := h; port := p |}]
              | _ => []
              end) evs.

(** In [connect_to_emulator] the only reference to the [Telnet] object is the
    local variable [emulator]: the object outlives the call only if it is the
    value returned. *)
Definition returned_session (r : result (option Telnet)) : list Telnet :=
  match r with
  | Ret (Some emulator) => [emulator]
  | _ => []
  end.

Definition Telnet_eqb (a b : Telnet) : bool :=
  String.eqb (host a) (host b) && (port a =? port b).

(** The sessions opened that nothing refers to any more when the call has
    returned [r].  CPython reclaims an object with its last reference, and
    [telnetlib.Telnet.__del__] closes the connection of a reclaimed object. *)
Definition unreferenced (r : result (option Telnet)) (evs : list event) : list Telnet :=
  filter (fun em => negb (existsb (Telnet_eqb em) (returned_session r))) (opened evs).

(** What the runtime does once the call has returned [r]: each session left
    unreferenced is reclaimed, and its finaliser calls [close] on it
    ([telnetlib]'s [close] does not raise). *)
Definition finalise (r : result (option Telnet)) (evs : list event) : list event :=
  map (fun em => (Close em, Returns "")) (unreferenced r evs).

(** A sine for the five values 9.8, 10.5, 11.0, 10.2, 9.9 of the first five
    steps. *)
Definition sin_of_five (x : float) : float :=
  if (x =? 1.25)%float then ((10.5 - 9.8) / 2)%float
  else if (x =? 2.5)%float then ((11.0 - 9.8) / 2)%float
  else if (x =? 3.75)%float then ((10.2 - 9.8) / 2)%float
  else if (x =? 5)%float then ((9.9 - 9.8) / 2)%float
  else 0%float.

(** What [set_sensor_data] leaves in the history when nothing but a
    transmission fails: the write and the acknowledgement, or the failure of
    one of them and its error line. *)
Definition transmission_shape (em : Telnet) (sensor command : string) (tr : list event) : Prop :=
  (exists d1 d2,
      tr = [(Write em command, Returns d1); (ReadUntil em "OK" 2, Returns d2)]) \/
  (exists d1 e d3,
      tr = [(Write em command, Returns d1); (ReadUntil em "OK" 2, Raises e);
            (Print (error_log sensor e), Returns d3)]) \/
  (exists e d2,
      tr = [(Write em command, Raises e); (Print (error_log sensor e), Returns d2)]).

(** * Part II: properties *)

(** ** Binary64 rounding *)

Lemma fexp_eq k : fexp prec emax k = fexp64 k.
Proof. reflexivity. Qed.

Lemma digits2_pos_size p : digits2_pos p = Pos.size p.
Proof. induction p; simpl; congruence. Qed.

Lemma Zdigits2_digits p : Zdigits2 (Zpos p) = digits (Zpos p).
Proof.
  unfold digits. simpl. rewrite digits2_pos_size.
  destruct p; simpl; try reflexivity; rewrite Pos.add_1_r; reflexivity.
Qed.

Lemma digits_bounds M : 0 < M -> 2 ^ (digits M - 1) <= M < 2 ^ digits M.
Proof.
  intros H. unfold digits. replace (Z.log2 M + 1 - 1) with (Z.log2 M) by lia.
  apply Z.log2_spec. assumption.
Qed.

Lemma digits_unique M d : 0 < M -> 2 ^ (d - 1) <= M < 2 ^ d -> digits M = d.
Proof.
  intros HM H. unfold digits.
  assert (0 <= d - 1).
  { destruct (Z_lt_le_dec (d - 1) 0) as [Hn|]; [|assumption].
    assert (d <= 0) by lia. 
    assert (2 ^ d <= 2 ^ 0) by (destruct (Z_lt_le_dec d 0); [rewrite Z.pow_neg_r by lia; simpl; lia| apply Z.pow_le_mono_r; lia]).
    simpl in *. lia. }
  rewrite (Z.log2_unique M (d - 1)); try lia.
  replace (Z.succ (d - 1)) with d by lia. assumption.
Qed.

Lemma digits_pos M : 0 < M -> 1 <= digits M.
Proof. intros. unfold digits. pose proof (Z.log2_nonneg M). lia. Qed.

Lemma digits_mono M N : 0 < M -> M <= N -> digits M <= digits N.
Proof. intros. unfold digits. pose proof (Z.log2_le_mono M N). lia. Qed.

Lemma digits_shift M j : 0 < M -> 0 <= j -> digits (M * 2 ^ j) = digits M + j.
Proof.
  intros HM Hj. apply digits_unique.
  - apply Z.mul_pos_pos; [assumption | apply Z.pow_pos_nonneg; lia].
  - pose proof (digits_bounds M HM) as [H1 H2]. pose proof (digits_pos M HM).
    replace (digits M + j - 1) with ((digits M - 1) + j) by lia.
    rewrite !Z.pow_add_r by lia.
    assert (0 < 2 ^ j) by (apply Z.pow_pos_nonneg; lia).
    split; nia.
Qed.

(* iteration *)
Lemma iter_pos_nat {A} (f : A -> A) p x : iter_pos f p x = Nat.iter (Pos.to_nat p) f x.
Proof.
  revert x. induction p; intros x.
  - change (iter_pos f p~1 x) with (iter_pos f p (iter_pos f p (f x))).
    rewrite !IHp, Pos2Nat.inj_xI.
    replace (S (2 * Pos.to_nat p))%nat with (Pos.to_nat p + S (Pos.to_nat p))%nat by lia.
    rewrite Nat.iter_add, Nat.iter_succ_r. reflexivity.
  - change (iter_pos f p~0 x) with (iter_pos f p (iter_pos f p x)).
    rewrite !IHp, Pos2Nat.inj_xO.
    replace (2 * Pos.to_nat p)%nat with (Pos.to_nat p + Pos.to_nat p)%nat by lia.
    rewrite Nat.iter_add. reflexivity.
  - reflexivity.
Qed.

Lemma shr_1_nonneg m r s : 0 <= m -> shr_1 (Build_shr_record m r s) = Build_shr_record (m / 2) (Z.odd m) (r || s).
Proof.
  intros H. destruct m as [|p|p]; try lia; simpl.
  - reflexivity.
  - destruct p; simpl; try reflexivity.
    + f_equal. rewrite Pos2Z.inj_xI. apply Z.div_unique with 1; lia. 
    + f_equal. rewrite Pos2Z.inj_xO. apply Z.div_unique with 0; lia. 
Qed.

Lemma mod_pow2_succ M n : 0 <= n -> M mod 2 ^ (n + 1) = M mod 2 ^ n + 2 ^ n * Z.b2z (Z.testbit M n).
Proof.
  intros Hn. rewrite Z.pow_add_r by lia. change (2 ^ 1) with 2.
  rewrite Z.rem_mul_r by (try apply Z.pow_nonzero; lia).
  rewrite Z.testbit_spec' by lia. reflexivity.
Qed.

Lemma shr_iter M n : 0 <= M -> Nat.iter n shr_1 (Build_shr_record M false false) = shr_state M n.
Proof.
  intros HM. induction n.
  - reflexivity.
  - simpl Nat.iter. rewrite IHn. destruct n.
    + simpl shr_state. rewrite shr_1_nonneg by assumption. 
      change (Z.pow_pos 2 1) with 2. rewrite Z.mod_1_r. reflexivity.
    + unfold shr_state. rewrite !Nat2Z.inj_succ. 
      set (k := Z.of_nat n). assert (0 <= k) by lia. 
      replace (Z.succ (Z.succ k)) with (Z.succ k + 1) by lia.
      replace (Z.succ k) with (k + 1) by lia.
      assert (0 < 2 ^ (k + 1)) by (apply Z.pow_pos_nonneg; lia).
      rewrite shr_1_nonneg by (apply Z.div_pos; lia).
      f_equal.
      * rewrite Z.div_div by lia. f_equal. 
        rewrite (Z.pow_add_r 2 (k + 1) 1) by lia. reflexivity.
      * rewrite <- Z.bit0_odd. rewrite Z.div_pow2_bits by lia. f_equal.
      * rewrite mod_pow2_succ by lia.
        assert (0 < 2 ^ k) by (apply Z.pow_pos_nonneg; lia).
        assert (0 <= M mod 2 ^ k) by (apply Z.mod_pos_bound; assumption).
        destruct (Z.testbit M k); simpl Z.b2z; 
        destruct (Z.eqb_spec (M mod 2 ^ k) 0) as [E|E]; simpl;
        symmetry; rewrite ?negb_true_iff, ?negb_false_iff;
        try (apply Z.eqb_neq; lia); try (apply Z.eqb_eq; lia).
Qed.

Lemma Zdigits2_digits' M : 0 < M -> Zdigits2 M = digits M.
Proof. destruct M; try lia. intros _. apply Zdigits2_digits. Qed.

Lemma shr_fexp_exact M E :
  0 <= M ->
  shr_fexp prec emax M E loc_Exact =
    let n := fexp64 (Zdigits2 M + E) - E in
    if n <=? 0 then (Build_shr_record M false false, E)
    else (shr_state M (Z.to_nat n), E + n).
Proof.
  intros HM. unfold shr_fexp. rewrite fexp_eq. cbv zeta.
  set (n := fexp64 (Zdigits2 M + E) - E).
  unfold shr, shr_record_of_loc.
  destruct n as [|p|p] eqn:En; try reflexivity.
  replace (Z.pos p <=? 0) with false by (symmetry; apply Z.leb_gt; lia).
  rewrite iter_pos_nat, shr_iter by assumption. reflexivity.
Qed.

Lemma round_of_shr_state M n :
  0 <= M -> 0 < n ->
  round_nearest_even (shr_m (shr_state M (Z.to_nat n))) (loc_of_shr_record (shr_state M (Z.to_nat n)))
  = Py.round_half_even M (2 ^ n).
Proof.
  intros HM Hn. 
  destruct (Z.to_nat n) as [|n'] eqn:E; [lia|].
  assert (Hn' : n = Z.of_nat n' + 1) by lia.
  unfold shr_state. rewrite <- E, Z2Nat.id by lia.
  unfold Py.round_half_even.
  set (k := Z.of_nat n') in *.
  assert (Hmod : M mod 2 ^ n = M mod 2 ^ k + 2 ^ k * Z.b2z (Z.testbit M k))
    by (rewrite Hn'; apply mod_pow2_succ; lia).
  rewrite Hmod.
  assert (0 < 2 ^ k) by (apply Z.pow_pos_nonneg; lia).
  assert (2 ^ n = 2 * 2 ^ k) by (rewrite Hn', Z.pow_add_r by lia; lia).
  pose proof (Z.mod_pos_bound M (2 ^ k) ltac:(lia)).
  cbn [shr_m loc_of_shr_record].
  destruct (Z.testbit M k); cbn [Z.b2z];
  destruct (Z.eqb_spec (M mod 2 ^ k) 0) as [E0|E0]; cbn [negb round_nearest_even].
  - replace (2 * (M mod 2 ^ k + 2 ^ k * 1) <? 2 ^ n) with false by (symmetry; apply Z.ltb_ge; lia).
    replace (2 * (M mod 2 ^ k + 2 ^ k * 1) =? 2 ^ n) with true by (symmetry; apply Z.eqb_eq; lia).
    reflexivity.
  - replace (2 * (M mod 2 ^ k + 2 ^ k * 1) <? 2 ^ n) with false by (symmetry; apply Z.ltb_ge; lia).
    replace (2 * (M mod 2 ^ k + 2 ^ k * 1) =? 2 ^ n) with false by (symmetry; apply Z.eqb_neq; lia).
    reflexivity.
  - replace (2 * (M mod 2 ^ k + 2 ^ k * 0) <? 2 ^ n) with true by (symmetry; apply Z.ltb_lt; lia).
    reflexivity.
  - replace (2 * (M mod 2 ^ k + 2 ^ k * 0) <? 2 ^ n) with true by (symmetry; apply Z.ltb_lt; lia).
    reflexivity.
Qed.

Lemma round_half_even_bounds M n :
  0 <= M -> 0 <= n -> M / 2 ^ n <= Py.round_half_even M (2 ^ n) <= M / 2 ^ n + 1.
Proof.
  intros. unfold Py.round_half_even.
  destruct (_ <? _); [lia|]. destruct (_ =? _); [destruct (Z.even _)|]; lia.
Qed.

Lemma fexp64_ge k : -1074 <= fexp64 k.
Proof. unfold fexp64. lia. Qed.

Lemma div_pow2_lt M d n : 0 <= n -> n <= d -> 0 <= M < 2 ^ d -> M / 2 ^ n < 2 ^ (d - n).
Proof.
  intros Hn Hd HM. apply Z.div_lt_upper_bound. apply Z.pow_pos_nonneg; lia.
  rewrite <- Z.pow_add_r by lia. replace (n + (d - n)) with d by lia. lia.
Qed.

Lemma binary_round_aux_spec s M E :
  0 < M -> E <= fexp64 (digits M + E) ->
  binary_round_aux prec emax s M E loc_Exact = SFofpair s (rnd M E).
Proof.
  intros HM HE. unfold binary_round_aux, rnd.
  rewrite shr_fexp_exact by lia. rewrite Zdigits2_digits' by assumption. cbv zeta.
  set (e' := fexp64 (digits M + E)) in *.
  pose proof (fexp64_ge (digits M + E)) as Hemin. fold e' in Hemin.
  destruct (Z.leb_spec (e' - E) 0) as [Hn|Hn].
  - assert (Hfe : fexp64 (digits M + E) = E) by (unfold e' in *; lia).
    clearbody e'. assert (e' = E) by lia. subst e'.
    rewrite Z.leb_refl.
    cbn [shr_m loc_of_shr_record round_nearest_even].
    rewrite shr_fexp_exact by lia. rewrite Zdigits2_digits' by assumption. cbv zeta.
    rewrite Hfe. replace (E - E) with 0 by lia. cbn [Z.leb Z.compare shr_m]. rewrite Z.mul_1_r.
    unfold SFofpair. cbn [fst snd]. destruct M; try lia. reflexivity.
  - replace (e' <=? E) with false by (symmetry; apply Z.leb_gt; lia).
    rewrite round_of_shr_state by lia.
    set (m1 := Py.round_half_even M (2 ^ (e' - E))).
    pose proof (round_half_even_bounds M (e' - E) ltac:(lia) ltac:(lia)) as Hb. fold m1 in Hb.
    pose proof (digits_bounds M HM) as HdM.
    assert (Hq : M / 2 ^ (e' - E) < 2 ^ 53).
    { assert (e' - E >= digits M - 53) by (unfold e', fexp64; lia).
      destruct (Z_lt_le_dec (digits M) (e' - E)).
      - rewrite Z.div_small. apply Z.pow_pos_nonneg; lia. split; [lia|].
        apply Z.lt_le_trans with (2 ^ digits M); [lia|]. apply Z.pow_le_mono_r; lia.
      - eapply Z.lt_le_trans. apply (div_pow2_lt M (digits M) (e' - E)); try lia.
        apply Z.pow_le_mono_r; lia. }
    assert (0 <= M / 2 ^ (e' - E)) by (apply Z.div_pos; [lia| apply Z.pow_pos_nonneg; lia]).
    replace (E + (e' - E)) with e' by lia.
    rewrite shr_fexp_exact by lia. cbv zeta.
    destruct (Z.eqb_spec m1 (2 ^ 53)) as [Hc|Hc].
    + rewrite Hc. change (Zdigits2 (2 ^ 53)) with 54.
      assert (Hf : fexp64 (54 + e') - e' = 1) by (unfold fexp64; lia).
      rewrite Hf. cbn [Z.leb Z.compare]. reflexivity.
    + assert (Hsh : fexp64 (Zdigits2 m1 + e') - e' <= 0).
      { destruct (Z.eq_dec m1 0) as [Hz|Hz]. 
        - rewrite Hz. simpl Zdigits2. unfold fexp64. lia.
        - rewrite Zdigits2_digits' by lia.
          assert (digits m1 <= 53).
          { assert (Hm1 : 0 < m1) by lia. pose proof (digits_bounds m1 Hm1).
            destruct (Z_lt_le_dec 53 (digits m1)); [|assumption].
            assert (2 ^ 53 <= 2 ^ (digits m1 - 1)) by (apply Z.pow_le_mono_r; lia). lia. }
          unfold fexp64. lia. }
      replace (fexp64 (Zdigits2 m1 + e') - e' <=? 0) with true by (symmetry; apply Z.leb_le; lia).
      cbn [shr_m]. unfold SFofpair. cbn [fst snd]. destruct m1; try lia; reflexivity.
Qed.

Lemma pow2_pos k : 0 <= k -> 0 < 2 ^ k.
Proof. intros. apply Z.pow_pos_nonneg; lia. Qed.

Lemma round_half_even_scale num den c :
  0 < den -> 0 < c -> Py.round_half_even (num * c) (den * c) = Py.round_half_even num den.
Proof.
  intros Hd Hc. unfold Py.round_half_even.
  rewrite Z.div_mul_cancel_r by lia. rewrite Z.mul_mod_distr_r by lia.
  replace (2 * (num mod den * c) <? den * c) with (2 * (num mod den) <? den).
  2:{ destruct (Z.ltb_spec (2 * (num mod den)) den), (Z.ltb_spec (2 * (num mod den * c)) (den * c)); try reflexivity; nia. }
  replace (2 * (num mod den * c) =? den * c) with (2 * (num mod den) =? den).
  2:{ destruct (Z.eqb_spec (2 * (num mod den)) den), (Z.eqb_spec (2 * (num mod den * c)) (den * c)); try reflexivity; nia. }
  reflexivity.
Qed.

Lemma round_half_even_exact q den : 0 < den -> Py.round_half_even (q * den) den = q.
Proof.
  intros. unfold Py.round_half_even. rewrite Z.div_mul, Z.mod_mul by lia.
  replace (2 * 0 <? den) with true by (symmetry; apply Z.ltb_lt; lia). reflexivity.
Qed.

Lemma round_half_even_mono a b den :
  0 < den -> 0 <= a <= b -> Py.round_half_even a den <= Py.round_half_even b den.
Proof.
  intros Hd Hab.
  assert (Hq : a / den <= b / den) by (apply Z.div_le_mono; lia).
  pose proof (Z.mod_pos_bound a den Hd). pose proof (Z.mod_pos_bound b den Hd).
  pose proof (Z.div_mod a den ltac:(lia)). pose proof (Z.div_mod b den ltac:(lia)).
  destruct (Z.eq_dec (a / den) (b / den)) as [Heq|Hne].
  - unfold Py.round_half_even. rewrite <- Heq.
    assert (a mod den <= b mod den) by nia.
    destruct (Z.ltb_spec (2 * (a mod den)) den), (Z.ltb_spec (2 * (b mod den)) den);
    destruct (Z.eqb_spec (2 * (a mod den)) den), (Z.eqb_spec (2 * (b mod den)) den);
    destruct (Z.even (a / den)); lia.
  - assert (Py.round_half_even a den <= a / den + 1).
    { unfold Py.round_half_even. destruct (_ <? _); [lia|]. destruct (_ =? _); [destruct (Z.even _)|]; lia. }
    assert (b / den <= Py.round_half_even b den).
    { unfold Py.round_half_even. destruct (_ <? _); [lia|]. destruct (_ =? _); [destruct (Z.even _)|]; lia. }
    lia.
Qed.

Lemma rnd_scale M E j : 0 < M -> 0 <= j -> rnd (M * 2 ^ j) (E - j) = rnd M E.
Proof.
  intros HM Hj. unfold rnd. rewrite digits_shift by assumption.
  replace (digits M + j + (E - j)) with (digits M + E) by lia.
  set (e' := fexp64 (digits M + E)).
  assert (Hj2 : 0 < 2 ^ j) by (apply pow2_pos; lia).
  destruct (Z.leb_spec e' (E - j)) as [H1|H1].
  - replace (e' <=? E) with true by (symmetry; apply Z.leb_le; lia).
    f_equal. rewrite <- Z.mul_assoc, <- Z.pow_add_r by lia. do 2 f_equal. lia.
  - destruct (Z.leb_spec e' E) as [H2|H2].
    + replace (M * 2 ^ j) with (M * 2 ^ (E - e') * 2 ^ (e' - (E - j))).
      2:{ rewrite <- Z.mul_assoc, <- Z.pow_add_r by lia. do 2 f_equal. lia. }
      rewrite round_half_even_exact by (apply pow2_pos; lia).
      assert (M * 2 ^ (E - e') < 2 ^ 53).
      { pose proof (digits_bounds M HM) as [_ Hd].
        assert (digits M + (E - e') <= 53) by (unfold e', fexp64; lia).
        apply Z.lt_le_trans with (2 ^ (digits M + (E - e'))).
        - pose proof (digits_pos M HM). rewrite Z.pow_add_r by lia. 
          assert (0 < 2 ^ (E - e')) by (apply pow2_pos; lia). nia.
        - apply Z.pow_le_mono_r; lia. }
      replace (M * 2 ^ (E - e') =? 2 ^ 53) with false by (symmetry; apply Z.eqb_neq; lia).
      reflexivity.
    + replace (e' - (E - j)) with ((e' - E) + j) by lia.
      rewrite Z.pow_add_r by lia.
      rewrite round_half_even_scale by (try apply pow2_pos; lia).
      reflexivity.
Qed.

Lemma rnd_canonical m e :
  0 < m -> fexp64 (digits m + e) = e -> rnd m e = (m, e).
Proof.
  intros Hm H. unfold rnd. rewrite H, Z.leb_refl, Z.sub_diag, Z.mul_1_r. reflexivity.
Qed.

Lemma rnd_range M E :
  0 < M ->
  0 <= fst (rnd M E) < 2 ^ 53 /\ -1074 <= snd (rnd M E) /\
  (-1074 < snd (rnd M E) -> 2 ^ 52 <= fst (rnd M E)) /\
  fexp64 (digits M + E) <= snd (rnd M E) <= fexp64 (digits M + E) + 1.
Proof.
  intros HM. unfold rnd.
  set (e' := fexp64 (digits M + E)).
  pose proof (digits_bounds M HM) as [Hd1 Hd2]. pose proof (digits_pos M HM) as Hdp.
  assert (He' : -1074 <= e') by apply fexp64_ge.
  destruct (Z.leb_spec e' E) as [H1|H1]; cbn [fst snd].
  - assert (0 < 2 ^ (E - e')) by (apply pow2_pos; lia).
    assert (digits M + (E - e') <= 53) by (unfold e', fexp64; lia).
    assert (2 ^ (digits M + (E - e')) <= 2 ^ 53) by (apply Z.pow_le_mono_r; lia).
    rewrite Z.pow_add_r in * by lia.
    repeat split; try nia; try lia.
    intros Hn. assert (digits M + (E - e') = 53) by (unfold e', fexp64 in *; lia).
    replace (2 ^ 52) with (2 ^ (digits M - 1) * 2 ^ (E - e')).
    2:{ rewrite <- Z.pow_add_r by lia. f_equal. lia. }
    nia.
  - set (k := e' - E). assert (Hk : 0 < k) by (unfold k; lia).
    pose proof (round_half_even_bounds M k ltac:(lia) ltac:(lia)) as Hb.
    set (m1 := Py.round_half_even M (2 ^ k)) in *.
    assert (Hkd : digits M - 53 <= k) by (unfold k, e', fexp64; lia).
    assert (Hq : M / 2 ^ k < 2 ^ 53).
    { destruct (Z_lt_le_dec (digits M) k).
      - rewrite Z.div_small. lia. split; [lia|].
        apply Z.lt_le_trans with (2 ^ digits M); [lia|]. apply Z.pow_le_mono_r; lia.
      - eapply Z.lt_le_trans. apply (div_pow2_lt M (digits M) k); try lia.
        apply Z.pow_le_mono_r; lia. }
    assert (0 <= M / 2 ^ k) by (apply Z.div_pos; [lia| apply pow2_pos; lia]).
    assert (Hlow : -1074 < e' -> 2 ^ 52 <= M / 2 ^ k).
    { intros Hn. assert (k = digits M - 53) by (unfold k, e', fexp64 in *; lia).
      apply Z.div_le_lower_bound. apply pow2_pos; lia.
      rewrite <- Z.pow_add_r by lia. replace (k + 52) with (digits M - 1) by lia. lia. }
    destruct (Z.eqb_spec m1 (2 ^ 53)); cbn [fst snd].
    + repeat split; try lia.
    + repeat split; try lia.
Qed.

Lemma fexp64_mono a b : a <= b -> fexp64 a <= fexp64 b.
Proof. unfold fexp64. lia. Qed.

Lemma rnd_carry M E :
  0 < M -> snd (rnd M E) = fexp64 (digits M + E) + 1 -> fst (rnd M E) = 2 ^ 52.
Proof.
  intros HM. unfold rnd. destruct (_ <=? _); cbn [fst snd]; [lia|].
  destruct (_ =? _); cbn [fst snd]; [reflexivity | lia].
Qed.

Lemma rnd_mono_lex M1 M2 E :
  0 < M1 <= M2 ->
  snd (rnd M1 E) < snd (rnd M2 E) \/
  (snd (rnd M1 E) = snd (rnd M2 E) /\ fst (rnd M1 E) <= fst (rnd M2 E)).
Proof.
  intros HM.
  assert (HM1 : 0 < M1) by lia. assert (HM2 : 0 < M2) by lia.
  pose proof (digits_mono M1 M2 HM1 ltac:(lia)) as Hd.
  pose proof (fexp64_mono (digits M1 + E) (digits M2 + E) ltac:(lia)) as He.
  destruct (Z.eq_dec (fexp64 (digits M1 + E)) (fexp64 (digits M2 + E))) as [Heq|Hne].
  - unfold rnd. rewrite <- Heq. set (e' := fexp64 (digits M1 + E)).
    destruct (Z.leb_spec e' E) as [H1|H1]; cbn [fst snd].
    + right. split; [reflexivity|]. apply Z.mul_le_mono_nonneg_r; [|lia].
      apply Z.lt_le_incl, pow2_pos; lia.
    + pose proof (round_half_even_mono M1 M2 (2 ^ (e' - E)) ltac:(apply pow2_pos; lia) ltac:(lia)) as Hm.
      pose proof (rnd_range M2 E HM2) as [[_ Hr] _]. unfold rnd in Hr. rewrite <- Heq in Hr.
      fold e' in Hr. replace (e' <=? E) with false in Hr by (symmetry; apply Z.leb_gt; lia).
      destruct (Z.eqb_spec (Py.round_half_even M1 (2 ^ (e' - E))) (2 ^ 53)) as [c1|c1];
      destruct (Z.eqb_spec (Py.round_half_even M2 (2 ^ (e' - E))) (2 ^ 53)) as [c2|c2]; cbn [fst snd] in *.
      * right. lia.
      * lia.
      * left. lia.
      * right. lia.
  - pose proof (rnd_range M1 E HM1) as (_ & _ & _ & R1).
    pose proof (rnd_range M2 E HM2) as (_ & L2 & C2 & R2).
    destruct (Z.eq_dec (snd (rnd M1 E)) (snd (rnd M2 E))) as [Hs|Hs]; [|left; lia].
    right. split; [assumption|].
    assert (snd (rnd M1 E) = fexp64 (digits M1 + E) + 1) by lia.
    rewrite (rnd_carry M1 E HM1) by assumption.
    apply C2. pose proof (fexp64_ge (digits M1 + E)). lia.
Qed.

Lemma lex_pval p1 p2 :
  0 <= fst p1 < 2 ^ 53 -> -1074 <= snd p1 ->
  (-1074 < snd p2 -> 2 ^ 52 <= fst p2) ->
  snd p1 < snd p2 \/ (snd p1 = snd p2 /\ fst p1 <= fst p2) ->
  pval p1 <= pval p2.
Proof.
  intros H1 H2 H3 [Hlt|[Heq Hle]]; unfold pval.
  - assert (0 < 2 ^ (snd p1 + 1074)) by (apply pow2_pos; lia).
    assert (2 ^ (snd p2 + 1074) = 2 ^ (snd p1 + 1074) * 2 ^ (snd p2 - snd p1)) 
      by (rewrite <- Z.pow_add_r by lia; f_equal; lia).
    assert (2 <= 2 ^ (snd p2 - snd p1)) by (change 2 with (2 ^ 1) at 1; apply Z.pow_le_mono_r; lia).
    specialize (H3 ltac:(lia)). change (2 ^ 53) with (2 * 2 ^ 52) in H1. nia.
  - rewrite Heq. apply Z.mul_le_mono_nonneg_r; [|lia]. apply Z.lt_le_incl, pow2_pos; lia.
Qed.

Lemma rnd_mono_same M1 M2 E :
  0 < M1 <= M2 -> pval (rnd M1 E) <= pval (rnd M2 E) /\ snd (rnd M1 E) <= snd (rnd M2 E).
Proof.
  intros HM. pose proof (rnd_mono_lex M1 M2 E HM) as Hl.
  pose proof (rnd_range M1 E ltac:(lia)) as (A1 & B1 & _).
  pose proof (rnd_range M2 E ltac:(lia)) as (_ & _ & C2 & _).
  split; [apply lex_pval; assumption | lia].
Qed.

(** Monotonicity for two exact values [M1 * 2^E1 <= M2 * 2^E2], compared at a
    common exponent [E0]. *)
Lemma rnd_mono M1 E1 M2 E2 E0 :
  0 < M1 -> E0 <= E1 -> E0 <= E2 ->
  M1 * 2 ^ (E1 - E0) <= M2 * 2 ^ (E2 - E0) ->
  pval (rnd M1 E1) <= pval (rnd M2 E2) /\ snd (rnd M1 E1) <= snd (rnd M2 E2).
Proof.
  intros HM1 H1 H2 Hle.
  assert (0 < 2 ^ (E1 - E0)) by (apply pow2_pos; lia).
  assert (0 < 2 ^ (E2 - E0)) by (apply pow2_pos; lia).
  assert (HM2 : 0 < M2) by nia.
  rewrite <- (rnd_scale M1 E1 (E1 - E0)) by lia.
  rewrite <- (rnd_scale M2 E2 (E2 - E0)) by lia.
  replace (E1 - (E1 - E0)) with E0 by lia. replace (E2 - (E2 - E0)) with E0 by lia.
  apply rnd_mono_same. nia.
Qed.

(** ** Order *)

Lemma canonical_range m e :
  canonical_mantissa prec emax m e = true ->
  -1074 <= e /\ Zpos m < 2 ^ 53 /\ (-1074 < e -> 2 ^ 52 <= Zpos m).
Proof.
  unfold canonical_mantissa. rewrite fexp_eq. intros H. apply Z.eqb_eq in H.
  change (Zpos (digits2_pos m)) with (Zdigits2 (Zpos m)) in H. rewrite Zdigits2_digits in H.
  pose proof (digits_bounds (Zpos m) ltac:(lia)) as [Hd1 Hd2].
  pose proof (digits_pos (Zpos m) ltac:(lia)).
  unfold fexp64 in H. split; [lia|]. split.
  - apply Z.lt_le_trans with (2 ^ digits (Z.pos m)); [lia|]. apply Z.pow_le_mono_r; lia.
  - intros Hn. assert (digits (Z.pos m) = 53) by lia.
    rewrite H1 in Hd1. exact Hd1.
Qed.

Lemma valid_finite s m e :
  valid_binary (S754_finite s m e) = true ->
  -1074 <= e <= 971 /\ Zpos m < 2 ^ 53 /\ (-1074 < e -> 2 ^ 52 <= Zpos m) /\
  fexp64 (digits (Zpos m) + e) = e.
Proof.
  simpl. unfold bounded. intros H. apply andb_true_iff in H as [H1 H2].
  pose proof (canonical_range m e H1) as (A & B & C). apply Z.leb_le in H2.
  change (emax - prec) with 971 in H2.
  unfold canonical_mantissa in H1. rewrite fexp_eq in H1. apply Z.eqb_eq in H1.
  change (Zpos (digits2_pos m)) with (Zdigits2 (Zpos m)) in H1. rewrite Zdigits2_digits in H1.
  repeat split; try lia; assumption.
Qed.

Lemma rank_finite_bound s m e :
  valid_binary (S754_finite s m e) = true ->
  0 < Zpos m * 2 ^ (e + 1074) < 2 ^ 2100.
Proof.
  intros H. apply valid_finite in H as (A & B & C & _).
  assert (0 < 2 ^ (e + 1074)) by (apply pow2_pos; lia).
  assert (2 ^ (e + 1074) <= 2 ^ 2045) by (apply Z.pow_le_mono_r; lia).
  split; [nia|].
  replace (2 ^ 2100) with (2 ^ 53 * 2 ^ 2045 * 2 ^ 2) by (rewrite <- !Z.pow_add_r by lia; reflexivity).
  assert (0 < 2 ^ 2045) by (apply pow2_pos; lia). 
  assert (Z.pos m * 2 ^ (e + 1074) < 2 ^ 53 * 2 ^ 2045) by nia.
  change (2 ^ 2) with 4. lia.
Qed.

Lemma compare_pos_rank m1 e1 m2 e2 :
  valid_binary (S754_finite false m1 e1) = true ->
  valid_binary (S754_finite false m2 e2) = true ->
  match Z.compare e1 e2 with
  | Lt => Lt
  | Gt => Gt
  | Eq => Pos.compare_cont Eq m1 m2
  end = Z.compare (Zpos m1 * 2 ^ (e1 + 1074)) (Zpos m2 * 2 ^ (e2 + 1074)).
Proof.
  intros V1 V2. apply valid_finite in V1 as (A1 & B1 & C1 & _). apply valid_finite in V2 as (A2 & B2 & C2 & _).
  symmetry. destruct (Z.compare_spec e1 e2) as [He|He|He].
  - subst e2. change (Pos.compare_cont Eq m1 m2) with (Z.compare (Zpos m1) (Zpos m2)).
    assert (0 < 2 ^ (e1 + 1074)) by (apply pow2_pos; lia).
    destruct (Z.compare_spec (Zpos m1) (Zpos m2)) as [Hm|Hm|Hm].
    + apply Z.compare_eq_iff. rewrite Hm. reflexivity.
    + apply Z.compare_lt_iff. nia.
    + apply Z.compare_gt_iff. nia.
  - apply Z.compare_lt_iff.
    pose proof (lex_pval (Zpos m1, e1) (Zpos m2, e2)) as L. unfold pval in L. cbn [fst snd] in L.
    assert (0 < 2 ^ (e1 + 1074)) by (apply pow2_pos; lia).
    assert (2 ^ (e2 + 1074) = 2 ^ (e1 + 1074) * 2 ^ (e2 - e1)) 
      by (rewrite <- Z.pow_add_r by lia; f_equal; lia).
    assert (2 <= 2 ^ (e2 - e1)) by (change 2 with (2 ^ 1) at 1; apply Z.pow_le_mono_r; lia).
    specialize (C2 ltac:(lia)). change (2 ^ 53) with (2 * 2 ^ 52) in B1. nia.
  - apply Z.compare_gt_iff.
    assert (0 < 2 ^ (e2 + 1074)) by (apply pow2_pos; lia).
    assert (2 ^ (e1 + 1074) = 2 ^ (e2 + 1074) * 2 ^ (e1 - e2)) 
      by (rewrite <- Z.pow_add_r by lia; f_equal; lia).
    assert (2 <= 2 ^ (e1 - e2)) by (change 2 with (2 ^ 1) at 1; apply Z.pow_le_mono_r; lia).
    specialize (C1 ltac:(lia)). change (2 ^ 53) with (2 * 2 ^ 52) in B2. nia.
Qed.

Lemma valid_sign s m e : valid_binary (S754_finite s m e) = valid_binary (S754_finite false m e).
Proof. reflexivity. Qed.

Ltac cmp_solve :=
  cbn [cond_Zopp]; try reflexivity; f_equal; try reflexivity; symmetry;
  first [ apply Z.compare_eq_iff; lia | apply Z.compare_lt_iff; lia | apply Z.compare_gt_iff; lia ].

Lemma SFcompare_rank x y :
  valid_binary x = true -> valid_binary y = true ->
  is_nan_sf x = false -> is_nan_sf y = false ->
  SFcompare x y = Some (Z.compare (rank x) (rank y)).
Proof.
  intros Vx Vy Nx Ny.
  assert (P : 0 < 2 ^ 2100) by (apply pow2_pos; lia).
  destruct x as [sx|sx| |sx mx ex]; try discriminate;
  destruct y as [sy|sy| |sy my ey]; try discriminate;
  try pose proof (rank_finite_bound _ _ _ Vx) as Hx;
  try pose proof (rank_finite_bound _ _ _ Vy) as Hy;
  cbn [SFcompare rank].
  - reflexivity.
  - destruct sy; cmp_solve.
  - destruct sy; cmp_solve.
  - destruct sx; cmp_solve.
  - destruct sx, sy; cmp_solve.
  - destruct sx, sy; cmp_solve.
  - destruct sx; cmp_solve.
  - destruct sx, sy; cmp_solve.
  - rewrite valid_sign in Vx, Vy.
    destruct sx, sy; cbn [cond_Zopp]; f_equal.
    + rewrite Z.compare_opp. rewrite <- (compare_pos_rank _ _ _ _ Vy Vx).
      rewrite (Z.compare_antisym ey ex), (Pos.compare_cont_antisym).
      destruct (ey ?= ex); reflexivity.
    + symmetry. apply Z.compare_lt_iff. lia.
    + symmetry. apply Z.compare_gt_iff. lia.
    + apply compare_pos_rank; assumption.
Qed.

Lemma pos_iter_xO m d : Zpos (Pos.iter xO m d) = Zpos m * 2 ^ Zpos d.
Proof.
  induction d using Pos.peano_ind.
  - simpl. lia.
  - rewrite Pos.iter_succ, Pos2Z.inj_xO, IHd, Pos2Z.inj_succ, Z.pow_succ_r by lia. lia.
Qed.

Lemma shl_align_fst m e e' :
  e' <= e -> Zpos (fst (shl_align m e e')) = Zpos m * 2 ^ (e - e').
Proof.
  intros H. unfold shl_align. destruct (e' - e) as [|d|d] eqn:E; cbn [fst].
  - replace (e - e') with 0 by lia. lia.
  - lia.
  - rewrite pos_iter_xO. do 2 f_equal. lia.
Qed.

Lemma shl_align_snd m e e' :
  snd (shl_align m e e') = Z.min e e'.
Proof.
  unfold shl_align. destruct (e' - e) as [|d|d] eqn:E; cbn [snd]; lia.
Qed.

Lemma binary_round_spec s m e :
  binary_round prec emax s m e = SFofpair s (rnd (Zpos m) e).
Proof.
  unfold binary_round. rewrite fexp_eq.
  change (Zpos (digits2_pos m)) with (Zdigits2 (Zpos m)). rewrite Zdigits2_digits.
  set (e' := fexp64 (digits (Zpos m) + e)).
  destruct (shl_align m e e') as [mz ez] eqn:Esh.
  pose proof (shl_align_snd m e e') as Hs. rewrite Esh in Hs. cbn [snd] in Hs.
  destruct (Z_le_gt_dec e' e) as [Hle|Hgt].
  - pose proof (shl_align_fst m e e' Hle) as Hf. rewrite Esh in Hf. cbn [fst] in Hf.
    assert (Hez : ez = e') by lia. clear Hs. subst ez.
    assert (Hd : digits (Zpos mz) + e' = digits (Zpos m) + e).
    { rewrite Hf, digits_shift by lia. lia. }
    rewrite binary_round_aux_spec; try lia.
    + rewrite Hf. rewrite <- (rnd_scale (Zpos m) e (e - e')) by lia.
      replace (e - (e - e')) with e' by lia. reflexivity.
    + rewrite Hd. fold e'. lia.
  - assert (Hmz : mz = m).
    { unfold shl_align in Esh. destruct (e' - e) eqn:E; try lia; inversion Esh; reflexivity. }
    assert (Hez : ez = e) by lia. clear Hs. subst ez mz.
    apply binary_round_aux_spec; [lia | fold e'; lia].
Qed.

Lemma binary_normalize_spec z e s0 :
  binary_normalize prec emax z e s0 =
  match z with
  | Z0 => S754_zero s0
  | Zpos p => SFofpair false (rnd (Zpos p) e)
  | Zneg p => SFofpair true (rnd (Zpos p) e)
  end.
Proof. destruct z; simpl; try reflexivity; apply binary_round_spec. Qed.

Lemma digits_mul_ge a b : 0 < a -> 0 < b -> digits a + digits b - 1 <= digits (a * b).
Proof.
  intros Ha Hb.
  pose proof (digits_bounds a Ha) as [A1 _]. pose proof (digits_bounds b Hb) as [B1 _].
  pose proof (digits_pos a Ha). pose proof (digits_pos b Hb).
  assert (0 < 2 ^ (digits a - 1)) by (apply pow2_pos; lia).
  assert (0 < 2 ^ (digits b - 1)) by (apply pow2_pos; lia).
  assert (Hp : 2 ^ (digits a + digits b - 2) <= a * b).
  { replace (digits a + digits b - 2) with ((digits a - 1) + (digits b - 1)) by lia.
    rewrite Z.pow_add_r by lia. nia. }
  assert (0 < 2 ^ (digits a + digits b - 2)) by (apply pow2_pos; lia).
  pose proof (digits_mono _ _ H3 Hp) as Hm.
  rewrite (digits_unique (2 ^ (digits a + digits b - 2)) (digits a + digits b - 1)) in Hm; try lia.
  replace (digits a + digits b - 1 - 1) with (digits a + digits b - 2) by lia.
  split; [lia|]. apply Z.pow_lt_mono_r; lia.
Qed.

Lemma SFmul_finite sx mx ex sy my ey :
  valid_binary (S754_finite sx mx ex) = true ->
  valid_binary (S754_finite sy my ey) = true ->
  SF64mul (S754_finite sx mx ex) (S754_finite sy my ey)
  = SFofpair (xorb sx sy) (rnd (Zpos mx * Zpos my) (ex + ey)).
Proof.
  intros Vx Vy. unfold SF64mul, SFmul.
  apply valid_finite in Vx as (Ax & Bx & Cx & Dx). apply valid_finite in Vy as (Ay & By & Cy & Dy).
  rewrite Pos2Z.inj_mul.
  apply binary_round_aux_spec; [lia|].
  pose proof (digits_mul_ge (Zpos mx) (Zpos my) ltac:(lia) ltac:(lia)).
  pose proof (digits_pos (Zpos mx) ltac:(lia)). pose proof (digits_pos (Zpos my) ltac:(lia)).
  unfold fexp64 in *. lia.
Qed.

Lemma SFadd_finite sx mx ex sy my ey :
  SF64add (S754_finite sx mx ex) (S754_finite sy my ey)
  = match aligned_sum sx mx ex sy my ey with
    | Z0 => S754_zero false
    | Zpos p => SFofpair false (rnd (Zpos p) (Z.min ex ey))
    | Zneg p => SFofpair true (rnd (Zpos p) (Z.min ex ey))
    end.
Proof.
  unfold SF64add, SFadd. rewrite binary_normalize_spec.
  rewrite !shl_align_fst by lia. reflexivity.
Qed.

Lemma SFsub_finite sx mx ex sy my ey :
  SF64sub (S754_finite sx mx ex) (S754_finite sy my ey)
  = match aligned_sum sx mx ex (negb sy) my ey with
    | Z0 => S754_zero false
    | Zpos p => SFofpair false (rnd (Zpos p) (Z.min ex ey))
    | Zneg p => SFofpair true (rnd (Zpos p) (Z.min ex ey))
    end.
Proof.
  unfold SF64sub, SFsub. rewrite binary_normalize_spec.
  rewrite !shl_align_fst by lia. unfold aligned_sum.
  replace (cond_Zopp (negb sy) (Z.pos my * 2 ^ (ey - Z.min ex ey))) with (- cond_Zopp sy (Z.pos my * 2 ^ (ey - Z.min ex ey)))
    by (destruct sy; simpl; lia).
  rewrite Z.add_opp_r. reflexivity.
Qed.

(** Division by [4.0 = 2^52 * 2^-50] is exact on normal numbers. *)
Lemma SFdiv_4 s m e :
  valid_binary (S754_finite s m e) = true -> -1071 <= e ->
  SF64div (S754_finite s m e) (S754_finite false 4503599627370496 (-50)) = S754_finite s m (e - 2).
Proof.
  intros V He. apply valid_finite in V as (A & B & C & D).
  assert (Hd : digits (Zpos m) = 53) by (unfold fexp64 in D; lia).
  unfold SF64div, SFdiv, SFdiv_core_binary.
  rewrite fexp_eq, !Zdigits2_digits, Hd.
  change (digits 4503599627370496) with 53.
  replace (53 + e - (53 + -50)) with (e - 3 + 53) by lia.
  replace (fexp64 (e - 3 + 53)) with (e - 3) by (unfold fexp64; lia).
  replace (Z.min (e - 3) (e - -50)) with (e - 3) by lia.
  replace (e - -50 - (e - 3)) with 53 by lia.
  cbv iota.
  replace (Z.div_eucl (Z.shiftl (Z.pos m) 53) 4503599627370496) with (2 * Zpos m, 0).
  2:{ rewrite Z.shiftl_mul_pow2 by lia.
      replace (Z.pos m * 2 ^ 53) with (4503599627370496 * (2 * Z.pos m) + 0) by (change (2^53) with (2 * 4503599627370496); lia).
      pose proof (Z.div_eucl_eq). 
      generalize (Z_div_mod (4503599627370496 * (2 * Z.pos m) + 0) 4503599627370496 ltac:(lia)).
      destruct (Z.div_eucl _ _) as [q r]. intros [H1 H2]. f_equal; nia. }
  change (new_location 4503599627370496 0) with loc_Exact.
  rewrite xorb_false_r.
  rewrite binary_round_aux_spec.
  - replace (2 * Z.pos m) with (Z.pos m * 2 ^ 1) by lia.
    replace (e - 3) with ((e - 2) - 1) by lia. rewrite rnd_scale by lia.
    rewrite rnd_canonical; [|lia|rewrite Hd; unfold fexp64; lia].
    unfold SFofpair. cbn [fst snd]. replace (e - 2 <=? 971) with true by (symmetry; apply Z.leb_le; lia).
    reflexivity.
  - lia.
  - replace (2 * Z.pos m) with (Z.pos m * 2 ^ 1) by lia. rewrite digits_shift, Hd by lia.
    unfold fexp64. lia.
Qed.

(** ** Primitive floats *)

Lemma is_nan_spec x : is_nan x = is_nan_sf (Prim2SF x).
Proof.
  unfold is_nan. rewrite eqb_spec. unfold SFeqb.
  destruct (is_nan_sf (Prim2SF x)) eqn:E.
  - destruct (Prim2SF x); try discriminate. reflexivity.
  - rewrite SFcompare_rank; try apply Prim2SF_valid; try assumption.
    rewrite Z.compare_refl. reflexivity.
Qed.

Lemma ltb_rank x y :
  (x <? y)%float = negb (is_nan x) && negb (is_nan y) && (frank x <? frank y).
Proof.
  rewrite ltb_spec, !is_nan_spec. unfold SFltb, frank.
  destruct (is_nan_sf (Prim2SF x)) eqn:Ex.
  { destruct (Prim2SF x); try discriminate. reflexivity. }
  destruct (is_nan_sf (Prim2SF y)) eqn:Ey.
  { destruct (Prim2SF y); try discriminate. destruct (Prim2SF x); reflexivity. }
  rewrite SFcompare_rank; try apply Prim2SF_valid; try assumption.
  simpl. unfold Z.ltb. destruct (_ ?= _); reflexivity.
Qed.

Lemma leb_rank x y :
  (x <=? y)%float = negb (is_nan x) && negb (is_nan y) && (frank x <=? frank y).
Proof.
  rewrite leb_spec, !is_nan_spec. unfold SFleb, frank.
  destruct (is_nan_sf (Prim2SF x)) eqn:Ex.
  { destruct (Prim2SF x); try discriminate. reflexivity. }
  destruct (is_nan_sf (Prim2SF y)) eqn:Ey.
  { destruct (Prim2SF y); try discriminate. destruct (Prim2SF x); reflexivity. }
  rewrite SFcompare_rank; try apply Prim2SF_valid; try assumption.
  simpl. unfold Z.leb. destruct (_ ?= _); reflexivity.
Qed.

Lemma scale_le a x b y c :
  0 <= c -> 0 <= x -> 0 <= y ->
  (a * 2 ^ x <= b * 2 ^ y <-> a * 2 ^ (x + c) <= b * 2 ^ (y + c)).
Proof.
  intros. rewrite !Z.pow_add_r by lia. assert (0 < 2 ^ c) by (apply pow2_pos; lia). split; nia.
Qed.

Lemma pval_le_iff m1 e1 m2 e2 E0 :
  -1074 <= E0 -> E0 <= e1 -> E0 <= e2 ->
  (pval (m1, e1) <= pval (m2, e2) <-> m1 * 2 ^ (e1 - E0) <= m2 * 2 ^ (e2 - E0)).
Proof.
  intros. unfold pval. cbn [fst snd].
  replace (e1 + 1074) with ((e1 - E0) + (E0 + 1074)) by lia.
  replace (e2 + 1074) with ((e2 - E0) + (E0 + 1074)) by lia.
  symmetry. apply scale_le; lia.
Qed.

(** Facts about booleans of float comparisons *)
Lemma ltb_true x y : (x <? y)%float = true -> is_nan x = false /\ is_nan y = false /\ frank x < frank y.
Proof.
  rewrite ltb_rank. intros H. apply andb_true_iff in H as [H H3]. apply andb_true_iff in H as [H1 H2].
  apply negb_true_iff in H1, H2. apply Z.ltb_lt in H3. auto.
Qed.

Lemma ltb_false x y : (x <? y)%float = false -> is_nan x = false -> is_nan y = false -> frank y <= frank x.
Proof.
  rewrite ltb_rank. intros H H1 H2. rewrite H1, H2 in H. simpl in H. apply Z.ltb_ge in H. exact H.
Qed.

Lemma leb_true x y : (x <=? y)%float = true -> is_nan x = false /\ is_nan y = false /\ frank x <= frank y.
Proof.
  rewrite leb_rank. intros H. apply andb_true_iff in H as [H H3]. apply andb_true_iff in H as [H1 H2].
  apply negb_true_iff in H1, H2. apply Z.leb_le in H3. auto.
Qed.

Lemma leb_intro x y : is_nan x = false -> is_nan y = false -> frank x <= frank y -> (x <=? y)%float = true.
Proof.
  intros H1 H2 H3. rewrite leb_rank, H1, H2. simpl. apply Z.leb_le. exact H3.
Qed.

Lemma Prim2SF_min_y : Prim2SF min_y = S754_finite false 8782019273372468 (-50).
Proof. vm_compute. reflexivity. Qed.
Lemma Prim2SF_max_y : Prim2SF max_y = S754_finite false 6642809450371482 (-49).
Proof. vm_compute. reflexivity. Qed.

Lemma frank_min_y : frank min_y = M0 * 2 ^ 1024.
Proof. unfold frank. rewrite Prim2SF_min_y. reflexivity. Qed.
Lemma frank_max_y : frank max_y = M1 * 2 ^ 1025.
Proof. unfold frank. rewrite Prim2SF_max_y. reflexivity. Qed.
Lemma nan_min_y : is_nan min_y = false. Proof. reflexivity. Qed.
Lemma nan_max_y : is_nan max_y = false. Proof. reflexivity. Qed.

Lemma frank_min_max : frank min_y < frank max_y.
Proof.
  rewrite frank_min_y, frank_max_y. unfold M0, M1.
  replace (2 ^ 1025) with (2 ^ 1024 * 2) by reflexivity.
  assert (0 < 2 ^ 1024) by (apply pow2_pos; lia). nia.
Qed.

Lemma clamp_cases v :
  (y_value_clamped v = v /\ is_nan v = false /\ frank min_y < frank v <= frank max_y) \/
  (y_value_clamped v = max_y /\ is_nan v = false /\ frank max_y < frank v) \/
  (y_value_clamped v = min_y /\ (is_nan v = true \/ frank v <= frank min_y)).
Proof.
  unfold y_value_clamped, Py.min, Py.max.
  destruct (max_y <? v)%float eqn:E1.
  - right. left. apply ltb_true in E1 as (_ & Hn & Hr).
    change (min_y <? max_y)%float with true. cbv iota. auto.
  - destruct (min_y <? v)%float eqn:E2.
    + left. apply ltb_true in E2 as (_ & Hn & Hr).
      pose proof (ltb_false _ _ E1 nan_max_y Hn). auto.
    + right. right. split; [reflexivity|].
      destruct (is_nan v) eqn:Hn; [left; reflexivity|right].
      apply (ltb_false _ _ E2 nan_min_y Hn).
Qed.

Lemma clamp_range v :
  is_nan (y_value_clamped v) = false /\
  frank min_y <= frank (y_value_clamped v) <= frank max_y.
Proof.
  pose proof frank_min_max.
  destruct (clamp_cases v) as [(-> & Hn & Hr)|[(-> & Hn & Hr)|(-> & Hr)]].
  - split; [assumption | lia].
  - split; [reflexivity | lia].
  - split; [reflexivity | lia].
Qed.

Lemma clamp_mono v1 v2 :
  (v1 <? v2)%float = true -> frank (y_value_clamped v1) <= frank (y_value_clamped v2).
Proof.
  intros H. apply ltb_true in H as (N1 & N2 & Hr).
  pose proof frank_min_max.
  destruct (clamp_cases v1) as [(-> & Hn1 & Hr1)|[(-> & Hn1 & Hr1)|(-> & Hr1)]];
  destruct (clamp_cases v2) as [(-> & Hn2 & Hr2)|[(-> & Hn2 & Hr2)|(-> & Hr2)]];
  try lia.
  - destruct Hr2 as [Hr2|Hr2]; [congruence | lia].
  - destruct Hr2 as [Hr2|Hr2]; [congruence | lia].
Qed.

Lemma clamped_shape c :
  is_nan c = false -> frank min_y <= frank c <= frank max_y ->
  exists m e, Prim2SF c = S754_finite false m e /\ -50 <= e <= -49 /\
              M0 <= Zpos m * 2 ^ (e + 50) <= 2 * M1.
Proof.
  intros Hn [Hlo Hhi]. rewrite frank_min_y in Hlo. rewrite frank_max_y in Hhi.
  pose proof (Prim2SF_valid c) as V. rewrite is_nan_spec in Hn. unfold frank in *.
  assert (P : 0 < 2 ^ 1024) by (apply pow2_pos; lia).
  assert (P5 : 2 ^ 1025 = 2 * 2 ^ 1024) by reflexivity.
  unfold M0, M1 in *.
  destruct (Prim2SF c) as [s|s| |s m e]; try discriminate; cbn [rank] in *.
  - nia.
  - assert (2 ^ 2100 = 2 ^ 1075 * (2 * 2 ^ 1024)) by reflexivity.
    assert (2 ^ 53 <= 2 ^ 1075) by (apply Z.pow_le_mono_r; lia). change (2 ^ 53) with 9007199254740992 in *.
    destruct s; cbn [cond_Zopp] in *; nia.
  - pose proof (rank_finite_bound _ _ _ V) as Hb.
    apply valid_finite in V as (A & B & C & _).
    destruct s; cbn [cond_Zopp] in *; [nia|].
    exists m, e. split; [reflexivity|].
    assert (He1 : -50 <= e).
    { destruct (Z_le_gt_dec (-50) e); [assumption|exfalso].
      assert (2 ^ (e + 1074) <= 2 ^ 1023) by (apply Z.pow_le_mono_r; lia).
      assert (2 ^ 1024 = 2 * 2 ^ 1023) by reflexivity.
      assert (0 < 2 ^ 1023) by (apply pow2_pos; lia).
      change (2 ^ 53) with 9007199254740992 in *. nia. }
    assert (He2 : e <= -49).
    { destruct (Z_le_gt_dec e (-49)); [assumption|exfalso].
      assert (2 ^ 1026 <= 2 ^ (e + 1074)) by (apply Z.pow_le_mono_r; lia).
      assert (2 ^ 1026 = 4 * 2 ^ 1024) by reflexivity.
      specialize (C ltac:(lia)).
      change (2 ^ 52) with 4503599627370496 in *. nia. }
    split; [lia|].
    replace (e + 1074) with ((e + 50) + 1024) in Hlo, Hhi by lia.
    rewrite Z.pow_add_r in Hlo, Hhi by lia.
    split; nia.
Qed.

Lemma pair_eta (p : Z * Z) : p = (fst p, snd p).
Proof. destruct p; reflexivity. Qed.

Lemma stage1 k :
  0 < k <= 2 ^ 52 ->
  2 ^ 52 <= fst (rnd k (-50)) < 2 ^ 53 /\ -102 <= snd (rnd k (-50)) <= -49 /\
  pval (rnd k (-50)) <= pval (2 ^ 52, -50).
Proof.
  intros Hk.
  pose proof (rnd_range k (-50) ltac:(lia)) as (A & B & C & D).
  pose proof (digits_pos k ltac:(lia)) as Hd1.
  pose proof (digits_mono k (2 ^ 52) ltac:(lia) ltac:(lia)) as Hd2.
  change (digits (2 ^ 52)) with 53 in Hd2.
  assert (Hf : fexp64 (digits k + -50) = digits k - 103) by (unfold fexp64; lia).
  rewrite Hf in D.
  pose proof (rnd_mono_same k (2 ^ 52) (-50) ltac:(lia)) as [Hm Hs].
  change (rnd (2 ^ 52) (-50)) with (2 ^ 52, -50) in Hm, Hs. cbn [snd] in Hs.
  repeat split; lia.
Qed.

Lemma stage2 md ed :
  2 ^ 52 <= md < 2 ^ 53 -> -102 <= ed <= -49 -> pval (md, ed) <= pval (2 ^ 52, -50) ->
  0 <= fst (rnd (md * F50) (ed - 49)) /\
  -1074 <= snd (rnd (md * F50) (ed - 49)) <= -47 /\
  pval (rnd (md * F50) (ed - 49)) <= pval (F50, -47).
Proof.
  intros Hm He Hp.
  assert (HM : 0 < md * F50) by (unfold F50; lia).
  pose proof (rnd_range (md * F50) (ed - 49) HM) as (A & B & C & D).
  apply (pval_le_iff md ed (2 ^ 52) (-50) (-102)) in Hp; try lia.
  pose proof (rnd_mono (md * F50) (ed - 49) (2 ^ 52 * F50) (-99) (-151) HM ltac:(lia) ltac:(lia)) as Hmono.
  replace (ed - 49 - -151) with (ed - -102) in Hmono by lia.
  change (-99 - -151) with (-50 - -102) in Hmono.
  assert (0 < 2 ^ (ed - -102)) by (apply pow2_pos; lia).
  destruct Hmono as [H1 H2].
  { unfold F50. nia. }
  change (rnd (2 ^ 52 * F50) (-99)) with (F50, -47) in H1, H2. cbn [snd] in H2.
  repeat split; lia.
Qed.

Lemma stage2_mono md1 ed1 md2 ed2 :
  0 < md1 -> -102 <= ed1 -> -102 <= ed2 ->
  pval (md1, ed1) <= pval (md2, ed2) ->
  pval (rnd (md1 * F50) (ed1 - 49)) <= pval (rnd (md2 * F50) (ed2 - 49)).
Proof.
  intros H1 He1 He2 Hp.
  apply (pval_le_iff md1 ed1 md2 ed2 (-102)) in Hp; try lia.
  apply (rnd_mono (md1 * F50) (ed1 - 49) (md2 * F50) (ed2 - 49) (-151)); try lia.
  - unfold F50; lia.
  - replace (ed1 - 49 - -151) with (ed1 - -102) by lia.
    replace (ed2 - 49 - -151) with (ed2 - -102) by lia.
    unfold F50. nia.
Qed.

Lemma bar_of_range k : 0 <= k <= 2 ^ 52 -> 0 <= bar_of k <= 50.
Proof.
  intros Hk. unfold bar_of. destruct (Z.eqb_spec k 0); [lia|].
  cbv zeta. pose proof (stage1 k ltac:(lia)) as (A & B & C).
  rewrite (pair_eta (rnd k (-50))) in C.
  pose proof (stage2 _ _ A B C) as (D & E & F).
  assert (P : 0 < 2 ^ 1074) by (apply pow2_pos; lia).
  split.
  - apply Z.div_pos; [|lia]. unfold pval.
    apply Z.mul_nonneg_nonneg; [lia|]. apply Z.lt_le_incl, pow2_pos. lia.
  - apply Z.div_le_upper_bound; [lia|].
    eapply Z.le_trans; [exact F|]. unfold pval, F50. cbn [fst snd].
    change (-47 + 1074) with 1027.
    replace (2 ^ 1074) with (2 ^ 1027 * 2 ^ 47) by reflexivity.
    assert (0 < 2 ^ 1027) by (apply pow2_pos; lia). change (2 ^ 47) with 140737488355328. nia.
Qed.

Lemma bar_of_mono k1 k2 : 0 <= k1 <= k2 -> k2 <= 2 ^ 52 -> bar_of k1 <= bar_of k2.
Proof.
  intros Hk Hk2.
  destruct (Z.eq_dec k1 0) as [->|Hn].
  - change (bar_of 0) with 0. apply bar_of_range. lia.
  - unfold bar_of.
    replace (k1 =? 0) with false by (symmetry; apply Z.eqb_neq; lia).
    replace (k2 =? 0) with false by (symmetry; apply Z.eqb_neq; lia).
    cbv zeta. apply Z.div_le_mono; [apply pow2_pos; lia|].
    pose proof (stage1 k1 ltac:(lia)) as (A1 & B1 & _).
    pose proof (stage1 k2 ltac:(lia)) as (A2 & B2 & _).
    apply stage2_mono; try lia.
    rewrite <- !pair_eta. apply rnd_mono_same. lia.
Qed.

Lemma SFofpair_pos s m e :
  0 < m -> e <= 971 -> SFofpair s (m, e) = S754_finite s (Z.to_pos m) e.
Proof.
  intros Hm He. unfold SFofpair. cbn [fst snd]. destruct m; try lia.
  replace (e <=? 971) with true by (symmetry; apply Z.leb_le; lia). reflexivity.
Qed.

Lemma trunc_pval m e :
  -1074 <= e ->
  (if 0 <=? e then m * 2 ^ e else m / 2 ^ (- e)) = pval (m, e) / 2 ^ 1074.
Proof.
  intros He. unfold pval. cbn [fst snd].
  destruct (Z.leb_spec 0 e).
  - rewrite Z.pow_add_r by lia. rewrite Z.mul_assoc, Z.div_mul; [reflexivity|].
    apply Z.pow_nonzero; lia.
  - replace (2 ^ 1074) with (2 ^ (- e) * 2 ^ (e + 1074)).
    2:{ rewrite <- Z.pow_add_r by lia. f_equal. lia. }
    rewrite Z.div_mul_cancel_r; try (apply Z.pow_nonzero; lia). reflexivity.
Qed.

Lemma int_of_pair (u : float) p :
  Prim2SF u = SFofpair false p -> 0 <= fst p -> -1074 <= snd p <= 971 ->
  Py.int u = inr (pval p / 2 ^ 1074).
Proof.
  intros Hu Hf Hs. unfold Py.int. rewrite Hu. unfold SFofpair.
  destruct p as [m e]. cbn [fst snd] in *.
  destruct m as [|m|m]; try lia.
  - unfold pval. cbn [fst]. rewrite Z.mul_0_l, Z.div_0_l; [reflexivity|]. apply Z.pow_nonzero; lia.
  - replace (e <=? 971) with true by (symmetry; apply Z.leb_le; lia).
    cbn [cond_Zopp]. rewrite trunc_pval by lia. reflexivity.
Qed.

Lemma Prim2SF_50 : Prim2SF (Py.float GRAPH_WIDTH) = S754_finite false 7036874417766400 (-47).
Proof. vm_compute. reflexivity. Qed.

Lemma Prim2SF_4 : Prim2SF (max_y - min_y)%float = S754_finite false 4503599627370496 (-50).
Proof. vm_compute. reflexivity. Qed.

Lemma floor_of_pair (u : float) p :
  Prim2SF u = SFofpair false p -> 0 <= fst p -> -1074 <= snd p <= 971 ->
  floor u = Some (pval p / 2 ^ 1074).
Proof.
  intros Hu Hf Hs. unfold floor. rewrite Hu. unfold SFofpair.
  destruct p as [m e]. cbn [fst snd] in *.
  destruct m as [|m|m]; try lia.
  - unfold pval. cbn [fst]. rewrite Z.mul_0_l, Z.div_0_l; [reflexivity|]. apply Z.pow_nonzero; lia.
  - replace (e <=? 971) with true by (symmetry; apply Z.leb_le; lia).
    cbn [cond_Zopp]. rewrite <- trunc_pval by lia. destruct (0 <=? e); reflexivity.
Qed.

Lemma bar_length_scaled v : bar_length v = Py.int (scaled_value v).
Proof.
  unfold bar_length, normalized_value, Py.truediv, scaled_value.
  replace ((max_y - min_y =? 0)%float) with false by (vm_compute; reflexivity).
  reflexivity.
Qed.

(** The value that is truncated to the bar length, as a rounded pair. *)
Lemma scaled_value_pair v m e :
  Prim2SF (y_value_clamped v) = S754_finite false m e -> -50 <= e <= -49 ->
  M0 <= Zpos m * 2 ^ (e + 50) <= 2 * M1 ->
  exists p, Prim2SF (scaled_value v) = SFofpair false p /\
            0 <= fst p /\ -1074 <= snd p <= 971 /\
            pval p / 2 ^ 1074 = bar_of (Zpos m * 2 ^ (e + 50) - M0).
Proof.
  intros Hc He Hk. unfold scaled_value.
  set (d := (y_value_clamped v - min_y)%float).
  set (t := (d / (max_y - min_y))%float).
  set (u := (t * Py.float GRAPH_WIDTH)%float).
  assert (Hd : Prim2SF d = match Zpos m * 2 ^ (e + 50) - M0 with
                           | Z0 => S754_zero false
                           | Zpos p => SFofpair false (rnd (Zpos p) (-50))
                           | Zneg p => SFofpair true (rnd (Zpos p) (-50))
                           end).
  { unfold d. rewrite sub_spec, Hc, Prim2SF_min_y, SFsub_finite.
    unfold aligned_sum. replace (Z.min e (-50)) with (-50) by lia.
    cbn [negb cond_Zopp]. replace (e - -50) with (e + 50) by lia.
    change (-50 - -50) with 0. rewrite Z.pow_0_r, Z.mul_1_r, Z.add_opp_r. reflexivity. }
  set (k := Zpos m * 2 ^ (e + 50) - M0) in *.
  assert (Hk2 : 0 <= k <= 2 ^ 52) by (unfold k, M0, M1 in *; change (2 ^ 52) with 4503599627370496; lia).
  destruct k as [|pk|pk] eqn:Ek; try lia.
  - (* the clamped value is [min_y] *)
    assert (Ht : Prim2SF t = S754_zero false).
    { unfold t. rewrite div_spec, Hd, Prim2SF_4. reflexivity. }
    assert (Hu : Prim2SF u = S754_zero false).
    { unfold u. rewrite mul_spec, Ht, Prim2SF_50. reflexivity. }
    exists (0, 0). rewrite Hu. cbn [fst snd]. repeat split; try lia; reflexivity.
  - pose proof (stage1 (Zpos pk) ltac:(lia)) as (A & B & C).
    rewrite (pair_eta (rnd (Zpos pk) (-50))) in Hd, C.
    set (md := fst (rnd (Zpos pk) (-50))) in *. set (ed := snd (rnd (Zpos pk) (-50))) in *.
    rewrite SFofpair_pos in Hd by lia.
    pose proof (Prim2SF_valid d) as Vd. rewrite Hd in Vd.
    assert (Ht : Prim2SF t = S754_finite false (Z.to_pos md) (ed - 2)).
    { unfold t. rewrite div_spec, Hd, Prim2SF_4. apply SFdiv_4; [assumption | lia]. }
    pose proof (Prim2SF_valid t) as Vt. rewrite Ht in Vt.
    assert (Hu : Prim2SF u = SFofpair false (rnd (md * F50) (ed - 49))).
    { unfold u. rewrite mul_spec, Ht, Prim2SF_50.
      rewrite SFmul_finite; [|assumption|reflexivity].
      rewrite Z2Pos.id by lia. cbn [xorb]. unfold F50. do 2 f_equal. lia. }
    pose proof (stage2 md ed A B C) as (D1 & D2 & D3).
    exists (rnd (md * F50) (ed - 49)). split; [assumption|].
    split; [lia|]. split; [lia|].
    unfold bar_of. cbv zeta. fold md ed. reflexivity.
Qed.

Lemma clamped_offset v :
  exists m e,
    Prim2SF (y_value_clamped v) = S754_finite false m e /\ -50 <= e <= -49 /\
    M0 <= Zpos m * 2 ^ (e + 50) <= 2 * M1 /\
    clamp_offset v = Zpos m * 2 ^ (e + 50) - M0.
Proof.
  destruct (clamp_range v) as [Hn Hr].
  destruct (clamped_shape _ Hn Hr) as (m & e & Hc & He & Hk).
  exists m, e. repeat split; try assumption; try lia.
  unfold clamp_offset, frank. rewrite Hc. cbn [rank cond_Zopp].
  replace (e + 1074) with ((e + 50) + 1024) by lia. rewrite Z.pow_add_r by lia.
  rewrite Z.mul_assoc, Z.div_mul; [reflexivity|]. apply Z.pow_nonzero; lia.
Qed.

Lemma scaled_value_spec v :
  0 <= clamp_offset v <= 2 ^ 52 /\
  Py.int (scaled_value v) = inr (bar_of (clamp_offset v)) /\
  floor (scaled_value v) = Some (bar_of (clamp_offset v)).
Proof.
  destruct (clamped_offset v) as (m & e & Hc & He & Hk & Ho).
  destruct (scaled_value_pair v m e Hc He Hk) as (p & Hp & P1 & P2 & P3).
  rewrite Ho. split; [|split].
  - unfold M0, M1 in *. change (2 ^ 52) with 4503599627370496. lia.
  - rewrite (int_of_pair _ p Hp P1 P2), P3. reflexivity.
  - rewrite (floor_of_pair _ p Hp P1 P2), P3. reflexivity.
Qed.

Lemma bar_length_spec v :
  0 <= clamp_offset v <= 2 ^ 52 /\ bar_length v = inr (bar_of (clamp_offset v)).
Proof.
  destruct (scaled_value_spec v) as (H1 & H2 & _).
  split; [assumption|]. rewrite bar_length_scaled. assumption.
Qed.

Lemma clamp_offset_mono v1 v2 :
  (v1 <? v2)%float = true -> clamp_offset v1 <= clamp_offset v2.
Proof.
  intros H. unfold clamp_offset. apply Z.sub_le_mono_r.
  apply Z.div_le_mono; [apply pow2_pos; lia|]. apply clamp_mono. assumption.
Qed.

Lemma bar_length_monotone v1 v2 :
  (v1 <? v2)%float = true ->
  exists n1 n2, bar_length v1 = inr n1 /\ bar_length v2 = inr n2 /\ n1 <= n2.
Proof.
  intros H.
  destruct (bar_length_spec v1) as [R1 E1]. destruct (bar_length_spec v2) as [R2 E2].
  exists (bar_of (clamp_offset v1)), (bar_of (clamp_offset v2)).
  split; [assumption|]. split; [assumption|].
  apply bar_of_mono; [|lia]. split; [lia|]. apply clamp_offset_mono. assumption.
Qed.

Lemma Prim2SF_baseline : Prim2SF Y_BASELINE = S754_finite false 5516909543528858 (-49).
Proof. vm_compute. reflexivity. Qed.
Lemma Prim2SF_amplitude : Prim2SF AMPLITUDE = S754_finite false 4503599627370496 (-51).
Proof. vm_compute. reflexivity. Qed.

Lemma in_range_of_pval (y : float) p :
  Prim2SF y = SFofpair false p -> -1074 <= snd p <= 971 ->
  pval (M0, -50) <= pval p <= pval (M1, -49) ->
  (7.8 <=? y)%float = true /\ (y <=? 11.8)%float = true.
Proof.
  intros Hy Hs [Hlo Hhi]. destruct p as [m e]. cbn [fst snd] in *.
  assert (P : 0 < 2 ^ 1024) by (apply pow2_pos; lia).
  assert (Hm : 0 < m).
  { unfold pval in Hlo. cbn [fst snd] in Hlo. change (-50 + 1074) with 1024 in Hlo.
    assert (0 < 2 ^ (e + 1074)) by (apply pow2_pos; lia). unfold M0 in Hlo. nia. }
  rewrite SFofpair_pos in Hy by lia.
  assert (Hn : is_nan y = false) by (rewrite is_nan_spec, Hy; reflexivity).
  assert (Hr : frank y = pval (m, e)).
  { unfold frank. rewrite Hy. cbn [rank cond_Zopp]. rewrite Z2Pos.id by lia. reflexivity. }
  split; apply leb_intro; try assumption; try reflexivity; rewrite Hr.
  - eapply Z.le_trans; [|exact Hlo]. 
    change (frank 7.8) with (8782019273372467 * 2 ^ 1024).
    unfold pval, M0. cbn [fst snd]. change (-50 + 1074) with 1024. lia.
  - exact Hhi.
Qed.

Lemma add_baseline_zero (t : float) b :
  Prim2SF t = S754_zero b ->
  (7.8 <=? Y_BASELINE + t)%float = true /\ (Y_BASELINE + t <=? 11.8)%float = true.
Proof.
  intros Ht.
  assert (Hy : Prim2SF (Y_BASELINE + t)%float = Prim2SF Y_BASELINE).
  { rewrite add_spec, Ht, Prim2SF_baseline. reflexivity. }
  apply Prim2SF_inj in Hy. rewrite Hy. split; reflexivity.
Qed.

Lemma signal_in_range (s : float) :
  (-1 <=? s)%float = true -> (s <=? 1)%float = true ->
  (7.8 <=? Y_BASELINE + AMPLITUDE * s)%float = true /\
  (Y_BASELINE + AMPLITUDE * s <=? 11.8)%float = true.
Proof.
  intros Hlo Hhi.
  apply leb_true in Hlo as (_ & Hn & Hlo). apply leb_true in Hhi as (_ & _ & Hhi).
  change (frank (-1)) with (- (2 ^ 52 * 2 ^ 1022)) in Hlo.
  change (frank 1) with (2 ^ 52 * 2 ^ 1022) in Hhi.
  pose proof (Prim2SF_valid s) as Vs. rewrite is_nan_spec in Hn. unfold frank in *.
  set (t := (AMPLITUDE * s)%float).
  assert (Ht : Prim2SF t = SF64mul (S754_finite false 4503599627370496 (-51)) (Prim2SF s)).
  { unfold t. rewrite mul_spec, Prim2SF_amplitude. reflexivity. }
  assert (P22 : 0 < 2 ^ 1022) by (apply pow2_pos; lia).
  destruct (Prim2SF s) as [b|b| |ss ms es] eqn:Es; try discriminate; cbn [rank] in *.
  - apply (add_baseline_zero t b). rewrite Ht. reflexivity.
  - exfalso. assert (2 ^ 2100 = 2 ^ 1026 * (2 ^ 52 * 2 ^ 1022)) by reflexivity.
    assert (2 <= 2 ^ 1026) by (change 2 with (2 ^ 1) at 1; apply Z.pow_le_mono_r; lia).
    destruct b; cbn [cond_Zopp] in *; nia.
  - assert (Hb : Zpos ms * 2 ^ (es + 1074) <= 2 ^ 52 * 2 ^ 1022)
      by (destruct ss; cbn [cond_Zopp] in *; lia).
    pose proof (valid_finite _ _ _ Vs) as (Ve & _).
    rewrite SFmul_finite in Ht; [|reflexivity|assumption]. cbn [xorb] in Ht.
    replace (4503599627370496 * Z.pos ms) with (Zpos ms * 2 ^ 52) in Ht by (change (2 ^ 52) with 4503599627370496; lia).
    replace (-51 + es) with ((es + 1) - 52) in Ht by lia.
    rewrite rnd_scale in Ht by lia.
    pose proof (rnd_range (Zpos ms) (es + 1) ltac:(lia)) as (R1 & R2 & _).
    pose proof (rnd_mono (Zpos ms) (es + 1) (2 ^ 52) (-51) (-1074) ltac:(lia) ltac:(lia) ltac:(lia)) as [Hp Hsn].
    { replace (es + 1 - -1074) with ((es + 1074) + 1) by lia. rewrite Z.pow_add_r by lia.
      change (2 ^ (-51 - -1074)) with (2 ^ 1022 * 2). change (2 ^ 1) with 2. lia. }
    change (rnd (2 ^ 52) (-51)) with (2 ^ 52, -51) in Hp, Hsn. cbn [snd] in Hsn.
    rewrite (pair_eta (rnd (Zpos ms) (es + 1))) in Ht, Hp.
    set (mt := fst (rnd (Zpos ms) (es + 1))) in *. set (et := snd (rnd (Zpos ms) (es + 1))) in *.
    destruct (Z.eq_dec mt 0) as [Hz|Hz].
    + apply (add_baseline_zero t ss). rewrite Ht, Hz. reflexivity.
    + rewrite SFofpair_pos in Ht by lia.
      apply (pval_le_iff mt et (2 ^ 52) (-51) et) in Hp; try lia.
      rewrite Z.sub_diag, Z.pow_0_r, Z.mul_1_r in Hp.
      set (Q := 2 ^ (-51 - et)) in *.
      assert (HQ : 0 < Q) by (apply pow2_pos; lia).
      assert (HQ4 : 2 ^ (-49 - et) = 4 * Q).
      { unfold Q. replace (-49 - et) with (2 + (-51 - et)) by lia. rewrite Z.pow_add_r by lia. reflexivity. }
      assert (HQ2 : 2 ^ (-50 - et) = 2 * Q).
      { unfold Q. replace (-50 - et) with (1 + (-51 - et)) by lia. rewrite Z.pow_add_r by lia. reflexivity. }
      set (S := aligned_sum false 5516909543528858 (-49) ss (Z.to_pos mt) et).
      assert (HS : 2 * M0 * Q <= S <= 4 * M1 * Q).
      { unfold S, aligned_sum. replace (Z.min (-49) et) with et by lia.
        rewrite Z.sub_diag, Z.pow_0_r, Z.mul_1_r, HQ4, Z2Pos.id by lia.
        change (2 ^ 52) with 4503599627370496 in Hp. unfold M0, M1.
        destruct ss; cbn [cond_Zopp]; lia. }
      assert (HSpos : 0 < S) by (unfold M0 in HS; nia).
      assert (Hy : Prim2SF (Y_BASELINE + t)%float = SFofpair false (rnd S et)).
      { rewrite add_spec, Ht, Prim2SF_baseline, SFadd_finite. fold S.
        replace (Z.min (-49) et) with et by lia. destruct S; try lia. reflexivity. }
      pose proof (rnd_range S et HSpos) as (Y1 & Y2 & _).
      pose proof (rnd_mono M0 (-50) S et et ltac:(unfold M0; lia) ltac:(lia) ltac:(lia)) as [L1 _].
      { rewrite HQ2, Z.sub_diag, Z.pow_0_r. lia. }
      pose proof (rnd_mono S et M1 (-49) et HSpos ltac:(lia) ltac:(lia)) as [U1 U2].
      { rewrite HQ4, Z.sub_diag, Z.pow_0_r. lia. }
      change (rnd M0 (-50)) with (M0, -50) in L1.
      change (rnd M1 (-49)) with (M1, -49) in U1, U2. cbn [snd] in U2.
      apply (in_range_of_pval _ _ Hy); [lia | split; assumption].
Qed.

(** ** The clamp, in the words of its description *)

Lemma frank_inj_pos x y :
  is_nan x = false -> is_nan y = false -> frank x = frank y -> 0 < frank x -> x = y.
Proof.
  intros Nx Ny Hr Hp. apply Prim2SF_inj.
  pose proof (Prim2SF_valid x) as Vx. pose proof (Prim2SF_valid y) as Vy.
  rewrite is_nan_spec in Nx, Ny.
  pose proof (SFcompare_rank _ _ Vx Vy Nx Ny) as Hc. unfold frank in *.
  rewrite Hr, Z.compare_refl in Hc.
  assert (P : 0 < 2 ^ 2100) by (apply pow2_pos; lia).
  destruct (Prim2SF x) as [sx|sx| |sx mx ex]; try discriminate;
  destruct (Prim2SF y) as [sy|sy| |sy my ey]; try discriminate;
  try pose proof (rank_finite_bound _ _ _ Vx) as Bx;
  try pose proof (rank_finite_bound _ _ _ Vy) as By;
  cbn [rank SFcompare] in *; try lia.
  - destruct sx, sy; cbn [cond_Zopp] in *; try lia. reflexivity.
  - destruct sx, sy; cbn [cond_Zopp] in *; lia.
  - destruct sx, sy; cbn [cond_Zopp] in *; lia.
  - destruct sx, sy; cbn [cond_Zopp] in *; try lia.
    destruct (Z.compare_spec ex ey) as [He|He|He]; try discriminate.
    inversion Hc as [Hm]. apply Pos.compare_eq in Hm. subst. reflexivity.
Qed.

Lemma frank_min_y_pos : 0 < frank min_y.
Proof.
  rewrite frank_min_y. unfold M0. assert (0 < 2 ^ 1024) by (apply pow2_pos; lia). lia.
Qed.

Lemma clamp_in_range v :
  (min_y <=? y_value_clamped v)%float = true /\ (y_value_clamped v <=? max_y)%float = true.
Proof.
  destruct (clamp_range v) as [Hn [H1 H2]].
  split; apply leb_intro; try assumption; reflexivity.
Qed.

Lemma clamp_below v : (v <? min_y)%float = true -> y_value_clamped v = min_y.
Proof.
  intros H. apply ltb_true in H as (Hn & _ & Hr). pose proof frank_min_max.
  destruct (clamp_cases v) as [(E & _ & Hc)|[(E & _ & Hc)|(E & _)]]; try lia. exact E.
Qed.

Lemma clamp_above v : (max_y <? v)%float = true -> y_value_clamped v = max_y.
Proof.
  intros H. apply ltb_true in H as (_ & Hn & Hr). pose proof frank_min_max.
  destruct (clamp_cases v) as [(E & _ & Hc)|[(E & _ & Hc)|(E & [Hc|Hc])]]; try lia; try congruence.
Qed.

Lemma clamp_inside v :
  (min_y <=? v)%float = true -> (v <=? max_y)%float = true -> y_value_clamped v = v.
Proof.
  intros H1 H2. apply leb_true in H1 as (_ & Hn & Hr1). apply leb_true in H2 as (_ & _ & Hr2).
  destruct (clamp_cases v) as [(E & _ & Hc)|[(E & _ & Hc)|(E & [Hc|Hc])]]; try lia; try congruence.
  rewrite E. apply frank_inj_pos; try assumption; try reflexivity; try lia.
Qed.

Lemma clamp_idempotent v : y_value_clamped (y_value_clamped v) = y_value_clamped v.
Proof. destruct (clamp_in_range v). apply clamp_inside; assumption. Qed.

Lemma bar_length_of_clamped v : bar_length v = bar_length (y_value_clamped v).
Proof.
  rewrite !bar_length_scaled. unfold scaled_value. rewrite clamp_idempotent. reflexivity.
Qed.

(** ** Formatting with two decimals *)

Lemma is_digit_digit d : 0 <= d <= 9 -> Py.digit d = String (ascii_of_nat (48 + Z.to_nat d)) "" /\
  is_digit (ascii_of_nat (48 + Z.to_nat d)) = true.
Proof.
  intros H. split; [reflexivity|].
  assert (C : d = 0 \/ d = 1 \/ d = 2 \/ d = 3 \/ d = 4 \/ d = 5 \/ d = 6 \/ d = 7 \/ d = 8 \/ d = 9) by lia.
  repeat (destruct C as [->|C]; [reflexivity|]). subst. reflexivity.
Qed.

Lemma all_digits_string_of_uint u : all_digits (NilEmpty.string_of_uint u) = true.
Proof. induction u; simpl; auto. Qed.

Lemma string_of_uint_nonempty u : u <> Decimal.Nil -> NilEmpty.string_of_uint u <> "".
Proof. destruct u; simpl; congruence. Qed.

Lemma str_of_nat_digits n : all_digits (Py.str_of_nat n) = true /\ Py.str_of_nat n <> "".
Proof.
  unfold Py.str_of_nat. split; [apply all_digits_string_of_uint|].
  apply string_of_uint_nonempty. destruct (Z.to_N n); simpl.
  - discriminate.
  - apply DecimalPos.Unsigned.to_uint_nonnil.
Qed.

Lemma is_digit_not_point c : is_digit c = true -> Ascii.eqb c "."%char = false.
Proof.
  intros H. destruct (Ascii.eqb_spec c "."%char) as [->|]; [discriminate H | reflexivity].
Qed.

Lemma is_digit_not_minus c : is_digit c = true -> Ascii.eqb c "-"%char = false.
Proof.
  intros H. destruct (Ascii.eqb_spec c "-"%char) as [->|]; [discriminate H | reflexivity].
Qed.

Lemma digits_point_2_app ip d1 d2 :
  all_digits ip = true -> is_digit d1 = true -> is_digit d2 = true ->
  digits_point_2 (ip ++ "." ++ String d1 (String d2 "")) = true.
Proof.
  intros Hip H1 H2. induction ip as [|c ip IH].
  - simpl. rewrite H1, H2. reflexivity.
  - simpl in Hip. apply andb_true_iff in Hip as [Hc Hip].
    change ((String c ip ++ "." ++ String d1 (String d2 ""))) with
      (String c (ip ++ "." ++ String d1 (String d2 ""))).
    cbn [digits_point_2]. rewrite (is_digit_not_point c Hc), Hc, (IH Hip). reflexivity.
Qed.

Lemma unsigned_two_decimals_app ip d1 d2 :
  all_digits ip = true -> ip <> "" -> is_digit d1 = true -> is_digit d2 = true ->
  unsigned_two_decimals (ip ++ "." ++ String d1 (String d2 "")) = true.
Proof.
  intros Hip Hne H1 H2. pose proof (digits_point_2_app ip d1 d2 Hip H1 H2) as Hd.
  destruct ip as [|c ip]; [congruence|].
  change ((String c ip ++ "." ++ String d1 (String d2 ""))) with
    (String c (ip ++ "." ++ String d1 (String d2 ""))) in *.
  unfold unsigned_two_decimals. rewrite Hd.
  simpl in Hip. apply andb_true_iff in Hip as [Hc _]. rewrite Hc. reflexivity.
Qed.

Lemma fixed2_two_decimals s h : 0 <= h -> two_decimals (Py.fixed2 s h) = true.
Proof.
  intros Hh. unfold Py.fixed2.
  destruct (str_of_nat_digits (h / 100)) as [Hd Hn].
  assert (H1 : 0 <= h / 10 mod 10 <= 9) by (pose proof (Z.mod_pos_bound (h / 10) 10); lia).
  assert (H2 : 0 <= h mod 10 <= 9) by (pose proof (Z.mod_pos_bound h 10); lia).
  destruct (is_digit_digit _ H1) as [E1 D1]. destruct (is_digit_digit _ H2) as [E2 D2].
  rewrite E1, E2.
  pose proof (unsigned_two_decimals_app _ _ _ Hd Hn D1 D2) as Hu.
  change ("." ++ String (ascii_of_nat (48 + Z.to_nat (h / 10 mod 10))) "" ++
            String (ascii_of_nat (48 + Z.to_nat (h mod 10))) "")
    with ("." ++ String (ascii_of_nat (48 + Z.to_nat (h / 10 mod 10)))
            (String (ascii_of_nat (48 + Z.to_nat (h mod 10))) "")).
  destruct s.
  - change ("-" ++ ?x) with (String "-"%char x). cbn [two_decimals]. exact Hu.
  - change ("" ++ ?x) with x. 
    destruct (Py.str_of_nat (h / 100)) as [|c ip] eqn:E; [congruence|].
    change ((String c ip ++ ?x)) with (String c (ip ++ x)) in *.
    unfold two_decimals. 
    assert (Hc : is_digit c = true) by (simpl in Hd; apply andb_true_iff in Hd; tauto).
    rewrite (is_digit_not_minus c Hc). exact Hu.
Qed.

Lemma round_half_even_nonneg num den : 0 <= num -> 0 < den -> 0 <= Py.round_half_even num den.
Proof.
  intros Hn Hd. unfold Py.round_half_even.
  assert (0 <= num / den) by (apply Z.div_pos; lia).
  destruct (_ <? _); [lia|]. destruct (_ =? _); [destruct (Z.even _)|]; lia.
Qed.

Lemma hundredths_nonneg m e : 0 <= m -> 0 <= Py.hundredths m e.
Proof.
  intros Hm. unfold Py.hundredths. destruct (Z.leb_spec 0 e).
  - assert (0 < 2 ^ e) by (apply pow2_pos; lia). nia.
  - apply round_half_even_nonneg; [lia | apply pow2_pos; lia].
Qed.

Lemma pad_left_0 s : pad_left 0 s = s.
Proof. reflexivity. Qed.

Lemma is_finite_shape v :
  is_finite v = true ->
  (exists s, Prim2SF v = S754_zero s) \/ (exists s m e, Prim2SF v = S754_finite s m e).
Proof.
  unfold is_finite. intros H. apply negb_true_iff, orb_false_iff in H as [Hn Hi].
  rewrite is_nan_spec in Hn. unfold is_infinity in Hi. rewrite eqb_spec, abs_spec in Hi.
  destruct (Prim2SF v) as [s|s| |s m e]; try discriminate.
  - left. eauto.
  - right. eauto.
Qed.

Lemma format_2f_two_decimals v :
  is_finite v = true -> two_decimals (Py.format_2f 0 v) = true.
Proof.
  intros H. unfold Py.format_2f. rewrite pad_left_0.
  destruct (is_finite_shape v H) as [[s E]|(s & m & e & E)]; rewrite E.
  - apply fixed2_two_decimals. lia.
  - apply fixed2_two_decimals, hundredths_nonneg. lia.
Qed.

Lemma format_2f_padded w v : Py.format_2f w v = pad_left w (Py.format_2f 0 v).
Proof. unfold Py.format_2f. rewrite pad_left_0. reflexivity. Qed.

Lemma str_repeat_length n : String.length (str_repeat " " n) = n.
Proof. induction n; simpl; auto. Qed.

Lemma string_length_app a b : String.length (a ++ b) = (String.length a + String.length b)%nat.
Proof. induction a; simpl; auto. Qed.

Lemma pad_left_length w s : (w <= String.length (pad_left w s))%nat.
Proof. unfold pad_left. rewrite string_length_app, str_repeat_length. lia. Qed.

(** ** Running the calls *)

Lemma answer_push w c o k c' : answer (push w c o) k c' = answer w (S k) c'.
Proof.
  unfold answer, push. cbn [oracle history]. rewrite length_app. cbn [List.length].
  f_equal. lia.
Qed.

Lemma perform_run c w :
  perform c w =
  (match answer w 0 c with Returns d => Ret d | Raises e => Exc e end, push w c (answer w 0 c)).
Proof.
  unfold perform, answer, push. rewrite Nat.add_0_r.
  destruct (oracle w (List.length (history w)) c); reflexivity.
Qed.

Lemma bind_run {A B} (c : M A) (k : A -> M B) w :
  bind c k w =
  match c w with
  | (Ret a, w') => k a w'
  | (Exc e, w') => (Exc e, w')
  | (Running, w') => (Running, w')
  end.
Proof. reflexivity. Qed.

Lemma unit_call_run c w :
  (perform c ;; ret tt) w =
  (match answer w 0 c with Returns _ => Ret tt | Raises e => Exc e end, push w c (answer w 0 c)).
Proof.
  rewrite bind_run, perform_run. destruct (answer w 0 c); reflexivity.
Qed.

Lemma print_run t w :
  print t w =
  (match answer w 0 (Print t) with Returns _ => Ret tt | Raises e => Exc e end,
   push w (Print t) (answer w 0 (Print t))).
Proof. apply unit_call_run. Qed.

Lemma sleep_run t w :
  time_sleep t w =
  (match answer w 0 (Sleep t) with Returns _ => Ret tt | Raises e => Exc e end,
   push w (Sleep t) (answer w 0 (Sleep t))).
Proof. apply unit_call_run. Qed.

Lemma write_run em b w :
  write em b w =
  (match answer w 0 (Write em b) with Returns _ => Ret tt | Raises e => Exc e end,
   push w (Write em b) (answer w 0 (Write em b))).
Proof. apply unit_call_run. Qed.

Lemma close_run em w :
  close em w =
  (match answer w 0 (Close em) with Returns _ => Ret tt | Raises e => Exc e end,
   push w (Close em) (answer w 0 (Close em))).
Proof. apply unit_call_run. Qed.

Lemma read_until_run em x t w :
  read_until em x t w =
  (match answer w 0 (ReadUntil em x t) with Returns d => Ret d | Raises e => Exc e end,
   push w (ReadUntil em x t) (answer w 0 (ReadUntil em x t))).
Proof. apply perform_run. Qed.

Lemma Telnet_run h p t w :
  telnetlib_Telnet h p t w =
  (match answer w 0 (Connect h p t) with
   | Returns _ => Ret {| host := h; port := p |}
   | Raises e => Exc e
   end,
   push w (Connect h p t) (answer w 0 (Connect h p t))).
Proof.
  unfold telnetlib_Telnet. rewrite bind_run, perform_run. destruct (answer w 0 _); reflexivity.
Qed.

Lemma ret_run {A} (a : A) w : ret a w = (Ret a, w).
Proof. reflexivity. Qed.

Lemma try_except_run {A} (body : M A) P h w :
  try_except body P h w =
  match body w with
  | (Exc e, w') => if P e then h e w' else (Exc e, w')
  | r => r
  end.
Proof. reflexivity. Qed.

Lemma try_finally_run {A} (body : M A) final w :
  try_finally body final w =
  match body w with
  | (Running, w') => (Running, w')
  | (r, w') =>
      match final w' with
      | (Ret _, w'') => (r, w'')
      | (Exc e, w'') => (Exc e, w'')
      | (Running, w'') => (Running, w'')
      end
  end.
Proof. reflexivity. Qed.

Lemma history_push w c o : history (push w c o) = (history w ++ [(c, o)])%list.
Proof. reflexivity. Qed.

Lemma oracle_push w c o : oracle (push w c o) = oracle w.
Proof. reflexivity. Qed.

(** One step of symbolic execution, and the case analysis on the oracle's
    next answer. *)
Ltac exec :=
  repeat first
    [ rewrite bind_run | rewrite try_except_run | rewrite try_finally_run
    | rewrite print_run | rewrite write_run | rewrite close_run | rewrite sleep_run
    | rewrite read_until_run | rewrite Telnet_run | rewrite ret_run
    | rewrite answer_push ].

Ltac next_answer :=
  match goal with
  | |- context [match answer ?w ?k ?c with _ => _ end] =>
      let o := fresh "o" in
      let d := fresh "d" in
      let e := fresh "e" in
      destruct (answer w k c) as [d|e] eqn:o
  end.

Ltac flat_history :=
  cbn [fst snd]; rewrite ?history_push, ?oracle_push, <- ?app_assoc; cbn [app].

(** ** [connect_to_emulator], path by path *)

Lemma truthy_some tok : tok <> "" -> truthy (Some tok) = true.
Proof. destruct tok; [congruence | reflexivity]. Qed.

Lemma missing_token_run h p tok w d0 greeting d2 :
  truthy tok = false ->
  answer w 0 (Connect h p 10) = Returns d0 ->
  answer w 1 (ReadUntil {| host := h; port := p |} "OK" 10) = Returns greeting ->
  answer w 2 (Print "Authentication token is missing...") = Returns d2 ->
  connect_to_emulator h p tok w =
  (Ret None,
   {| oracle := oracle w;
      history := history w ++
        [(Connect h p 10, Returns d0);
         (ReadUntil {| host := h; port := p |} "OK" 10, Returns greeting);
         (Print "Authentication token is missing...", Returns d2)] |}).
Proof.
  intros Ht H0 H1 H2. unfold connect_to_emulator. rewrite Ht. cbn [negb].
  exec. rewrite H0. exec. rewrite H1. exec. rewrite H2. exec.
  unfold push. cbn [oracle history]. rewrite <- !app_assoc. reflexivity.
Qed.

Lemma auth_exchange_run h p tok w d0 greeting d2 reply d4 :
  tok <> "" ->
  answer w 0 (Connect h p 10) = Returns d0 ->
  answer w 1 (ReadUntil {| host := h; port := p |} "OK" 10) = Returns greeting ->
  answer w 2 (Write {| host := h; port := p |} ("auth " ++ tok ++ nl)) = Returns d2 ->
  answer w 3 (ReadUntil {| host := h; port := p |} "OK" 10) = Returns reply ->
  (forall text, answer w 4 (Print text) = Returns d4) ->
  connect_to_emulator h p (Some tok) w =
  (Ret (if contains "KO" reply then None else Some {| host := h; port := p |}),
   {| oracle := oracle w;
      history := history w ++
        [(Connect h p 10, Returns d0);
         (ReadUntil {| host := h; port := p |} "OK" 10, Returns greeting);
         (Write {| host := h; port := p |} ("auth " ++ tok ++ nl), Returns d2);
         (ReadUntil {| host := h; port := p |} "OK" 10, Returns reply);
         (Print (if contains "KO" reply then "Authentication failed."
                 else "Connected and authenticated with emulator on port "
                        ++ str_of_int p ++ "."), Returns d4)] |}).
Proof.
  intros Htok H0 H1 H2 H3 H4. unfold connect_to_emulator.
  rewrite (truthy_some tok Htok). cbn [negb str_of_token].
  exec. rewrite H0. exec. rewrite H1. exec. rewrite H2. exec. rewrite H3.
  destruct (contains "KO" reply); exec; rewrite H4; exec;
  unfold push; cbn [oracle history]; rewrite <- !app_assoc; reflexivity.
Qed.

(** Whatever the peer and the user do, [connect_to_emulator] never closes the
    session, and it hands out a session only after an accepted exchange. *)
Lemma connect_never_closes h p tok w :
  exists evs,
    history (snd (connect_to_emulator h p tok w)) = (history w ++ evs)%list /\
    closes evs = 0%nat /\
    (forall em, fst (connect_to_emulator h p tok w) = Ret (Some em) ->
       truthy tok = true /\
       exists d0 greeting d2 reply d4,
         evs = [(Connect h p 10, Returns d0);
                (ReadUntil em "OK" 10, Returns greeting);
                (Write em ("auth " ++ str_of_token tok ++ nl), Returns d2);
                (ReadUntil em "OK" 10, Returns reply);
                (Print ("Connected and authenticated with emulator on port "
                          ++ str_of_int p ++ "."), Returns d4)] /\
         contains "KO" reply = false).
Proof.
  unfold connect_to_emulator.
  destruct (truthy tok) eqn:Ht; cbn [negb].
  - exec. next_answer; exec; [|destruct (is_Exception e); exec; [next_answer|]; exec; flat_history;
      eexists; (split; [reflexivity|]); (split; [reflexivity|]); intros; discriminate].
    next_answer; exec; [|destruct (is_Exception e); exec; [next_answer|]; exec; flat_history;
      eexists; (split; [reflexivity|]); (split; [reflexivity|]); intros; discriminate].
    next_answer; exec; [|destruct (is_Exception e); exec; [next_answer|]; exec; flat_history;
      eexists; (split; [reflexivity|]); (split; [reflexivity|]); intros; discriminate].
    next_answer; exec; [|destruct (is_Exception e); exec; [next_answer|]; exec; flat_history;
      eexists; (split; [reflexivity|]); (split; [reflexivity|]); intros; discriminate].
    destruct (contains "KO" d2) eqn:HKO; exec.
    + next_answer; exec; [|destruct (is_Exception e); exec; [next_answer|]; exec]; flat_history;
      eexists; (split; [reflexivity|]); (split; [reflexivity|]); intros; discriminate.
    + next_answer; exec; [|destruct (is_Exception e); exec; [next_answer|]; exec; flat_history;
      eexists; (split; [reflexivity|]); (split; [reflexivity|]); intros; discriminate].
      flat_history. eexists. split; [reflexivity|]. split; [reflexivity|].
      intros em Hem. inversion Hem; subst em. split; [reflexivity|].
      do 5 eexists. split; [reflexivity | assumption].
  - exec. next_answer; exec; [|destruct (is_Exception e); exec; [next_answer|]; exec; flat_history;
      eexists; (split; [reflexivity|]); (split; [reflexivity|]); intros; discriminate].
    next_answer; exec; [|destruct (is_Exception e); exec; [next_answer|]; exec; flat_history;
      eexists; (split; [reflexivity|]); (split; [reflexivity|]); intros; discriminate].
    next_answer; exec; [|destruct (is_Exception e); exec; [next_answer|]; exec]; flat_history;
      eexists; (split; [reflexivity|]); (split; [reflexivity|]); intros; discriminate.
Qed.

(** ** Orderly computations *)

Lemma closes_app a b : closes (a ++ b) = (closes a + closes b)%nat.
Proof. unfold closes. rewrite filter_app, length_app. reflexivity. Qed.

Lemma sleeps_app a b : sleeps (a ++ b) = (sleeps a + sleeps b)%nat.
Proof. unfold sleeps. rewrite filter_app, length_app. reflexivity. Qed.

Lemma fatal_count_app a b : fatal_count (a ++ b) = (fatal_count a + fatal_count b)%nat.
Proof. unfold fatal_count. rewrite filter_app, length_app. reflexivity. Qed.

Lemma orderly_ret {A} (a : A) : orderly (ret a).
Proof.
  intros w. split; [reflexivity|]. exists []. cbn. rewrite app_nil_r.
  repeat split. intros e H. discriminate.
Qed.

Lemma orderly_bind {A B} (c : M A) (k : A -> M B) :
  orderly c -> (forall a, orderly (k a)) -> orderly (bind c k).
Proof.
  intros Hc Hk w. rewrite bind_run.
  destruct (Hc w) as (Ho & evs1 & Hh & Hcl & Hf).
  destruct (c w) as [[a|e|] w1]; cbn [fst snd] in *.
  - destruct (Hk a w1) as (Ho2 & evs2 & Hh2 & Hcl2 & Hf2).
    split; [congruence|]. exists (evs1 ++ evs2)%list.
    rewrite Hh2, Hh, app_assoc, closes_app, fatal_count_app, Hcl, Hcl2.
    repeat split. intros e He. specialize (Hf2 e He). lia.
  - split; [assumption|]. exists evs1. repeat split; try assumption.
    intros e' He'. apply (Hf e). reflexivity.
  - split; [assumption|]. exists evs1. repeat split; try assumption.
    intros e' He'. discriminate.
Qed.

Lemma orderly_unit_call c :
  is_session_action c = false -> is_transmission c = false -> orderly (perform c ;; ret tt).
Proof.
  intros Hs Ht w. rewrite unit_call_run. cbn [fst snd].
  split; [reflexivity|]. exists [(c, answer w 0 c)]. split; [reflexivity|]. split.
  - unfold closes, is_close. cbn. destruct c; try discriminate; reflexivity.
  - intros e He. destruct (answer w 0 c) as [d|e']; [discriminate|].
    unfold fatal_count. cbn. rewrite Ht, andb_false_r. cbn. lia.
Qed.

Lemma orderly_print t : orderly (print t).
Proof. apply orderly_unit_call; reflexivity. Qed.

Lemma orderly_sleep t : orderly (time_sleep t).
Proof. apply orderly_unit_call; reflexivity. Qed.

Ltac orderly_leaf :=
  flat_history; split; [reflexivity|]; eexists; split; [reflexivity|]; split; [reflexivity|];
  intros ? ?; try discriminate; unfold fatal_count; cbn; rewrite ?andb_false_r; cbn; lia.

Lemma orderly_set_sensor_data em sensor x y z : orderly (set_sensor_data em sensor x y z).
Proof.
  intros w. unfold set_sensor_data. cbv zeta. exec.
  next_answer; exec.
  - next_answer; exec.
    + orderly_leaf.
    + destruct e as [| |msg]; cbn [is_Exception]; exec; [orderly_leaf | orderly_leaf |].
      next_answer; exec; orderly_leaf.
  - destruct e as [| |msg]; cbn [is_Exception]; exec; [orderly_leaf | orderly_leaf |].
    next_answer; exec; orderly_leaf.
Qed.

(** The plotter never fails: every float has a bar length. *)
Lemma plot_line_total v :
  plot_line v = inr (Py.format_2f 5 v ++ " | "
                       ++ str_repeat "#" (Z.to_nat (bar_of (clamp_offset v)))).
Proof.
  unfold plot_line. destruct (bar_length_spec v) as [_ ->]. reflexivity.
Qed.

Lemma plot_data_point_print v :
  plot_data_point v =
  print (Py.format_2f 5 v ++ " | " ++ str_repeat "#" (Z.to_nat (bar_of (clamp_offset v)))).
Proof. unfold plot_data_point. rewrite plot_line_total. reflexivity. Qed.

Lemma orderly_plot_data_point v : orderly (plot_data_point v).
Proof. rewrite plot_data_point_print. apply orderly_print. Qed.

Lemma orderly_tick sin em st : orderly (tick sin em st).
Proof.
  unfold tick, generate_walking_acceleration, detect_edge. cbv zeta.
  apply orderly_bind; [apply orderly_set_sensor_data|]. intros _.
  apply orderly_bind; [apply orderly_plot_data_point|]. intros _.
  apply orderly_bind.
  - destruct (_ && _); [apply orderly_print | apply orderly_ret].
  - intros _. apply orderly_bind; [apply orderly_sleep|]. intros _. apply orderly_ret.
Qed.

Lemma orderly_while_True fuel sin em st : orderly (while_True fuel (tick sin em) st).
Proof.
  revert st. induction fuel as [|fuel IH]; intros st.
  - intros w. cbn. split; [reflexivity|]. exists []. rewrite app_nil_r.
    repeat split. intros e H. discriminate.
  - cbn [while_True]. apply orderly_bind; [apply orderly_tick | intros st'; apply IH].
Qed.

Lemma while_True_never_returns fuel body st w u :
  fst (while_True fuel body st w) <> Ret u.
Proof.
  revert st w. induction fuel as [|fuel IH]; intros st w.
  - cbn. discriminate.
  - cbn [while_True]. rewrite bind_run. destruct (body st w) as [[st'|e|] w1].
    + apply IH.
    + cbn. discriminate.
    + cbn. discriminate.
Qed.

(** ** The [finally] block *)

Ltac cleanup_leaf :=
  flat_history; eexists; split; [reflexivity|]; intros Hf;
  first [ exfalso; revert Hf; unfold fatal_count; cbn; rewrite ?andb_false_r; cbn; discriminate
        | do 2 eexists; split; [reflexivity|]; split; reflexivity ].

Lemma cleanup_run em w :
  exists evs,
    history (snd (cleanup em w)) = (history w ++ evs)%list /\
    (fatal_count evs = 0%nat ->
     exists d rest,
       evs = (Print "Resetting sensor data.", Returns d) :: rest /\
       session_actions rest = [Write em reset_command; Close em] /\
       closes rest = 1%nat).
Proof.
  unfold cleanup, set_sensor_data. cbv zeta. exec.
  next_answer; exec; [|cleanup_leaf].
  next_answer; exec.
  - next_answer; exec.
    + next_answer; exec; [|cleanup_leaf].
      next_answer; exec; cleanup_leaf.
    + destruct e as [| |msg]; cbn [is_Exception]; exec; [cleanup_leaf | cleanup_leaf |].
      next_answer; exec; [|cleanup_leaf].
      next_answer; exec; [|cleanup_leaf].
      next_answer; exec; cleanup_leaf.
  - destruct e as [| |msg]; cbn [is_Exception]; exec; [cleanup_leaf | cleanup_leaf |].
    next_answer; exec; [|cleanup_leaf].
    next_answer; exec; [|cleanup_leaf].
    next_answer; exec; cleanup_leaf.
Qed.

Lemma try_finally_history {A} (body : M A) final w :
  fst (try_finally body final w) <> Running ->
  history (snd (try_finally body final w)) = history (snd (final (snd (body w)))) /\
  fst (body w) <> Running.
Proof.
  rewrite try_finally_run. destruct (body w) as [[a|e|] w1]; cbn [fst snd].
  - destruct (final w1) as [[u|e'|] w2]; cbn [fst snd]; intros H; split; congruence.
  - destruct (final w1) as [[u|e'|] w2]; cbn [fst snd]; intros H; split; congruence.
  - intros H. congruence.
Qed.

(** ** [run_simulation] stopped once *)

(** The [try ... except KeyboardInterrupt] around the loop: it ends only
    through a fatal event, and never closes the session. *)
Lemma guarded_loop_run sin fuel em w :
  exists evb,
    history (snd (try_except (while_True fuel (tick sin em) initial_state)
                    is_KeyboardInterrupt
                    (fun _ => print (nl ++ "Stopping simulation.")) w))
    = (history w ++ evb)%list /\
    closes evb = 0%nat /\
    (fst (try_except (while_True fuel (tick sin em) initial_state)
            is_KeyboardInterrupt
            (fun _ => print (nl ++ "Stopping simulation.")) w) <> Running ->
     (1 <= fatal_count evb)%nat).
Proof.
  rewrite try_except_run.
  destruct (orderly_while_True fuel sin em initial_state w) as (_ & evl & Hh & Hcl & Hf).
  pose proof (while_True_never_returns fuel (tick sin em) initial_state w) as Hnr.
  destruct (while_True fuel (tick sin em) initial_state w) as [[u|e|] w3]; cbn [fst snd] in *.
  - exfalso. apply (Hnr u). reflexivity.
  - specialize (Hf e eq_refl). destruct (is_KeyboardInterrupt e).
    + rewrite print_run. cbn [fst snd]. rewrite history_push, Hh, <- app_assoc.
      eexists. split; [reflexivity|]. split.
      * rewrite closes_app, Hcl. reflexivity.
      * intros _. rewrite fatal_count_app. lia.
    + cbn [fst snd]. exists evl. split; [assumption|]. split; [assumption|]. intros _. assumption.
  - exists evl. split; [assumption|]. split; [assumption|]. intros H. congruence.
Qed.

Lemma run_simulation_shutdown sin fuel em w d1 d2 evs :
  answer w 0 (Print header1) = Returns d1 ->
  answer w 1 (Print header2) = Returns d2 ->
  history (snd (run_simulation sin fuel em w)) = (history w ++ evs)%list ->
  fst (run_simulation sin fuel em w) <> Running ->
  (fatal_count evs <= 1)%nat ->
  exists before d after,
    evs = (before ++ (Print "Resetting sensor data.", Returns d) :: after)%list /\
    closes before = 0%nat /\
    session_actions after = [Write em reset_command; Close em] /\
    closes evs = 1%nat.
Proof.
  intros H1 H2. unfold run_simulation. fold header1 header2.
  rewrite bind_run, print_run, H1. rewrite bind_run, print_run, answer_push, H2.
  set (w2 := push (push w (Print header1) (Returns d1)) (Print header2) (Returns d2)).
  set (B := try_except _ _ _).
  intros Hev Hrun Hfc.
  destruct (try_finally_history B (cleanup em) w2 Hrun) as [Hhist HB].
  destruct (guarded_loop_run sin fuel em w2) as (evb & Hb & Hclb & Hfb). fold B in Hb, Hfb.
  specialize (Hfb HB).
  destruct (cleanup_run em (snd (B w2))) as (evc & Hhc & Hshape).
  rewrite Hhist, Hhc, Hb in Hev. unfold w2 in Hev. rewrite !history_push, <- !app_assoc in Hev.
  apply app_inv_head in Hev. subst evs.
  cbn [app] in Hfc.
  change (fatal_count ((Print header1, Returns d1) :: (Print header2, Returns d2) :: evb ++ evc)%list)
    with (fatal_count (evb ++ evc)%list) in Hfc.
  rewrite fatal_count_app in Hfc.
  destruct (Hshape ltac:(lia)) as (d & rest & Hevc & Hsa & Hc1).
  exists ([(Print header1, Returns d1); (Print header2, Returns d2)] ++ evb)%list, d, rest.
  subst evc. split; [|split; [|split; [assumption|]]].
  - rewrite <- app_assoc. reflexivity.
  - rewrite closes_app, Hclb. reflexivity.
  - cbn [app].
    change (closes ((Print header1, Returns d1) :: (Print header2, Returns d2) :: evb ++ (Print "Resetting sensor data.", Returns d) :: rest)%list)
      with (closes (evb ++ (Print "Resetting sensor data.", Returns d) :: rest)%list).
    rewrite closes_app, Hclb.
    change (closes ((Print "Resetting sensor data.", Returns d) :: rest)) with (closes rest).
    rewrite Hc1. reflexivity.
Qed.

(** ** The loop when only transmissions fail *)

Lemma failures_logged_app a b :
  failures_logged a = true -> failures_logged b = true -> failures_logged (a ++ b) = true.
Proof.
  induction a as [|[c o] a IH]; intros Ha Hb; [exact Hb|].
  destruct o as [d|e].
  - cbn [app failures_logged] in *. auto.
  - cbn [app failures_logged] in *. apply andb_true_iff in Ha as [H1 H2].
    rewrite (IH H2 Hb), andb_true_r.
    destruct a as [|[c' o'] a']; [discriminate|]. exact H1.
Qed.

Lemma calm_answer w k c :
  only_transmission_errors w ->
  match answer w k c with
  | Returns _ => True
  | Raises e => is_transmission c = true /\ exists msg, e = Exception msg
  end.
Proof.
  intros H. specialize (H (List.length (history w) + k)%nat c). unfold answer.
  destruct (oracle w _ c) as [d|e]; [exact I|].
  cbn in H. apply negb_false_iff, andb_true_iff in H as [He Hc].
  split; [assumption|]. destruct e; try discriminate. eauto.
Qed.

Ltac calm_answer H :=
  match goal with
  | |- context [match answer ?w ?k ?c with _ => _ end] =>
      let o := fresh "o" in
      let d := fresh "d" in
      let e := fresh "e" in
      let Hc := fresh "Hc" in
      pose proof (calm_answer w k c H) as Hc;
      destruct (answer w k c) as [d|e] eqn:o;
      [clear Hc | destruct Hc as [Hc [? ->]]; try discriminate Hc; clear Hc]
  end.

Lemma only_transmission_errors_oracle w w' :
  oracle w' = oracle w -> only_transmission_errors w -> only_transmission_errors w'.
Proof. intros Ho H i c. rewrite Ho. apply H. Qed.

Lemma set_sensor_data_calm em x y z w :
  only_transmission_errors w ->
  exists evs,
    set_sensor_data em "acceleration" x y z w
    = (Ret tt, {| oracle := oracle w; history := history w ++ evs |}) /\
    closes evs = 0%nat /\ sleeps evs = 0%nat /\ failures_logged evs = true.
Proof.
  intros H. unfold set_sensor_data. cbv zeta. exec.
  calm_answer H; exec.
  - calm_answer H; exec.
    + eexists. split; [unfold push; cbn [oracle history]; rewrite <- app_assoc; reflexivity|].
      repeat split.
    + cbn [is_Exception]. exec. calm_answer H; exec.
      eexists. split; [unfold push; cbn [oracle history]; rewrite <- !app_assoc; reflexivity|].
      repeat split. cbn [app failures_logged]. unfold error_log. rewrite String.eqb_refl. reflexivity.
  - cbn [is_Exception]. exec. calm_answer H; exec.
    eexists. split; [unfold push; cbn [oracle history]; rewrite <- !app_assoc; reflexivity|].
    repeat split. cbn [app failures_logged]. unfold error_log. rewrite String.eqb_refl. reflexivity.
Qed.

Lemma only_transmission_errors_more w evs :
  only_transmission_errors w ->
  only_transmission_errors {| oracle := oracle w; history := history w ++ evs |}.
Proof. intros H. apply (only_transmission_errors_oracle w); [reflexivity | assumption]. Qed.

Lemma unit_call_calm c w :
  only_transmission_errors w -> is_transmission c = false ->
  exists d, (perform c ;; ret tt) w
            = (Ret tt, {| oracle := oracle w; history := history w ++ [(c, Returns d)] |}).
Proof.
  intros H Hc. rewrite unit_call_run. pose proof (calm_answer w 0 c H) as Ha.
  destruct (answer w 0 c) as [d|e].
  - exists d. reflexivity.
  - destruct Ha as [Ha _]. congruence.
Qed.

Lemma print_calm t w :
  only_transmission_errors w ->
  exists d, print t w
            = (Ret tt, {| oracle := oracle w; history := history w ++ [(Print t, Returns d)] |}).
Proof. intros H. apply unit_call_calm; [assumption | reflexivity]. Qed.

Lemma sleep_calm t w :
  only_transmission_errors w ->
  exists d, time_sleep t w
            = (Ret tt, {| oracle := oracle w; history := history w ++ [(Sleep t, Returns d)] |}).
Proof. intros H. apply unit_call_calm; [assumption | reflexivity]. Qed.

(** Runs the next [print] or [time.sleep] of the goal in a calm world. *)
Ltac calm_call :=
  rewrite bind_run;
  match goal with
  | H : only_transmission_errors ?w |- context [print ?t ?w] =>
      let d := fresh "d" in
      let E := fresh "E" in
      destruct (print_calm t w H) as (d & E); rewrite E; clear E;
      apply (only_transmission_errors_more w [(Print t, Returns d)]) in H
  | H : only_transmission_errors ?w |- context [time_sleep ?t ?w] =>
      let d := fresh "d" in
      let E := fresh "E" in
      destruct (sleep_calm t w H) as (d & E); rewrite E; clear E;
      apply (only_transmission_errors_more w [(Sleep t, Returns d)]) in H
  end.

Lemma tick_calm sin em st w :
  only_transmission_errors w ->
  exists st' evs,
    tick sin em st w = (Ret st', {| oracle := oracle w; history := history w ++ evs |}) /\
    step_counter st' = step_counter st + 1 /\
    closes evs = 0%nat /\ sleeps evs = 1%nat /\ failures_logged evs = true.
Proof.
  intros H. unfold tick, generate_walking_acceleration, detect_edge. cbv zeta.
  rewrite bind_run.
  destruct (set_sensor_data_calm em 0
              (Y_BASELINE + AMPLITUDE * sin (frequency * Py.float (step_counter st)))%float 0 w H)
    as (ev1 & -> & C1 & S1 & L1).
  apply (only_transmission_errors_more w ev1) in H.
  rewrite plot_data_point_print. calm_call.
  destruct (was_rising st && negb (previous_y st <? _)%float).
  - calm_call. calm_call. rewrite ret_run.
    eexists. eexists. split.
    { cbn [oracle history]. rewrite <- !app_assoc. reflexivity. }
    split; [reflexivity|]. rewrite closes_app, sleeps_app, C1, S1.
    split; [reflexivity|]. split; [reflexivity|].
    apply failures_logged_app; [assumption | reflexivity].
  - rewrite bind_run, ret_run. calm_call. rewrite ret_run.
    eexists. eexists. split.
    { cbn [oracle history]. rewrite <- !app_assoc. reflexivity. }
    split; [reflexivity|]. rewrite closes_app, sleeps_app, C1, S1.
    split; [reflexivity|]. split; [reflexivity|].
    apply failures_logged_app; [assumption | reflexivity].
Qed.

Lemma while_True_calm sin em fuel st w :
  only_transmission_errors w ->
  exists evs,
    while_True fuel (tick sin em) st w
    = (Running, {| oracle := oracle w; history := history w ++ evs |}) /\
    closes evs = 0%nat /\ sleeps evs = fuel /\ failures_logged evs = true.
Proof.
  revert st w. induction fuel as [|fuel IH]; intros st w H.
  - exists []. cbn [while_True]. rewrite app_nil_r. destruct w. repeat split.
  - cbn [while_True]. rewrite bind_run.
    destruct (tick_calm sin em st w H) as (st' & ev1 & -> & _ & C1 & S1 & L1).
    apply (only_transmission_errors_more w ev1) in H.
    destruct (IH st' _ H) as (ev2 & -> & C2 & S2 & L2).
    exists (ev1 ++ ev2)%list. split.
    { cbn [oracle history]. rewrite <- app_assoc. reflexivity. }
    rewrite closes_app, sleeps_app, C1, C2, S1, S2. repeat split.
    apply failures_logged_app; assumption.
Qed.

Lemma run_simulation_calm sin fuel em w :
  only_transmission_errors w ->
  exists evs,
    run_simulation sin fuel em w
    = (Running, {| oracle := oracle w; history := history w ++ evs |}) /\
    closes evs = 0%nat /\ sleeps evs = fuel /\ failures_logged evs = true.
Proof.
  intros H. unfold run_simulation. calm_call. calm_call.
  rewrite try_finally_run, try_except_run.
  destruct (while_True_calm sin em fuel initial_state _ H) as (evl & -> & C & S & L).
  eexists. split.
  { cbn [oracle history]. rewrite <- !app_assoc. reflexivity. }
  cbn [app]. split; [exact C|]. split; [exact S|]. exact L.
Qed.

(** ** The lines of a tick *)

Lemma extend_push w c o : push w c o = extend w [(c, o)].
Proof. reflexivity. Qed.

Lemma extend_extend w a b : extend (extend w a) b = extend w (a ++ b).
Proof. unfold extend. cbn [oracle history]. rewrite app_assoc. reflexivity. Qed.

Lemma extend_nil w : extend w [] = w.
Proof. unfold extend. rewrite app_nil_r. destruct w; reflexivity. Qed.

Lemma has_char_app c a b : has_char c (a ++ b) = has_char c a || has_char c b.
Proof.
  induction a as [|c' a IH]; [reflexivity|].
  cbn [append has_char]. rewrite IH, orb_assoc. reflexivity.
Qed.

Lemma plot_line_not_marker v s o :
  is_step_impact (Print (Py.format_2f 5 v ++ " | " ++ s), o) = false.
Proof.
  unfold is_step_impact. destruct (String.eqb_spec (Py.format_2f 5 v ++ " | " ++ s) STEP_IMPACT)
    as [E|E]; [|reflexivity].
  assert (H : has_char "|" (Py.format_2f 5 v ++ " | " ++ s) = true).
  { rewrite has_char_app. cbn [append has_char Ascii.eqb Bool.eqb orb]. apply orb_true_r. }
  rewrite E in H. vm_compute in H. discriminate.
Qed.

Lemma pad_left_head w s c rest :
  s = String c rest -> exists c' rest', pad_left w s = String c' rest' /\ (c' = " "%char \/ c' = c).
Proof.
  intros ->. unfold pad_left. destruct (w - String.length (String c rest))%nat as [|k].
  - cbn [str_repeat append]. eauto.
  - cbn [str_repeat append]. eauto.
Qed.

Lemma fixed2_head s h :
  exists c rest, Py.fixed2 s h = String c rest /\ (c = "-"%char \/ is_digit c = true).
Proof.
  unfold Py.fixed2. destruct s.
  - cbn [append]. eauto.
  - destruct (str_of_nat_digits (h / 100)) as [Hd Hne].
    destruct (Py.str_of_nat (h / 100)) as [|c r]; [congruence|].
    cbn [append]. cbn [all_digits] in Hd. apply andb_true_iff in Hd as [Hc _]. eauto.
Qed.

Lemma format_2f_head w v :
  exists c rest, Py.format_2f w v = String c rest /\ Ascii.eqb "A" c = false.
Proof.
  unfold Py.format_2f.
  assert (H : exists c rest,
             match Prim2SF v with
             | S754_zero s => Py.fixed2 s 0
             | S754_infinity s => if s then "-inf" else "inf"
             | S754_nan => "nan"
             | S754_finite s m e => Py.fixed2 s (Py.hundredths (Z.pos m) e)
             end = String c rest /\ Ascii.eqb "A" c = false).
  { destruct (Prim2SF v) as [s|s| |s m e].
    - destruct (fixed2_head s 0) as (c & rest & -> & [-> | Hc]); [eauto|].
      exists c, rest. split; [reflexivity|].
      destruct (Ascii.eqb_spec "A" c) as [<-|]; [discriminate | reflexivity].
    - destruct s; eauto.
    - eauto.
    - destruct (fixed2_head s (Py.hundredths (Z.pos m) e)) as (c & rest & -> & [-> | Hc]); [eauto|].
      exists c, rest. split; [reflexivity|].
      destruct (Ascii.eqb_spec "A" c) as [<-|]; [discriminate | reflexivity]. }
  destruct H as (c & rest & E & Hc).
  destruct (pad_left_head w _ c rest E) as (c' & rest' & -> & [-> | ->]); eauto.
Qed.

Lemma plot_line_not_error v s o :
  is_error_line (Print (Py.format_2f 5 v ++ s), o) = false.
Proof.
  destruct (format_2f_head 5 v) as (c & rest & -> & Hc).
  unfold is_error_line. cbn [append String.prefix].
  destruct (ascii_dec "A" c) as [<-|]; [discriminate | reflexivity].
Qed.

Lemma set_sensor_data_calm_shape em x y z w :
  only_transmission_errors w ->
  exists tr,
    set_sensor_data em "acceleration" x y z w = (Ret tt, extend w tr) /\
    transmission_shape em "acceleration" (sensor_command "acceleration" x y z) tr.
Proof.
  intros H. unfold set_sensor_data. cbv zeta. exec.
  calm_answer H; exec.
  - calm_answer H; exec.
    + eexists. split; [unfold push, extend; cbn [oracle history]; rewrite <- app_assoc; reflexivity|].
      left. do 2 eexists. reflexivity.
    + cbn [is_Exception]. exec. calm_answer H; exec.
      eexists. split; [unfold push, extend; cbn [oracle history]; rewrite <- !app_assoc; reflexivity|].
      right. left. do 3 eexists. reflexivity.
  - cbn [is_Exception]. exec. calm_answer H; exec.
    eexists. split; [unfold push, extend; cbn [oracle history]; rewrite <- !app_assoc; reflexivity|].
    right. right. do 2 eexists. reflexivity.
Qed.

(** The history of one tick when nothing but a transmission fails. *)
Lemma tick_calm_shape sin em st w :
  only_transmission_errors w ->
  exists tr d mk d',
    tick sin em st w
    = (Ret (snd (detect_edge st (sample sin (step_counter st)))),
       extend w (tr ++ (Print (Py.format_2f 5 (sample sin (step_counter st)) ++ " | "
                                 ++ str_repeat "#"
                                      (Z.to_nat (bar_of (clamp_offset
                                                           (sample sin (step_counter st)))))),
                        Returns d)
                   :: mk ++ [(Sleep 0.1, Returns d')])) /\
    transmission_shape em "acceleration" (step_command sin (step_counter st)) tr /\
    ((fst (detect_edge st (sample sin (step_counter st))) = true /\
      exists dm, mk = [(Print STEP_IMPACT, Returns dm)]) \/
     (fst (detect_edge st (sample sin (step_counter st))) = false /\ mk = [])).
Proof.
  intros H. unfold tick, step_command, sample, generate_walking_acceleration. cbv zeta.
  cbn [fst snd]. rewrite bind_run.
  destruct (set_sensor_data_calm_shape em 0
              (Y_BASELINE + AMPLITUDE * sin (frequency * Py.float (step_counter st)))%float 0 w H)
    as (tr & -> & Htr).
  apply (only_transmission_errors_more w tr) in H. fold (extend w tr) in H |- *.
  rewrite plot_data_point_print. calm_call. unfold detect_edge. cbn [fst snd].
  destruct (was_rising st && negb (previous_y st <? _)%float) eqn:Himpact.
  - calm_call. calm_call. rewrite ret_run.
    exists tr, d, [(Print STEP_IMPACT, Returns d0)], d1. split.
    { unfold extend. cbn [oracle history]. rewrite <- !app_assoc. reflexivity. }
    split; [exact Htr|]. left. split; [reflexivity | eauto].
  - rewrite bind_run, ret_run. calm_call. rewrite ret_run.
    exists tr, d, [], d0. split.
    { unfold extend. cbn [oracle history]. rewrite <- !app_assoc. reflexivity. }
    split; [exact Htr|]. right. split; reflexivity.
Qed.

Lemma marks_transmission em sensor cmd tr seen rest :
  transmission_shape em sensor cmd tr ->
  (forall e, is_step_impact (Print (error_log sensor e), Returns "") = false) ->
  marks seen (tr ++ rest) = marks seen rest /\ step_impacts tr = 0%nat.
Proof.
  intros [(d1 & d2 & ->) | [(d1 & e & d3 & ->) | (e & d2 & ->)]] He.
  - cbn. rewrite !orb_false_r. split; reflexivity.
  - specialize (He e). unfold is_step_impact in He. unfold step_impacts.
    cbn [app marks is_sleep fst is_step_impact filter]. rewrite He, !orb_false_r.
    split; reflexivity.
  - specialize (He e). unfold is_step_impact in He. unfold step_impacts.
    cbn [app marks is_sleep fst is_step_impact filter]. rewrite He, !orb_false_r.
    split; reflexivity.
Qed.

Lemma error_log_not_marker e :
  is_step_impact (Print (error_log "acceleration" e), Returns "") = false.
Proof. reflexivity. Qed.

Lemma logs_transmission em sensor cmd tr rest :
  transmission_shape em sensor cmd tr -> starts_clean rest = true ->
  logs_follow_failures (tr ++ rest) = logs_follow_failures rest /\
  starts_clean (tr ++ rest) = true.
Proof.
  intros [(d1 & d2 & ->) | [(d1 & e & d3 & ->) | (e & d2 & ->)]] Hrest;
    cbn [app logs_follow_failures snd starts_clean is_error_line negb andb];
    (split; [|reflexivity]);
    destruct rest as [|next rest]; cbn [starts_clean] in Hrest;
    rewrite ?Hrest; reflexivity.
Qed.

Lemma samples_succ sin n m :
  samples sin n (S m) = sample sin n :: samples sin (n + 1) m.
Proof.
  unfold samples. cbn [seq map]. rewrite Z.add_0_r. f_equal.
  rewrite <- seq_shift, map_map. apply map_ext. intros i. f_equal. lia.
Qed.

Lemma step_impacts_app a b : step_impacts (a ++ b) = (step_impacts a + step_impacts b)%nat.
Proof. unfold step_impacts. rewrite filter_app, length_app. reflexivity. Qed.

(** The lines of the loop: tick by tick, the marker is printed when the edge
    detector says so, and no error line follows a call that returned. *)
Lemma while_True_lines sin em fuel st w :
  only_transmission_errors w ->
  exists evs,
    while_True fuel (tick sin em) st w = (Running, extend w evs) /\
    marks false evs = feed st (samples sin (step_counter st) fuel) /\
    step_impacts evs
    = List.length (filter (fun b : bool => b) (feed st (samples sin (step_counter st) fuel))) /\
    logs_follow_failures evs = true /\ starts_clean evs = true.
Proof.
  revert st w. induction fuel as [|fuel IH]; intros st w H.
  - exists []. cbn [while_True]. rewrite extend_nil. repeat split.
  - cbn [while_True]. rewrite bind_run.
    destruct (tick_calm_shape sin em st w H) as (tr & d & mk & d' & -> & Htr & Hmk).
    set (y := sample sin (step_counter st)) in *.
    set (line := (Py.format_2f 5 y ++ " | " ++ _)%string) in *.
    apply (only_transmission_errors_more w (tr ++ (Print line, Returns d)
                                              :: mk ++ [(Sleep 0.1, Returns d')])) in H.
    fold (extend w (tr ++ (Print line, Returns d) :: mk ++ [(Sleep 0.1, Returns d')])) in H.
    destruct (IH (snd (detect_edge st y)) _ H) as (evs & -> & Hmarks & Hcount & Hlogs & Hclean).
    change (step_counter (snd (detect_edge st y))) with (step_counter st + 1) in Hmarks, Hcount.
    exists ((tr ++ (Print line, Returns d) :: mk ++ [(Sleep 0.1, Returns d')]) ++ evs)%list.
    rewrite extend_extend. split; [reflexivity|].
    rewrite samples_succ. fold y. cbn [feed].
    rewrite <- !app_assoc. cbn [app].
    destruct (marks_transmission em "acceleration" _ tr false
                ((Print line, Returns d) :: (mk ++ [(Sleep 0.1, Returns d')]) ++ evs)%list
                Htr error_log_not_marker) as [Mtr Ctr].
    destruct (logs_transmission em "acceleration" _ tr
                ((Print line, Returns d) :: (mk ++ [(Sleep 0.1, Returns d')]) ++ evs)%list Htr)
      as [Ltr Str].
    { cbn [starts_clean]. unfold line. rewrite plot_line_not_error. reflexivity. }
    unfold event in *. rewrite Mtr, Ltr, Str. rewrite step_impacts_app, Ctr.
    assert (Hline : is_step_impact (Print line, Returns d) = false)
      by (unfold line; apply plot_line_not_marker).
    destruct Hmk as [[Hi (dm & ->)] | [Hi ->]]; rewrite Hi.
    + cbn [app marks is_sleep fst logs_follow_failures snd is_error_line negb andb filter].
      rewrite Hline. cbn [orb is_step_impact]. rewrite String.eqb_refl.
      unfold step_impacts in *. cbn [filter]. rewrite Hline. cbn [is_step_impact].
      rewrite String.eqb_refl. cbn [List.length]. rewrite Hmarks, Hcount.
      destruct evs as [|next evs]; cbn [starts_clean] in Hclean;
        rewrite ?Hclean; repeat split; try reflexivity; try assumption.
    + cbn [app marks is_sleep fst logs_follow_failures snd is_error_line negb andb filter].
      rewrite Hline. cbn [orb].
      unfold step_impacts in *. cbn [filter]. rewrite Hline. cbn [is_step_impact filter List.length].
      rewrite Hmarks, Hcount.
      destruct evs as [|next evs]; cbn [starts_clean] in Hclean;
        rewrite ?Hclean; repeat split; try reflexivity; try assumption.
Qed.

Lemma run_simulation_lines sin fuel em w :
  only_transmission_errors w ->
  exists evs,
    run_simulation sin fuel em w = (Running, extend w evs) /\
    marks false evs = feed initial_state (samples sin 0 fuel) /\
    step_impacts evs
    = List.length (filter (fun b : bool => b) (feed initial_state (samples sin 0 fuel))) /\
    logs_follow_failures evs = true.
Proof.
  intros H. unfold run_simulation. calm_call. calm_call.
  rewrite try_finally_run, try_except_run.
  match type of H with only_transmission_errors ?w2 => fold (extend w2 []) end.
  destruct (while_True_lines sin em fuel initial_state _ H) as (evl & -> & Hm & Hc & Hl & Hs).
  eexists. split.
  { unfold extend. cbn [oracle history]. rewrite <- !app_assoc. reflexivity. }
  cbn [app]. change (step_counter initial_state) with 0 in Hm, Hc.
  split; [exact Hm|]. split; [exact Hc|].
  cbn [logs_follow_failures snd is_error_line negb andb].
  destruct evl as [|next evl]; cbn [starts_clean] in Hs; rewrite ?Hs; [reflexivity | exact Hl].
Qed.

(** ** The conversion of an integer, within the range of binary64 *)

Lemma Py_float_finite n :
  0 <= n <= (2 ^ 53 - 1) * 2 ^ 971 -> is_finite (Py.float n) = true.
Proof.
  intros [Hlo Hhi]. unfold Py.float.
  destruct n as [|p|p]; [reflexivity | | lia].
  rewrite binary_normalize_spec.
  pose proof (rnd_range (Zpos p) 0 ltac:(lia)) as (Hm & He & Hnorm & Hfexp & _).
  assert (Hd : 1 <= digits (Zpos p)).
  { unfold digits. pose proof (Z.log2_nonneg (Zpos p)). lia. }
  assert (He' : -1074 < snd (rnd (Zpos p) 0)).
  { unfold fexp64 in Hfexp. lia. }
  specialize (Hnorm He').
  assert (Hmax : rnd (2 ^ 53 - 1) 971 = (2 ^ 53 - 1, 971)).
  { apply rnd_canonical; [reflexivity | vm_compute; reflexivity]. }
  destruct (rnd_mono (Zpos p) 0 (2 ^ 53 - 1) 971 0) as [_ Hsnd]; try lia.
  rewrite Hmax in Hsnd. cbn [snd] in Hsnd.
  destruct (rnd (Zpos p) 0) as [m e]. cbn [fst snd] in *.
  assert (P52 : 0 < 2 ^ 52) by reflexivity.
  rewrite SFofpair_pos by lia.
  assert (Hvalid : valid_binary (S754_finite false (Z.to_pos m) e) = true).
  { cbn [valid_binary]. unfold bounded, canonical_mantissa.
    rewrite fexp_eq. change (Z.pos (digits2_pos (Z.to_pos m))) with (Zdigits2 (Zpos (Z.to_pos m))).
    rewrite Zdigits2_digits, Z2Pos.id by lia.
    rewrite (digits_unique m 53) by (try lia; change (53 - 1) with 52; lia).
    unfold fexp64. apply andb_true_iff. split.
    - apply Z.eqb_eq. lia.
    - apply Z.leb_le. change (emax - prec) with 971. lia. }
  unfold is_finite. rewrite is_nan_spec. unfold is_infinity. rewrite eqb_spec, abs_spec.
  rewrite (Prim2SF_SF2Prim _ Hvalid). reflexivity.
Qed.

(** ** The run of [connect_to_emulator], whatever happens *)

(** Gathers the calls run so far into one extension of the world. *)
Ltac gather := rewrite ?extend_push, ?extend_extend; cbn [app].

Ltac connect_leaf :=
  cbn [fst snd]; gather; eexists; split; [reflexivity|]; split; [cbn; lia|];
  intros; discriminate.

Ltac connect_fail :=
  match goal with
  | e : exn |- _ => destruct (is_Exception e); exec; [next_answer|]; exec; connect_leaf
  end.

Lemma connect_shape h p tok w :
  exists evs,
    snd (connect_to_emulator h p tok w) = extend w evs /\
    (List.length (session_actions evs) <= 1)%nat /\
    (forall em, fst (connect_to_emulator h p tok w) = Ret (Some em) ->
       em = {| host := h; port := p |} /\ truthy tok = true /\
       exists d0 greeting d2 reply d4,
         evs = [(Connect h p 10, Returns d0);
                (ReadUntil em "OK" 10, Returns greeting);
                (Write em ("auth " ++ str_of_token tok ++ nl), Returns d2);
                (ReadUntil em "OK" 10, Returns reply);
                (Print ("Connected and authenticated with emulator on port "
                          ++ str_of_int p ++ "."), Returns d4)] /\
         contains "KO" reply = false).
Proof.
  unfold connect_to_emulator.
  destruct (truthy tok) eqn:Ht; cbn [negb].
  - exec. next_answer; exec; [|connect_fail].
    next_answer; exec; [|connect_fail].
    next_answer; exec; [|connect_fail].
    next_answer; exec; [|connect_fail].
    destruct (contains "KO" d2) eqn:HKO; exec.
    + next_answer; exec; [connect_leaf | connect_fail].
    + next_answer; exec; [|connect_fail].
      cbn [fst snd]. gather. eexists. split; [reflexivity|]. split; [cbn; lia|].
      intros em Hem. inversion Hem; subst em. split; [reflexivity|]. split; [reflexivity|].
      do 5 eexists. split; [reflexivity | assumption].
  - exec. next_answer; exec; [|connect_fail].
    next_answer; exec; [|connect_fail].
    next_answer; exec; [connect_leaf | connect_fail].
Qed.

(** * The claims *)

(** ** C1: shutdown *)

(** C1, as amended.  For every run of [run_simulation] that has entered the
    loop (its two header lines were printed) and has terminated, whether by
    the user's interrupt at any call of any tick or by a fatal error, and in
    which the event that stopped the loop is the only fatal event (no further
    interrupt and no console failure strikes the shutdown itself): the session
    is not closed before the shutdown starts; the shutdown writes exactly one
    command, the reset command with the rest values (0, 9.8, 0), and then
    closes the session; the session is closed exactly once in the whole run. *)
Theorem shutdown_resets_and_closes_once sin fuel em w d1 d2 evs :
  answer w 0 (Print header1) = Returns d1 ->
  answer w 1 (Print header2) = Returns d2 ->
  history (snd (run_simulation sin fuel em w)) = (history w ++ evs)%list ->
  fst (run_simulation sin fuel em w) <> Running ->
  (fatal_count evs <= 1)%nat ->
  exists before d after,
    evs = (before ++ (Print "Resetting sensor data.", Returns d) :: after)%list /\
    closes before = 0%nat /\
    session_actions after = [Write em reset_command; Close em] /\
    closes evs = 1%nat.
Proof. apply run_simulation_shutdown. Qed.

Lemma shutdown_resets_and_closes_once_witness :
  exists before d after,
    history (snd (run_simulation sin_taylor 1 emulator0 (start interrupted_once)))
    = (before ++ (Print "Resetting sensor data.", Returns d) :: after)%list /\
    closes before = 0%nat /\
    session_actions after = [Write emulator0 reset_command; Close emulator0] /\
    closes (history (snd (run_simulation sin_taylor 1 emulator0 (start interrupted_once)))) = 1%nat.
Proof.
  apply (shutdown_resets_and_closes_once sin_taylor 1 emulator0 (start interrupted_once) "" "").
  - reflexivity.
  - reflexivity.
  - reflexivity.
  - vm_compute. discriminate.
  - vm_compute. lia.
Defined.

(** C1 as stated fails: the user interrupts the first sleep, the shutdown
    starts and writes the reset command, and a second interrupt arrives while
    [set_sensor_data] waits for the acknowledgement.  [except Exception] does
    not catch it, so it leaves the [finally] block before [close]: the run
    has terminated by user cancellation and the session was never closed. *)
Lemma second_interrupt_skips_close :
  fst (run_simulation sin_taylor 1 emulator0 (start interrupted_twice)) = Exc KeyboardInterrupt /\
  session_actions (history (snd (run_simulation sin_taylor 1 emulator0 (start interrupted_twice))))
  = [Write emulator0 (sensor_command "acceleration" 0 9.8 0); Write emulator0 reset_command] /\
  closes (history (snd (run_simulation sin_taylor 1 emulator0 (start interrupted_twice)))) = 0%nat.
Proof. vm_compute. repeat split. Qed.

(** ** C2: the missing token *)

(** C2, as amended.  If the authentication token is empty or absent, the
    client still opens the connection and consumes the peer's greeting; it
    then reports the missing token and returns no session, and it has written
    nothing to the peer. *)
Theorem missing_token_fails_after_greeting h p tok w d0 greeting d2 :
  truthy tok = false ->
  answer w 0 (Connect h p 10) = Returns d0 ->
  answer w 1 (ReadUntil {| host := h; port := p |} "OK" 10) = Returns greeting ->
  answer w 2 (Print "Authentication token is missing...") = Returns d2 ->
  exists evs,
    connect_to_emulator h p tok w
    = (Ret None, {| oracle := oracle w; history := history w ++ evs |}) /\
    evs = [(Connect h p 10, Returns d0);
           (ReadUntil {| host := h; port := p |} "OK" 10, Returns greeting);
           (Print "Authentication token is missing...", Returns d2)] /\
    session_actions evs = [].
Proof.
  intros Ht H0 H1 H2. eexists. split; [apply missing_token_run; eassumption|].
  split; reflexivity.
Qed.

Lemma missing_token_fails_after_greeting_witness :
  exists evs,
    connect_to_emulator "localhost" 5554 None (start cooperative)
    = (Ret None, {| oracle := cooperative; history := [] ++ evs |}) /\
    evs = [(Connect "localhost" 5554 10, Returns "");
           (ReadUntil emulator0 "OK" 10,
            Returns "Android Console: type help for a list of commands OK");
           (Print "Authentication token is missing...", Returns "")] /\
    session_actions evs = [].
Proof.
  apply (missing_token_fails_after_greeting "localhost" 5554 None (start cooperative)); reflexivity.
Defined.

(** C2 as stated fails: with no token and a cooperative peer the failure is
    reported only after two network calls, the connection and the read of the
    greeting. *)
Lemma missing_token_contacts_peer :
  truthy None = false /\
  fst (connect_to_emulator "localhost" 5554 None (start cooperative)) = Ret None /\
  network_calls (history (snd (connect_to_emulator "localhost" 5554 None (start cooperative))))
  = [Connect "localhost" 5554 10; ReadUntil emulator0 "OK" 10] /\
  network_calls (history (snd (connect_to_emulator "localhost" 5554 None (start cooperative))))
  <> [].
Proof. vm_compute. repeat split. discriminate. Qed.

(** ** C3: edge detection *)

(** C3.  In every run of the loop whose first five samples are 9.8, 10.5,
    11.0, 10.2 and 9.9, started in the initial state (previous value 9.8, not
    rising) and in which nothing but a transmission fails, the five ticks
    print the step-impact line exactly once, in the fourth tick (index 3,
    after the peak of index 2): the edge detector fires there and nowhere
    else. *)
Theorem one_step_impact_at_fourth_value sin em w :
  only_transmission_errors w ->
  samples sin 0 5 = [9.8; 10.5; 11.0; 10.2; 9.9]%float ->
  previous_y initial_state = 9.8%float /\ was_rising initial_state = false /\
  feed initial_state [9.8; 10.5; 11.0; 10.2; 9.9]%float = [false; false; false; true; false] /\
  exists evs,
    run_simulation sin 5 em w = (Running, extend w evs) /\
    marks false evs = [false; false; false; true; false] /\
    step_impacts evs = 1%nat.
Proof.
  intros H Hs. split; [reflexivity|]. split; [reflexivity|].
  assert (Hfeed : feed initial_state [9.8; 10.5; 11.0; 10.2; 9.9]%float
                  = [false; false; false; true; false]) by (vm_compute; reflexivity).
  split; [exact Hfeed|].
  destruct (run_simulation_lines sin 5 em w H) as (evs & E & Hm & Hc & _).
  rewrite Hs, Hfeed in Hm, Hc. exists evs. split; [exact E|]. split; [exact Hm | exact Hc].
Qed.

Lemma one_step_impact_at_fourth_value_witness :
  exists evs,
    run_simulation sin_of_five 5 emulator0 (start cooperative)
    = (Running, extend (start cooperative) evs) /\
    marks false evs = [false; false; false; true; false] /\
    step_impacts evs = 1%nat.
Proof.
  apply (one_step_impact_at_fourth_value sin_of_five emulator0 (start cooperative)).
  - intros i c. destruct c; reflexivity.
  - vm_compute. reflexivity.
Defined.

(** ** C4: the signal generator *)

(** C4.  For every step index [n] from 0 up to the largest binary64 value,
    [2^1024 - 2^971] (beyond it the conversion of the step to a float raises
    [OverflowError]; within it the conversion is finite), with the C
    library's sine within [-1, 1] at the argument, the generator returns
    [(0, y, 0)] with [y = 9.8 + 2.0 * sin (1.25 * n)] in binary64 arithmetic,
    [y] lies in [7.8, 11.8], and equal inputs give equal outputs. *)
Theorem signal_formula_and_range (sin : float -> float) (n : Z) :
  0 <= n <= (2 ^ 53 - 1) * 2 ^ 971 ->
  (-1 <=? sin (1.25 * Py.float n))%float = true ->
  (sin (1.25 * Py.float n) <=? 1)%float = true ->
  is_finite (Py.float n) = true /\
  exists y,
    generate_walking_acceleration sin n = (0%float, y, 0%float) /\
    y = (9.8 + 2.0 * sin (1.25 * Py.float n))%float /\
    (7.8 <=? y)%float = true /\ (y <=? 11.8)%float = true /\
    (forall m, m = n -> generate_walking_acceleration sin m = generate_walking_acceleration sin n).
Proof.
  intros Hn Hlo Hhi. split; [apply Py_float_finite; exact Hn|].
  eexists. split; [reflexivity|]. split; [reflexivity|].
  destruct (signal_in_range _ Hlo Hhi) as [H1 H2].
  split; [exact H1|]. split; [exact H2|]. intros m ->. reflexivity.
Qed.

Lemma signal_formula_and_range_witness :
  is_finite (Py.float 1) = true /\
  exists y,
    generate_walking_acceleration sin_taylor 1 = (0%float, y, 0%float) /\
    y = (9.8 + 2.0 * sin_taylor (1.25 * Py.float 1))%float /\
    (7.8 <=? y)%float = true /\ (y <=? 11.8)%float = true /\
    (forall m, m = 1 ->
       generate_walking_acceleration sin_taylor m = generate_walking_acceleration sin_taylor 1).
Proof.
  apply (signal_formula_and_range sin_taylor 1).
  - split; [lia|]. assert (0 < 2 ^ 971) by reflexivity. change (2 ^ 53 - 1) with 9007199254740991. lia.
  - vm_compute. reflexivity.
  - vm_compute. reflexivity.
Defined.

(** ** C5: the authentication exchange *)

(** C5.  With a token, once the connection is open and the greeting read,
    the client writes exactly the line [auth <token>] and a newline, reads the
    reply up to [OK], and returns no session if the reply contains [KO], and
    the session if it does not (in particular when greeting and reply end in
    [OK] and the reply holds no [KO]). *)
Theorem auth_exchange h p tok w d0 greeting d2 reply d4 :
  tok <> "" ->
  answer w 0 (Connect h p 10) = Returns d0 ->
  answer w 1 (ReadUntil {| host := h; port := p |} "OK" 10) = Returns greeting ->
  answer w 2 (Write {| host := h; port := p |} ("auth " ++ tok ++ nl)) = Returns d2 ->
  answer w 3 (ReadUntil {| host := h; port := p |} "OK" 10) = Returns reply ->
  (forall text, answer w 4 (Print text) = Returns d4) ->
  exists message,
    connect_to_emulator h p (Some tok) w
    = (Ret (if contains "KO" reply then None else Some {| host := h; port := p |}),
       {| oracle := oracle w;
          history := history w ++
            [(Connect h p 10, Returns d0);
             (ReadUntil {| host := h; port := p |} "OK" 10, Returns greeting);
             (Write {| host := h; port := p |} ("auth " ++ tok ++ nl), Returns d2);
             (ReadUntil {| host := h; port := p |} "OK" 10, Returns reply);
             (Print message, Returns d4)] |}) /\
    message = (if contains "KO" reply then "Authentication failed."
               else "Connected and authenticated with emulator on port "
                      ++ str_of_int p ++ ".").
Proof.
  intros Htok H0 H1 H2 H3 H4. eexists. split; [|reflexivity].
  apply auth_exchange_run; assumption.
Qed.

Lemma auth_exchange_witness :
  exists message,
    connect_to_emulator "localhost" 5554 (Some "secret") (start rejecting)
    = (Ret (if contains "KO" "KO: bad auth token" then None else Some emulator0),
       {| oracle := rejecting;
          history := [] ++
            [(Connect "localhost" 5554 10, Returns "");
             (ReadUntil emulator0 "OK" 10, Returns "OK");
             (Write emulator0 ("auth " ++ "secret" ++ nl), Returns "");
             (ReadUntil emulator0 "OK" 10, Returns "KO: bad auth token");
             (Print message, Returns "")] |}) /\
    message = (if contains "KO" "KO: bad auth token" then "Authentication failed."
               else "Connected and authenticated with emulator on port "
                      ++ str_of_int 5554 ++ ".").
Proof.
  apply (auth_exchange "localhost" 5554 "secret" (start rejecting)).
  - discriminate.
  - reflexivity.
  - reflexivity.
  - reflexivity.
  - reflexivity.
  - intros text. reflexivity.
Defined.

(** ** C6: the sensor command *)

Lemma set_sensor_data_writes_command em sensor x y z w :
  exists o rest,
    history (snd (set_sensor_data em sensor x y z w))
    = (history w ++ (Write em (sensor_command sensor x y z), o) :: rest)%list.
Proof.
  unfold set_sensor_data. cbv zeta. exec.
  next_answer; exec.
  - next_answer; exec; [|destruct (is_Exception e); exec; [next_answer; exec|]];
    flat_history; eexists; eexists; reflexivity.
  - destruct (is_Exception e); exec; [next_answer; exec|];
    flat_history; eexists; eexists; reflexivity.
Qed.

(** C6.  For every sensor name and every triple of finite coordinates,
    [set_sensor_data] first writes the line
    [sensor set <sensor> <x>:<y>:<z>] and a newline, each coordinate printed
    with exactly two decimal digits; (0, 9.8, 0) for "acceleration" gives
    [sensor set acceleration 0.00:9.80:0.00] and a newline. *)
Theorem sensor_command_two_decimals sensor x y z :
  is_finite x = true -> is_finite y = true -> is_finite z = true ->
  sensor_command sensor x y z
  = "sensor set " ++ sensor ++ " "
      ++ Py.format_2f 0 x ++ ":" ++ Py.format_2f 0 y ++ ":" ++ Py.format_2f 0 z ++ nl /\
  two_decimals (Py.format_2f 0 x) = true /\
  two_decimals (Py.format_2f 0 y) = true /\
  two_decimals (Py.format_2f 0 z) = true /\
  sensor_command "acceleration" 0 9.8 0 = "sensor set acceleration 0.00:9.80:0.00" ++ nl /\
  (forall em w, exists o rest,
      history (snd (set_sensor_data em sensor x y z w))
      = (history w ++ (Write em (sensor_command sensor x y z), o) :: rest)%list).
Proof.
  intros Hx Hy Hz. split; [reflexivity|].
  split; [apply format_2f_two_decimals; assumption|].
  split; [apply format_2f_two_decimals; assumption|].
  split; [apply format_2f_two_decimals; assumption|].
  split; [vm_compute; reflexivity|].
  intros em w. apply set_sensor_data_writes_command.
Qed.

Lemma sensor_command_two_decimals_witness :
  sensor_command "acceleration" 0 9.8 0
  = "sensor set " ++ "acceleration" ++ " "
      ++ Py.format_2f 0 0 ++ ":" ++ Py.format_2f 0 9.8 ++ ":" ++ Py.format_2f 0 0 ++ nl /\
  two_decimals (Py.format_2f 0 0) = true /\
  two_decimals (Py.format_2f 0 9.8) = true /\
  two_decimals (Py.format_2f 0 0) = true /\
  sensor_command "acceleration" 0 9.8 0 = "sensor set acceleration 0.00:9.80:0.00" ++ nl /\
  (forall em w, exists o rest,
      history (snd (set_sensor_data em "acceleration" 0 9.8 0 w))
      = (history w ++ (Write em (sensor_command "acceleration" 0 9.8 0), o) :: rest)%list).
Proof.
  apply (sensor_command_two_decimals "acceleration" 0 9.8 0); reflexivity.
Defined.

(** ** C7: the plotted line *)

(** C7.  For every finite value [v], the plotter clamps [v] to [min, max] with
    [min = 9.8 - 2.0] and [max = 9.8 + 2.0], normalises
    [t = (clamped - min) / (max - min)], and prints the unclamped [v] with two
    decimals, right-aligned to 5 characters, the separator [" | "] and a bar
    of exactly [floor (t * 50)] characters; the line is a function of [v], and
    printing it is the one call [plot_data_point] makes, in every world. *)
Theorem plot_line_rendering v :
  is_finite v = true ->
  min_y = (9.8 - 2.0)%float /\ max_y = (9.8 + 2.0)%float /\
  (min_y <=? y_value_clamped v)%float = true /\
  (y_value_clamped v <=? max_y)%float = true /\
  ((v <? min_y)%float = true -> y_value_clamped v = min_y) /\
  ((max_y <? v)%float = true -> y_value_clamped v = max_y) /\
  ((min_y <=? v)%float = true -> (v <=? max_y)%float = true -> y_value_clamped v = v) /\
  exists t n,
    t = ((y_value_clamped v - min_y) / (max_y - min_y))%float /\
    normalized_value v = inr t /\
    floor (t * 50)%float = Some n /\ 0 <= n <= 50 /\
    plot_line v
    = inr (pad_left 5 (Py.format_2f 0 v) ++ " | " ++ str_repeat "#" (Z.to_nat n)) /\
    two_decimals (Py.format_2f 0 v) = true /\
    (5 <= String.length (pad_left 5 (Py.format_2f 0 v)))%nat /\
    (forall w,
       plot_data_point v w
       = print (pad_left 5 (Py.format_2f 0 v) ++ " | " ++ str_repeat "#" (Z.to_nat n)) w /\
       snd (plot_data_point v w)
       = extend w [(Print (pad_left 5 (Py.format_2f 0 v) ++ " | "
                             ++ str_repeat "#" (Z.to_nat n)),
                    answer w 0 (Print (pad_left 5 (Py.format_2f 0 v) ++ " | "
                                         ++ str_repeat "#" (Z.to_nat n))))]).
Proof.
  intros Hfin.
  split; [reflexivity|]. split; [reflexivity|].
  destruct (clamp_in_range v) as [R1 R2].
  split; [exact R1|]. split; [exact R2|].
  split; [apply clamp_below|]. split; [apply clamp_above|]. split; [apply clamp_inside|].
  destruct (scaled_value_spec v) as (Hk & _ & Hfl).
  exists ((y_value_clamped v - min_y) / (max_y - min_y))%float, (bar_of (clamp_offset v)).
  split; [reflexivity|]. split.
  { unfold normalized_value, Py.truediv.
    replace ((max_y - min_y =? 0)%float) with false by (vm_compute; reflexivity). reflexivity. }
  split.
  { rewrite <- Hfl. unfold scaled_value. f_equal. }
  split; [apply bar_of_range; assumption|].
  split; [rewrite plot_line_total, format_2f_padded; reflexivity|].
  split; [apply format_2f_two_decimals; assumption|]. split; [apply pad_left_length|].
  intros w. rewrite plot_data_point_print, format_2f_padded. split; [reflexivity|].
  rewrite print_run. reflexivity.
Qed.

Lemma plot_line_rendering_witness :
  plot_line 9.8 = inr " 9.80 | #########################" /\
  exists t n,
    t = ((y_value_clamped 9.8 - min_y) / (max_y - min_y))%float /\
    normalized_value 9.8 = inr t /\
    floor (t * 50)%float = Some n /\ 0 <= n <= 50 /\
    plot_line 9.8
    = inr (pad_left 5 (Py.format_2f 0 9.8) ++ " | " ++ str_repeat "#" (Z.to_nat n)) /\
    two_decimals (Py.format_2f 0 9.8) = true /\
    (5 <= String.length (pad_left 5 (Py.format_2f 0 9.8)))%nat /\
    (forall w,
       plot_data_point 9.8 w
       = print (pad_left 5 (Py.format_2f 0 9.8) ++ " | " ++ str_repeat "#" (Z.to_nat n)) w /\
       snd (plot_data_point 9.8 w)
       = extend w [(Print (pad_left 5 (Py.format_2f 0 9.8) ++ " | "
                             ++ str_repeat "#" (Z.to_nat n)),
                    answer w 0 (Print (pad_left 5 (Py.format_2f 0 9.8) ++ " | "
                                         ++ str_repeat "#" (Z.to_nat n))))]).
Proof.
  split; [vm_compute; reflexivity|].
  apply (plot_line_rendering 9.8). reflexivity.
Defined.

(** ** C8: monotonic bars *)

(** C8.  For every pair of values [v1 < v2] the bar drawn for [v1] is no
    longer than the bar drawn for [v2]; every value, the infinities and NaN
    included, is clamped before it is measured (the bar is that of the clamped
    value: empty below [min], full above [max]) and the plotter never
    fails. *)
Theorem bar_length_monotonic v1 v2 :
  (v1 <? v2)%float = true ->
  (exists n1 n2, bar_length v1 = inr n1 /\ bar_length v2 = inr n2 /\ n1 <= n2) /\
  (forall v, exists n line,
      bar_length v = inr n /\ 0 <= n <= 50 /\ plot_line v = inr line /\
      bar_length v = bar_length (y_value_clamped v)) /\
  (forall v, (v <? min_y)%float = true -> bar_length v = inr 0) /\
  (forall v, (max_y <? v)%float = true -> bar_length v = inr 50).
Proof.
  intros H. split; [apply bar_length_monotone; assumption|]. split; [|split].
  - intros v. destruct (bar_length_spec v) as [Hk Hb].
    eexists. eexists. split; [exact Hb|]. split; [apply bar_of_range; assumption|].
    split; [apply plot_line_total | apply bar_length_of_clamped].
  - intros v Hv. rewrite bar_length_of_clamped, (clamp_below v Hv). vm_compute. reflexivity.
  - intros v Hv. rewrite bar_length_of_clamped, (clamp_above v Hv). vm_compute. reflexivity.
Qed.

Lemma bar_length_monotonic_witness :
  (exists n1 n2, bar_length 9.8 = inr n1 /\ bar_length 10.5 = inr n2 /\ n1 <= n2) /\
  (forall v, exists n line,
      bar_length v = inr n /\ 0 <= n <= 50 /\ plot_line v = inr line /\
      bar_length v = bar_length (y_value_clamped v)) /\
  (forall v, (v <? min_y)%float = true -> bar_length v = inr 0) /\
  (forall v, (max_y <? v)%float = true -> bar_length v = inr 50).
Proof.
  apply (bar_length_monotonic 9.8 10.5). reflexivity.
Defined.

(** ** C9: transmission errors *)

(** C9, as amended.  When nothing but transmissions fail, every transmission
    that raises (a reset or closed stream, a timeout of the write) is caught
    within its tick and logged at once, and the loop goes on: after any number
    of ticks the loop is still running, every tick has reached its sleep and
    the session has not been closed.  An acknowledgement that has not arrived
    when the wait expires raises nothing: it is not logged (no error line ever
    follows a call that returned, so every error line is the log of the
    failure raised just before it), and the loop goes on as well. *)
Theorem transmission_errors_never_stop_loop sin fuel em w :
  only_transmission_errors w ->
  exists evs,
    run_simulation sin fuel em w
    = (Running, {| oracle := oracle w; history := history w ++ evs |}) /\
    closes evs = 0%nat /\ sleeps evs = fuel /\ failures_logged evs = true /\
    logs_follow_failures evs = true.
Proof.
  intros H. destruct (run_simulation_calm sin fuel em w H) as (evs & E & Hc & Hs & Hf).
  destruct (run_simulation_lines sin fuel em w H) as (evs' & E' & _ & _ & Hl).
  exists evs. split; [exact E|]. split; [exact Hc|]. split; [exact Hs|]. split; [exact Hf|].
  rewrite E in E'. inversion E' as [Hh]. apply app_inv_head in Hh. subst evs'. exact Hl.
Qed.

Lemma transmission_errors_never_stop_loop_witness :
  exists evs,
    run_simulation sin_taylor 2 emulator0 (start broken_pipe)
    = (Running, {| oracle := broken_pipe; history := [] ++ evs |}) /\
    closes evs = 0%nat /\ sleeps evs = 2%nat /\ failures_logged evs = true /\
    logs_follow_failures evs = true.
Proof.
  apply (transmission_errors_never_stop_loop sin_taylor 2 emulator0 (start broken_pipe)).
  intros i c. destruct c; reflexivity.
Defined.

(** C9 as stated fails for the timeout of an acknowledgement: with an
    emulator that never answers, the read of the first tick gives up with
    nothing read, no error line is printed, and the tick goes on to its
    sleep. *)
Lemma ack_timeout_not_logged :
  List.length (filter ack_timed_out
                 (history (snd (run_simulation sin_taylor 1 emulator0 (start unresponsive)))))
  = 1%nat /\
  filter is_error_line
    (history (snd (run_simulation sin_taylor 1 emulator0 (start unresponsive)))) = [] /\
  sleeps (history (snd (run_simulation sin_taylor 1 emulator0 (start unresponsive)))) = 1%nat.
Proof. vm_compute. repeat split. Qed.

(** ** C10: the session after a failed authentication *)

(** C10, as amended.  [connect_to_emulator] itself never calls [close],
    whatever happens, and it returns a session only after an exchange whose
    reply holds no [KO]: with an opened transport and a missing token, or a
    reply containing [KO], it returns [None] without a close call of its own,
    and [main] then ends without one (the one close call of the program is in
    the exit path of the simulation loop).  The connection is closed for all
    that: the [Telnet] object is known to the local variable [emulator] only,
    so when [None] is returned the session that was opened is unreferenced;
    it is reclaimed, and its finaliser closes it, once.  A session that is
    returned stays referenced, and is not finalised. *)
Theorem auth_failure_makes_no_close_call h p tok w :
  (exists evs,
     history (snd (connect_to_emulator h p tok w)) = (history w ++ evs)%list /\
     closes evs = 0%nat /\
     (forall em, fst (connect_to_emulator h p tok w) = Ret (Some em) ->
        truthy tok = true /\
        exists d0 greeting d2 reply d4,
          evs = [(Connect h p 10, Returns d0);
                 (ReadUntil em "OK" 10, Returns greeting);
                 (Write em ("auth " ++ str_of_token tok ++ nl), Returns d2);
                 (ReadUntil em "OK" 10, Returns reply);
                 (Print ("Connected and authenticated with emulator on port "
                           ++ str_of_int p ++ "."), Returns d4)] /\
          contains "KO" reply = false)) /\
  (forall d0 greeting d2,
     truthy tok = false ->
     answer w 0 (Connect h p 10) = Returns d0 ->
     answer w 1 (ReadUntil {| host := h; port := p |} "OK" 10) = Returns greeting ->
     answer w 2 (Print "Authentication token is missing...") = Returns d2 ->
     fst (connect_to_emulator h p tok w) = Ret None /\
     exists evs,
       snd (connect_to_emulator h p tok w) = extend w evs /\
       closes evs = 0%nat /\
       opened evs = [{| host := h; port := p |}] /\
       unreferenced (fst (connect_to_emulator h p tok w)) evs = [{| host := h; port := p |}] /\
       finalise (fst (connect_to_emulator h p tok w)) evs
       = [(Close {| host := h; port := p |}, Returns "")]) /\
  (forall t d0 greeting d2 reply d4,
     tok = Some t -> t <> "" ->
     answer w 0 (Connect h p 10) = Returns d0 ->
     answer w 1 (ReadUntil {| host := h; port := p |} "OK" 10) = Returns greeting ->
     answer w 2 (Write {| host := h; port := p |} ("auth " ++ t ++ nl)) = Returns d2 ->
     answer w 3 (ReadUntil {| host := h; port := p |} "OK" 10) = Returns reply ->
     (forall text, answer w 4 (Print text) = Returns d4) ->
     contains "KO" reply = true ->
     fst (connect_to_emulator h p tok w) = Ret None /\
     exists evs,
       snd (connect_to_emulator h p tok w) = extend w evs /\
       closes evs = 0%nat /\
       opened evs = [{| host := h; port := p |}] /\
       unreferenced (fst (connect_to_emulator h p tok w)) evs = [{| host := h; port := p |}] /\
       finalise (fst (connect_to_emulator h p tok w)) evs
       = [(Close {| host := h; port := p |}, Returns "")]) /\
  (forall sin fuel,
     h = "localhost" ->
     fst (connect_to_emulator h p tok w) = Ret None ->
     main sin fuel p tok w = (Ret tt, snd (connect_to_emulator h p tok w))) /\
  (forall em evs,
     fst (connect_to_emulator h p tok w) = Ret (Some em) ->
     snd (connect_to_emulator h p tok w) = extend w evs ->
     opened evs = [em] /\
     unreferenced (fst (connect_to_emulator h p tok w)) evs = [] /\
     finalise (fst (connect_to_emulator h p tok w)) evs = []).
Proof.
  split; [apply connect_never_closes|]. split; [|split; [|split]].
  - intros d0 greeting d2 Ht H0 H1 H2.
    rewrite (missing_token_run h p tok w d0 greeting d2 Ht H0 H1 H2). cbn [fst snd].
    split; [reflexivity|]. eexists. split; [reflexivity|]. repeat split.
  - intros t d0 greeting d2 reply d4 -> Ht H0 H1 H2 H3 H4 HKO.
    rewrite (auth_exchange_run h p t w d0 greeting d2 reply d4 Ht H0 H1 H2 H3 H4), HKO.
    cbn [fst snd]. split; [reflexivity|]. eexists. split; [reflexivity|]. repeat split.
  - intros sin fuel -> Hr. unfold main. rewrite bind_run.
    destruct (connect_to_emulator "localhost" p tok w) as [r w']. cbn [fst snd] in *.
    rewrite Hr. reflexivity.
  - intros em evs Hr Hs. destruct (connect_shape h p tok w) as (evs' & Hs' & _ & Hsome).
    destruct (Hsome em Hr) as (Hem & _ & d0 & greeting & d2 & reply & d4 & Hevs & _).
    rewrite Hs in Hs'. apply (f_equal history) in Hs'. unfold extend in Hs'.
    cbn [history] in Hs'. apply app_inv_head in Hs'. subst evs evs' em.
    rewrite Hr. unfold finalise, unreferenced, opened, returned_session, Telnet_eqb.
    cbn [flat_map app filter existsb host port].
    rewrite String.eqb_refl, Z.eqb_refl. repeat split.
Qed.

Lemma auth_failure_makes_no_close_call_witness :
  fst (connect_to_emulator "localhost" 5554 (Some "secret") (start rejecting)) = Ret None /\
  exists evs,
    snd (connect_to_emulator "localhost" 5554 (Some "secret") (start rejecting))
    = extend (start rejecting) evs /\
    closes evs = 0%nat /\
    opened evs = [emulator0] /\
    unreferenced (fst (connect_to_emulator "localhost" 5554 (Some "secret") (start rejecting)))
      evs = [emulator0] /\
    finalise (fst (connect_to_emulator "localhost" 5554 (Some "secret") (start rejecting)))
      evs = [(Close emulator0, Returns "")].
Proof.
  destruct (auth_failure_makes_no_close_call "localhost" 5554 (Some "secret") (start rejecting))
    as (_ & _ & H & _).
  apply (H "secret" "" "OK" "" "KO: bad auth token" ""); try reflexivity.
  discriminate.
Defined.

(** C10 as stated fails: the emulator rejects the token;
    [connect_to_emulator] has opened a session, calls no [close] and returns
    [None], and with that the only reference to the session is gone: the
    session is reclaimed and its finaliser closes the connection, which does
    not remain open. *)
Lemma auth_failure_drops_session :
  fst (connect_to_emulator "localhost" 5554 (Some "secret") (start rejecting)) = Ret None /\
  closes (history (snd (connect_to_emulator "localhost" 5554 (Some "secret") (start rejecting))))
  = 0%nat /\
  opened (history (snd (connect_to_emulator "localhost" 5554 (Some "secret") (start rejecting))))
  = [emulator0] /\
  unreferenced
    (fst (connect_to_emulator "localhost" 5554 (Some "secret") (start rejecting)))
    (history (snd (connect_to_emulator "localhost" 5554 (Some "secret") (start rejecting))))
  = [emulator0] /\
  closes
    (finalise
       (fst (connect_to_emulator "localhost" 5554 (Some "secret") (start rejecting)))
       (history (snd (connect_to_emulator "localhost" 5554 (Some "secret") (start rejecting)))))
  = 1%nat.
Proof. vm_compute. repeat split. Qed.

(** * More of the program *)

(** ** [connect_to_emulator] and [set_sensor_data] when calls fail *)

Lemma console_answer w k text :
  console_works w -> exists d, answer w k (Print text) = Returns d.
Proof. intros H. apply H. Qed.

Lemma uninterrupted_answer w k c e :
  uninterrupted w -> answer w k c = Raises e -> is_Exception e = true.
Proof. intros H. apply H. Qed.

(** The next call in a world where the console works and nobody interrupts. *)
Ltac safe_answer Hc Hu :=
  match goal with
  | |- context [match answer ?w ?k (Print ?t) with _ => _ end] =>
      let d := fresh "d" in
      let E := fresh "E" in
      destruct (console_answer w k t Hc) as [d E]; rewrite E; clear E
  | |- context [match answer ?w ?k ?c with _ => _ end] =>
      let o := fresh "o" in
      let d := fresh "d" in
      let e := fresh "e" in
      destruct (answer w k c) as [d|e] eqn:o;
      [|rewrite (uninterrupted_answer w k c e Hu o)]
  end.

(** X2.  [connect_to_emulator] absorbs every error of the network: as long as
    the console works and nobody interrupts, it returns, a session or [None],
    and never raises, whatever the calls to the emulator do. *)
Theorem connect_always_returns h p tok w :
  console_works w -> uninterrupted w ->
  exists r evs, connect_to_emulator h p tok w = (Ret r, extend w evs).
Proof.
  intros Hc Hu. unfold connect_to_emulator.
  destruct (truthy tok); cbn [negb]; [|exec; repeat (safe_answer Hc Hu; exec); gather; eauto].
  exec. safe_answer Hc Hu; exec; [|repeat (safe_answer Hc Hu; exec); gather; eauto].
  safe_answer Hc Hu; exec; [|repeat (safe_answer Hc Hu; exec); gather; eauto].
  safe_answer Hc Hu; exec; [|repeat (safe_answer Hc Hu; exec); gather; eauto].
  safe_answer Hc Hu; exec; [|repeat (safe_answer Hc Hu; exec); gather; eauto].
  destruct (contains "KO" d2); exec; repeat (safe_answer Hc Hu; exec); gather; eauto.
Qed.

Lemma connect_always_returns_witness :
  exists r evs,
    connect_to_emulator "localhost" 5554 (Some "secret") (start broken_pipe)
    = (Ret r, extend (start broken_pipe) evs).
Proof.
  apply (connect_always_returns "localhost" 5554 (Some "secret") (start broken_pipe)).
  - intros i text. exists "". reflexivity.
  - intros i c e H. destruct c; cbn in H; try discriminate; inversion H; reflexivity.
Defined.

(** X1.  When the connection cannot be opened (refused, timed out, unknown
    host), [connect_to_emulator] prints the error and returns [None]; it
    attempts nothing else: no read, no write, whatever the token. *)
Theorem connection_failure_is_reported h p tok w msg d :
  answer w 0 (Connect h p 10) = Raises (Exception msg) ->
  answer w 1 (Print ("An error occurred during connection: " ++ msg)) = Returns d ->
  connect_to_emulator h p tok w
  = (Ret None,
     extend w [(Connect h p 10, Raises (Exception msg));
               (Print ("An error occurred during connection: " ++ msg), Returns d)]).
Proof.
  intros H0 H1. unfold connect_to_emulator. exec. rewrite H0. cbn [is_Exception str_of_exn].
  exec. rewrite H1. gather. reflexivity.
Qed.

Lemma connection_failure_is_reported_witness :
  connect_to_emulator "localhost" 5554 (Some "secret") (start refused)
  = (Ret None,
     extend (start refused)
       [(Connect "localhost" 5554 10, Raises (Exception "[Errno 111] Connection refused"));
        (Print ("An error occurred during connection: " ++ "[Errno 111] Connection refused"),
         Returns "")]).
Proof.
  apply (connection_failure_is_reported "localhost" 5554 (Some "secret") (start refused));
    reflexivity.
Defined.

(** X3.  When the write of a sensor command fails, [set_sensor_data] does not
    wait for an acknowledgement: it logs the error and returns, having made
    exactly two calls, the write and the print. *)
Theorem failed_write_skips_acknowledgement em sensor x y z w msg d :
  answer w 0 (Write em (sensor_command sensor x y z)) = Raises (Exception msg) ->
  answer w 1 (Print ("An error occurred while setting " ++ sensor ++ " data: " ++ msg))
  = Returns d ->
  set_sensor_data em sensor x y z w
  = (Ret tt,
     extend w [(Write em (sensor_command sensor x y z), Raises (Exception msg));
               (Print ("An error occurred while setting " ++ sensor ++ " data: " ++ msg),
                Returns d)]).
Proof.
  intros H0 H1. unfold set_sensor_data. cbv zeta. exec. rewrite H0.
  cbn [is_Exception str_of_exn]. exec. rewrite H1. gather. reflexivity.
Qed.

Lemma failed_write_skips_acknowledgement_witness :
  set_sensor_data emulator0 "acceleration" 0 9.8 0 (start broken_pipe)
  = (Ret tt,
     extend (start broken_pipe)
       [(Write emulator0 (sensor_command "acceleration" 0 9.8 0),
         Raises (Exception "[Errno 32] Broken pipe"));
        (Print ("An error occurred while setting " ++ "acceleration" ++ " data: "
                  ++ "[Errno 32] Broken pipe"), Returns "")]).
Proof.
  apply (failed_write_skips_acknowledgement emulator0 "acceleration" 0 9.8 0 (start broken_pipe));
    reflexivity.
Defined.

(** X4.  [set_sensor_data] swallows no interrupt: a [KeyboardInterrupt] or
    [SystemExit] raised while the command is written, or while its
    acknowledgement is awaited, leaves [set_sensor_data] at once, and no
    error line is printed. *)
Theorem interrupt_passes_through_set_sensor_data em sensor x y z w e :
  is_Exception e = false ->
  (answer w 0 (Write em (sensor_command sensor x y z)) = Raises e ->
   set_sensor_data em sensor x y z w
   = (Exc e, extend w [(Write em (sensor_command sensor x y z), Raises e)])) /\
  (forall d,
     answer w 0 (Write em (sensor_command sensor x y z)) = Returns d ->
     answer w 1 (ReadUntil em "OK" 2) = Raises e ->
     set_sensor_data em sensor x y z w
     = (Exc e, extend w [(Write em (sensor_command sensor x y z), Returns d);
                         (ReadUntil em "OK" 2, Raises e)])).
Proof.
  intros He. split.
  - intros H0. unfold set_sensor_data. cbv zeta. exec. rewrite H0, He. gather. reflexivity.
  - intros d H0 H1. unfold set_sensor_data. cbv zeta. exec. rewrite H0. exec. rewrite H1, He.
    gather. reflexivity.
Qed.

Lemma interrupt_passes_through_set_sensor_data_witness :
  set_sensor_data emulator0 "acceleration" 0 9.8 0 (start (interrupted_in 1))
  = (Exc KeyboardInterrupt,
     extend (start (interrupted_in 1))
       [(Write emulator0 (sensor_command "acceleration" 0 9.8 0), Returns "");
        (ReadUntil emulator0 "OK" 2, Raises KeyboardInterrupt)]).
Proof.
  destruct (interrupt_passes_through_set_sensor_data emulator0 "acceleration" 0 9.8 0
              (start (interrupted_in 1)) KeyboardInterrupt) as [_ H].
  - reflexivity.
  - apply H; reflexivity.
Defined.

(** ** An interrupt in the loop *)

Lemma interrupted_answer K w k c :
  interrupted_at K w ->
  ((List.length (history w) + k)%nat = K /\ answer w k c = Raises KeyboardInterrupt) \/
  ((List.length (history w) + k)%nat <> K /\
   ((exists d, answer w k c = Returns d) \/
    (is_transmission c = true /\ exists msg, answer w k c = Raises (Exception msg)))).
Proof.
  intros [HK Hother]. unfold answer.
  destruct (Nat.eq_dec (List.length (history w) + k) K) as [E|E].
  - left. split; [assumption|]. rewrite E. apply HK.
  - right. split; [assumption|]. specialize (Hother _ c E).
    destruct (oracle w _ c) as [d|e]; [left; eauto|]. right.
    cbn in Hother. apply negb_false_iff, andb_true_iff in Hother as [He Hc].
    split; [assumption|]. destruct e; try discriminate. eauto.
Qed.

Lemma interrupted_at_extend K w evs : interrupted_at K w -> interrupted_at K (extend w evs).
Proof. intros H. exact H. Qed.

Lemma history_extend w evs : history (extend w evs) = (history w ++ evs)%list.
Proof. reflexivity. Qed.

Lemma interruptible_ret {A} (a : A) : interruptible 0 (ret a).
Proof.
  intros K w H HL. exists []. split; [reflexivity|]. split; [reflexivity|].
  left. exists a. rewrite extend_nil. cbn [List.length]. repeat split; lia.
Qed.

Lemma interruptible_weaken {A} n m (c : M A) :
  (m <= n)%nat -> interruptible n c -> interruptible m c.
Proof.
  intros Hmn Hc K w H HL. destruct (Hc K w H HL) as (evs & Hf & Hcl & [(a & E & Hn & Hk) | R]).
  - exists evs. split; [assumption|]. split; [assumption|]. left. exists a.
    repeat split; try assumption; lia.
  - exists evs. split; [assumption|]. split; [assumption|]. right. exact R.
Qed.

Lemma interruptible_bind {A B} n m (c : M A) (k : A -> M B) :
  interruptible n c -> (forall a, interruptible m (k a)) -> interruptible (n + m) (bind c k).
Proof.
  intros Hc Hk K w H HL. rewrite bind_run.
  destruct (Hc K w H HL) as (ev1 & Hf1 & Hcl1 & [(a & E & Hn & Hle) | (cl & E & Hle)]); rewrite E.
  - destruct (Hk a K (extend w ev1) (interrupted_at_extend K w ev1 H)) as
      (ev2 & Hf2 & Hcl2 & [(b & E2 & Hm & Hle2) | (cl & E2 & Hle2)]).
    { rewrite history_extend, length_app. exact Hle. }
    + exists (ev1 ++ ev2)%list. rewrite fatal_count_app, closes_app, Hf1, Hf2, Hcl1, Hcl2.
      split; [reflexivity|]. split; [reflexivity|]. left. exists b.
      rewrite E2, extend_extend, length_app. rewrite history_extend, length_app in Hle2.
      repeat split; lia.
    + exists (ev1 ++ ev2)%list. rewrite fatal_count_app, closes_app, Hf1, Hf2, Hcl1, Hcl2.
      split; [reflexivity|]. split; [reflexivity|]. right. exists cl.
      rewrite E2, extend_extend, length_app, <- app_assoc.
      rewrite history_extend, length_app in Hle2. split; [reflexivity | lia].
  - exists ev1. split; [assumption|]. split; [assumption|]. right. exists cl.
    split; [reflexivity | assumption].
Qed.

Lemma interruptible_unit_call c :
  is_session_action c = false -> is_transmission c = false ->
  interruptible 1 (perform c ;; ret tt).
Proof.
  intros Hs Ht K w H HL. rewrite unit_call_run.
  destruct (interrupted_answer K w 0 c H) as [[Hi E] | [Hi [[d E] | [Hc _]]]].
  - exists []. split; [reflexivity|]. split; [reflexivity|]. right. exists c.
    rewrite E, extend_push. cbn [List.length]. split; [reflexivity | lia].
  - exists [(c, Returns d)]. split; [reflexivity|]. split.
    { unfold closes, is_close. cbn. destruct c; try discriminate; reflexivity. }
    left. exists tt. rewrite E, extend_push. cbn [List.length]. repeat split; lia.
  - congruence.
Qed.

Lemma interruptible_print t : interruptible 1 (print t).
Proof. apply interruptible_unit_call; reflexivity. Qed.

Lemma interruptible_sleep t : interruptible 1 (time_sleep t).
Proof. apply interruptible_unit_call; reflexivity. Qed.

(** The next call when an interrupt is due at the [K]-th call. *)
Ltac meet H :=
  match goal with
  | |- context [match answer ?w ?k ?c with _ => _ end] =>
      let Hi := fresh "Hi" in
      let E := fresh "E" in
      let d := fresh "d" in
      let msg := fresh "msg" in
      let Ht := fresh "Ht" in
      destruct (interrupted_answer _ w k c H) as [[Hi E] | [Hi [[d E] | [Ht [msg E]]]]];
      [ rewrite E | rewrite E | first [discriminate Ht | rewrite E] ]
  end.

Ltac interrupted_leaf :=
  gather;
  first
    [ eexists; split; [|split; [|left; eexists; split; [reflexivity|]]];
      [reflexivity | reflexivity | cbn [List.length]; split; lia]
    | match goal with
      | |- exists evs, _ /\ _ /\ (_ \/ exists cl, (_, extend _ ?l) = _ /\ _) =>
          exists (removelast l); split; [reflexivity|]; split; [reflexivity|];
          right; eexists; split; [reflexivity|]; cbn [List.length removelast]; lia
      end ].

Lemma interruptible_set_sensor_data em sensor x y z :
  interruptible 1 (set_sensor_data em sensor x y z).
Proof.
  intros K w H HL. unfold set_sensor_data. cbv zeta. exec.
  meet H; exec; cbn [is_Exception]; exec.
  - interrupted_leaf.
  - meet H; exec; cbn [is_Exception]; exec.
    + interrupted_leaf.
    + interrupted_leaf.
    + meet H; exec; interrupted_leaf.
  - meet H; exec; interrupted_leaf.
Qed.

Lemma interruptible_tick sin em st : interruptible 1 (tick sin em st).
Proof.
  unfold tick, generate_walking_acceleration, detect_edge. cbv zeta.
  apply (interruptible_bind 1 0); [apply interruptible_set_sensor_data|]. intros _.
  apply (interruptible_bind 0 0).
  { rewrite plot_data_point_print. apply (interruptible_weaken 1); [lia | apply interruptible_print]. }
  intros _. apply (interruptible_bind 0 0).
  { destruct (_ && _); [|apply interruptible_ret].
    apply (interruptible_weaken 1); [lia | apply interruptible_print]. }
  intros _. apply (interruptible_bind 0 0).
  { apply (interruptible_weaken 1); [lia | apply interruptible_sleep]. }
  intros _. apply interruptible_ret.
Qed.

(** With enough fuel the loop meets the interrupt. *)
Lemma while_True_interrupted sin em fuel st K w :
  interrupted_at K w -> (List.length (history w) <= K)%nat ->
  (K - List.length (history w) < fuel)%nat ->
  exists evs cl,
    while_True fuel (tick sin em) st w
    = (Exc KeyboardInterrupt, extend w (evs ++ [(cl, Raises KeyboardInterrupt)])) /\
    fatal_count evs = 0%nat /\ closes evs = 0%nat /\
    (List.length (history w) + List.length evs)%nat = K.
Proof.
  revert st w. induction fuel as [|fuel IH]; intros st w H HL Hfuel; [lia|].
  cbn [while_True]. rewrite bind_run.
  destruct (interruptible_tick sin em st K w H HL)
    as (ev1 & Hf1 & Hcl1 & [(st' & E & Hn & Hle) | (cl & E & Hle)]); rewrite E.
  - destruct (IH st' (extend w ev1) (interrupted_at_extend K w ev1 H))
      as (ev2 & cl & E2 & Hf2 & Hcl2 & Hle2).
    { rewrite history_extend, length_app. exact Hle. }
    { rewrite history_extend, length_app. lia. }
    exists (ev1 ++ ev2)%list, cl. rewrite E2, extend_extend, <- app_assoc.
    rewrite fatal_count_app, closes_app, Hf1, Hf2, Hcl1, Hcl2, length_app.
    rewrite history_extend, length_app in Hle2.
    split; [reflexivity|]. split; [reflexivity|]. split; [reflexivity|].
    unfold event in *. lia.
  - exists ev1, cl. split; [reflexivity|]. split; [assumption|]. split; assumption.
Qed.

(** The calls after the interrupt: none of them is the [K]-th. *)
Ltac later H :=
  meet H; [exfalso; lia | | ]; exec; cbn [is_Exception str_of_exn]; exec.

Lemma cleanup_after_interrupt em K w :
  interrupted_at K w -> (K < List.length (history w))%nat ->
  exists d rest d',
    cleanup em w
    = (Ret tt, extend w ((Print "Resetting sensor data.", Returns d)
                           :: rest ++ [(Print "Telnet connection closed.", Returns d')])) /\
    session_actions rest = [Write em reset_command; Close em] /\ closes rest = 1%nat.
Proof.
  intros H HL. unfold cleanup, set_sensor_data. cbv zeta. exec.
  meet H; [exfalso; lia|]. exec.
  meet H; [exfalso; lia | | ]; exec; cbn [is_Exception str_of_exn]; exec.
  - meet H; [exfalso; lia | | ]; exec; cbn [is_Exception str_of_exn]; exec.
    + meet H; [exfalso; lia|]. exec.
      meet H; [exfalso; lia|]. exec. gather.
      eexists. eexists (_ :: _ :: [_]). eexists. split; [reflexivity|]. split; reflexivity.
    + meet H; [exfalso; lia|]. exec.
      meet H; [exfalso; lia|]. exec.
      meet H; [exfalso; lia|]. exec. gather.
      eexists. eexists (_ :: _ :: _ :: [_]). eexists. split; [reflexivity|]. split; reflexivity.
  - meet H; [exfalso; lia|]. exec.
    meet H; [exfalso; lia|]. exec.
    meet H; [exfalso; lia|]. exec. gather.
    eexists. eexists (_ :: _ :: [_]). eexists. split; [reflexivity|]. split; reflexivity.
Qed.

(** X5.  An interrupt always ends the simulation in good order.  If the user
    interrupts the [k]-th call of [run_simulation], whichever call of
    whichever tick it is, and nothing else is fatal, then with fuel for [k]
    ticks the run returns normally: the loop stops at that call, the stop
    line and the reset line are printed, the reset command is sent, the
    session is closed, once, and the closing line is printed last. *)
Theorem interrupt_ends_simulation_cleanly sin fuel em w k :
  interrupted_at (List.length (history w) + k) w -> (2 <= k <= fuel)%nat ->
  exists evs cl d1 d2 rest d3,
    run_simulation sin fuel em w
    = (Ret tt,
       extend w (evs ++ (cl, Raises KeyboardInterrupt)
                   :: (Print (nl ++ "Stopping simulation."), Returns d1)
                   :: (Print "Resetting sensor data.", Returns d2)
                   :: rest ++ [(Print "Telnet connection closed.", Returns d3)])) /\
    List.length evs = k /\ fatal_count evs = 0%nat /\ closes evs = 0%nat /\
    session_actions rest = [Write em reset_command; Close em] /\ closes rest = 1%nat.
Proof.
  intros H Hk. unfold run_simulation. fold header1 header2. exec.
  meet H; [exfalso; lia|]. exec.
  meet H; [exfalso; lia|]. exec. gather.
  set (w2 := extend w _).
  destruct (while_True_interrupted sin em fuel initial_state _ w2 H)
    as (evl & cl & El & Hf & Hc & Hl).
  { unfold w2. rewrite history_extend, length_app. cbn [List.length]. lia. }
  { unfold w2. rewrite history_extend, length_app. cbn [List.length]. lia. }
  rewrite El. cbn [is_KeyboardInterrupt]. exec.
  set (w3 := extend w2 _).
  assert (HL3 : (List.length (history w) + k < List.length (history w3))%nat).
  { unfold w3, w2. rewrite !history_extend, !length_app. cbn [List.length].
    unfold w2 in Hl. rewrite history_extend, length_app in Hl. cbn [List.length] in Hl. lia. }
  destruct (interrupted_answer _ w3 0 (Print (nl ++ "Stopping simulation.")) H)
    as [[Hs _] | [_ [[d1 E1] | [Hs _]]]]; [exfalso; lia | | discriminate Hs].
  rewrite E1. rewrite extend_push.
  destruct (cleanup_after_interrupt em _ (extend w3 [(Print (nl ++ "Stopping simulation."), Returns d1)]) H)
    as (d2 & rest & d3 & Ec & Hsa & Hcl).
  { rewrite history_extend, length_app. cbn [List.length]. lia. }
  rewrite Ec.
  exists ([(Print header1, Returns d); (Print header2, Returns d0)] ++ evl)%list, cl, d1, d2, rest, d3.
  split.
  { unfold w3, w2. rewrite !extend_extend, <- !app_assoc. reflexivity. }
  unfold w2 in Hl. rewrite history_extend, length_app in Hl. cbn [List.length] in Hl.
  rewrite length_app. cbn [List.length]. split; [lia|].
  split; [exact Hf|]. split; [exact Hc|]. split; assumption.
Qed.

Lemma interrupt_ends_simulation_cleanly_witness :
  exists evs cl d1 d2 rest d3,
    run_simulation sin_taylor 5 emulator0 (start (interrupted_in 5))
    = (Ret tt,
       extend (start (interrupted_in 5))
         (evs ++ (cl, Raises KeyboardInterrupt)
            :: (Print (nl ++ "Stopping simulation."), Returns d1)
            :: (Print "Resetting sensor data.", Returns d2)
            :: rest ++ [(Print "Telnet connection closed.", Returns d3)])) /\
    List.length evs = 5%nat /\ fatal_count evs = 0%nat /\ closes evs = 0%nat /\
    session_actions rest = [Write emulator0 reset_command; Close emulator0] /\
    closes rest = 1%nat.
Proof.
  apply (interrupt_ends_simulation_cleanly sin_taylor 5 emulator0 (start (interrupted_in 5)) 5).
  - split.
    + intros c. reflexivity.
    + intros i c Hi. unfold start, interrupted_in. cbn [oracle].
      destruct (Nat.eqb_spec i 5) as [E|E]; [exfalso; apply Hi; exact E|].
      destruct c; reflexivity.
  - lia.
Defined.

(** ** What goes through the session *)

Lemma session_actions_app a b :
  session_actions (a ++ b) = (session_actions a ++ session_actions b)%list.
Proof. unfold session_actions. rewrite map_app, filter_app. reflexivity. Qed.

Lemma quiet_ret {A} (a : A) : quiet (ret a).
Proof. intros w. exists []. rewrite extend_nil. split; reflexivity. Qed.

Lemma quiet_bind {A B} (c : M A) (k : A -> M B) :
  quiet c -> (forall a, quiet (k a)) -> quiet (bind c k).
Proof.
  intros Hc Hk w. rewrite bind_run. destruct (Hc w) as (ev1 & E1 & S1).
  destruct (c w) as [[a|e|] w1]; cbn [snd] in *; subst w1.
  - destruct (Hk a (extend w ev1)) as (ev2 & E2 & S2). exists (ev1 ++ ev2)%list.
    rewrite E2, extend_extend, session_actions_app, S1, S2. split; reflexivity.
  - exists ev1. split; [reflexivity | assumption].
  - exists ev1. split; [reflexivity | assumption].
Qed.

Lemma quiet_unit_call c : is_session_action c = false -> quiet (perform c ;; ret tt).
Proof.
  intros Hc w. rewrite unit_call_run. cbn [snd]. exists [(c, answer w 0 c)].
  split; [reflexivity|]. unfold session_actions. cbn. rewrite Hc. reflexivity.
Qed.

Lemma quiet_print t : quiet (print t).
Proof. apply quiet_unit_call. reflexivity. Qed.

Lemma quiet_sleep t : quiet (time_sleep t).
Proof. apply quiet_unit_call. reflexivity. Qed.

Ltac actions_leaf := cbn [snd]; gather; eexists; split; reflexivity.

Lemma set_sensor_data_actions em sensor x y z w :
  exists evs,
    snd (set_sensor_data em sensor x y z w) = extend w evs /\
    session_actions evs = [Write em (sensor_command sensor x y z)].
Proof.
  unfold set_sensor_data. cbv zeta. exec.
  next_answer; exec.
  - next_answer; exec; [actions_leaf|].
    destruct (is_Exception e); exec; [next_answer; exec|]; actions_leaf.
  - destruct (is_Exception e); exec; [next_answer; exec|]; actions_leaf.
Qed.

Lemma tick_actions sin em st w :
  exists evs,
    snd (tick sin em st w) = extend w evs /\
    session_actions evs = [Write em (step_command sin (step_counter st))] /\
    (forall st', fst (tick sin em st w) = Ret st' -> step_counter st' = step_counter st + 1).
Proof.
  unfold tick, step_command, generate_walking_acceleration, detect_edge. cbv zeta.
  rewrite bind_run.
  destruct (set_sensor_data_actions em "acceleration" 0
              (Y_BASELINE + AMPLITUDE * sin (frequency * Py.float (step_counter st)))%float 0 w)
    as (ev1 & E1 & S1).
  destruct (set_sensor_data _ _ _ _ _ w) as [[u|e|] w1]; cbn [snd] in E1; subst w1;
    [|exists ev1; cbn [fst snd]; split; [reflexivity|]; split; [assumption | discriminate]..].
  set (st1 := {| step_counter := step_counter st + 1; previous_y := _; was_rising := _ |}).
  set (rest := bind (plot_data_point _) _).
  assert (Hq : quiet rest).
  { unfold rest. apply quiet_bind.
    - rewrite plot_data_point_print. apply quiet_print.
    - intros _. apply quiet_bind.
      + destruct (_ && _); [apply quiet_print | apply quiet_ret].
      + intros _. apply quiet_bind; [apply quiet_sleep | intros _; apply quiet_ret]. }
  destruct (Hq (extend w ev1)) as (ev2 & E2 & S2).
  exists (ev1 ++ ev2)%list. rewrite E2, extend_extend, session_actions_app, S1, S2.
  split; [reflexivity|]. split; [reflexivity|].
  intros st' Hst'. unfold rest in Hst'.
  assert (Hret : forall (c : M unit) (k : M loop_state) w0 s,
             fst (bind c (fun _ => k) w0) = Ret s -> exists w1, fst (k w1) = Ret s).
  { intros c k w0 s. rewrite bind_run. destruct (c w0) as [[?|?|] w1]; cbn [fst]; try discriminate.
    eauto. }
  apply Hret in Hst' as [w1 Hst']. apply Hret in Hst' as [w2 Hst'].
  apply Hret in Hst' as [w3 Hst']. cbn in Hst'. inversion Hst'. reflexivity.
Qed.

Lemma step_writes_succ sin em n m :
  step_writes sin em n (S m) = Write em (step_command sin n) :: step_writes sin em (n + 1) m.
Proof.
  unfold step_writes. cbn [seq map]. rewrite Z.add_0_r. f_equal.
  rewrite <- seq_shift, map_map. apply map_ext. intros i. do 2 f_equal. lia.
Qed.

Lemma while_True_actions sin em fuel st w :
  exists evs m,
    snd (while_True fuel (tick sin em) st w) = extend w evs /\
    (m <= fuel)%nat /\
    session_actions evs = step_writes sin em (step_counter st) m.
Proof.
  revert st w. induction fuel as [|fuel IH]; intros st w.
  - exists [], 0%nat. cbn [while_True snd]. rewrite extend_nil.
    split; [reflexivity|]. split; [lia | reflexivity].
  - cbn [while_True]. rewrite bind_run.
    destruct (tick_actions sin em st w) as (ev1 & E1 & S1 & Hst).
    destruct (tick sin em st w) as [[st'|e|] w1]; cbn [fst snd] in *; subst w1.
    + destruct (IH st' (extend w ev1)) as (ev2 & m & E2 & Hm & S2).
      exists (ev1 ++ ev2)%list, (S m). rewrite E2, extend_extend, session_actions_app, S1, S2.
      rewrite step_writes_succ, (Hst st' eq_refl).
      split; [reflexivity|]. split; [lia | reflexivity].
    + exists ev1, 1%nat. rewrite S1, step_writes_succ.
      split; [reflexivity|]. split; [lia | reflexivity].
    + exists ev1, 1%nat. rewrite S1, step_writes_succ.
      split; [reflexivity|]. split; [lia | reflexivity].
Qed.

Ltac cleanup_actions_leaf :=
  cbn [fst snd]; gather; eexists; split; [reflexivity|]; split;
  [ first [left; reflexivity | right; left; reflexivity | right; right; reflexivity]
  | first [discriminate | intros _; reflexivity] ].

Lemma cleanup_actions em w :
  exists evs,
    snd (cleanup em w) = extend w evs /\
    (session_actions evs = [] \/ session_actions evs = [Write em reset_command] \/
     session_actions evs = [Write em reset_command; Close em]) /\
    (fst (cleanup em w) = Ret tt -> session_actions evs = [Write em reset_command; Close em]).
Proof.
  unfold cleanup, set_sensor_data. cbv zeta. exec.
  next_answer; exec; [|cleanup_actions_leaf].
  next_answer; exec.
  - next_answer; exec.
    + next_answer; exec; [|cleanup_actions_leaf].
      next_answer; exec; cleanup_actions_leaf.
    + destruct (is_Exception e); exec; [|cleanup_actions_leaf].
      next_answer; exec; [|cleanup_actions_leaf].
      next_answer; exec; [|cleanup_actions_leaf].
      next_answer; exec; cleanup_actions_leaf.
  - destruct (is_Exception e); exec; [|cleanup_actions_leaf].
    next_answer; exec; [|cleanup_actions_leaf].
    next_answer; exec; [|cleanup_actions_leaf].
    next_answer; exec; cleanup_actions_leaf.
Qed.

Lemma guarded_loop_actions sin em fuel w :
  exists evs m,
    snd (try_except (while_True fuel (tick sin em) initial_state)
           is_KeyboardInterrupt (fun _ => print (nl ++ "Stopping simulation.")) w)
    = extend w evs /\
    (m <= fuel)%nat /\ session_actions evs = step_writes sin em 0 m.
Proof.
  rewrite try_except_run.
  destruct (while_True_actions sin em fuel initial_state w) as (evl & m & E & Hm & S).
  destruct (while_True fuel (tick sin em) initial_state w) as [[u|e|] w1]; cbn [snd] in E; subst w1;
    try (exists evl, m; repeat split; assumption).
  destruct (is_KeyboardInterrupt e); [|exists evl, m; repeat split; assumption].
  destruct (quiet_print (nl ++ "Stopping simulation.") (extend w evl)) as (evp & Ep & Sp).
  exists (evl ++ evp)%list, m. rewrite Ep, extend_extend, session_actions_app, Sp, app_nil_r.
  repeat split; assumption.
Qed.

Lemma run_simulation_actions sin fuel em w :
  exists evs m tail,
    snd (run_simulation sin fuel em w) = extend w evs /\
    (m <= fuel)%nat /\
    session_actions evs = (step_writes sin em 0 m ++ tail)%list /\
    (tail = [] \/ tail = [Write em reset_command] \/
     tail = [Write em reset_command; Close em]) /\
    (fst (run_simulation sin fuel em w) = Ret tt -> tail = [Write em reset_command; Close em]).
Proof.
  unfold run_simulation. rewrite bind_run.
  destruct (quiet_print (nl ++ "Simulating walking steps and displaying live graph...") w)
    as (ev1 & E1 & S1).
  destruct (print _ w) as [[u|e|] w1]; cbn [snd] in E1; subst w1;
    [|exists ev1, 0%nat, []; cbn [fst snd]; rewrite S1;
      split; [reflexivity|]; split; [lia|]; split; [reflexivity|]; split; [left; reflexivity | discriminate]..].
  rewrite bind_run.
  destruct (quiet_print (str_repeat "-" (Z.to_nat (GRAPH_WIDTH + 8))) (extend w ev1))
    as (ev2 & E2 & S2).
  destruct (print _ (extend w ev1)) as [[u2|e|] w1]; cbn [snd] in E2; subst w1;
    [|exists (ev1 ++ ev2)%list, 0%nat, []; cbn [fst snd];
      rewrite extend_extend, session_actions_app, S1, S2;
      split; [reflexivity|]; split; [lia|]; split; [reflexivity|]; split; [left; reflexivity | discriminate]..].
  rewrite try_finally_run.
  destruct (guarded_loop_actions sin em fuel (extend (extend w ev1) ev2)) as (evl & m & El & Hm & Sl).
  destruct (try_except _ _ _ _) as [r w3]; cbn [snd] in El; subst w3.
  destruct (cleanup_actions em (extend (extend (extend w ev1) ev2) evl)) as (evc & Ec & Hc & Hret).
  destruct r as [a|e|].
  - destruct (cleanup em _) as [[uc|ec|] w4]; cbn [fst snd] in *; subst w4;
    exists (ev1 ++ ev2 ++ evl ++ evc)%list, m, (session_actions evc);
    rewrite !extend_extend, !session_actions_app, S1, S2, Sl;
    (split; [reflexivity|]); (split; [assumption|]); (split; [reflexivity|]);
    (split; [assumption|]); intros Hr; try discriminate; apply Hret; destruct uc; reflexivity.
  - destruct (cleanup em _) as [[uc|ec|] w4]; cbn [fst snd] in *; subst w4;
    exists (ev1 ++ ev2 ++ evl ++ evc)%list, m, (session_actions evc);
    rewrite !extend_extend, !session_actions_app, S1, S2, Sl;
    (split; [reflexivity|]); (split; [assumption|]); (split; [reflexivity|]);
    (split; [assumption|]); intros Hr; discriminate.
  - exists (ev1 ++ ev2 ++ evl)%list, m, []. cbn [fst snd].
    rewrite !extend_extend, !session_actions_app, S1, S2, Sl, app_nil_r.
    split; [reflexivity|]. split; [assumption|]. split; [reflexivity|].
    split; [left; reflexivity | discriminate].
Qed.

(** X6.  Whatever the emulator and the user do, the session carries, in this
    order: the sensor commands of the steps 0, 1, 2, ... (one for every tick
    begun, without a gap or a repetition), then at most the reset command,
    then at most the close.  Nothing is written after the close, and a run
    that returns has sent the reset and closed the session. *)
Theorem session_carries_samples_then_reset sin fuel em w :
  exists evs m tail,
    snd (run_simulation sin fuel em w) = extend w evs /\
    (m <= fuel)%nat /\
    session_actions evs = (step_writes sin em 0 m ++ tail)%list /\
    (tail = [] \/ tail = [Write em reset_command] \/
     tail = [Write em reset_command; Close em]) /\
    (fst (run_simulation sin fuel em w) = Ret tt -> tail = [Write em reset_command; Close em]).
Proof. apply run_simulation_actions. Qed.

(** ** The edge detector on any sequence *)

Lemma feed_app st pre ys :
  exists st', feed st (pre ++ ys) = (feed st pre ++ feed st' ys)%list.
Proof.
  revert st. induction pre as [|y pre IH]; intros st.
  - exists st. reflexivity.
  - cbn [app feed]. destruct (IH (snd (detect_edge st y))) as [st' ->]. exists st'. reflexivity.
Qed.

Lemma feed_length st ys : List.length (feed st ys) = List.length ys.
Proof.
  revert st. induction ys as [|y ys IH]; intros st; [reflexivity|].
  cbn [feed List.length]. rewrite IH. reflexivity.
Qed.

Lemma feed_peak st pre a b c post :
  nth (List.length pre + 2) (feed st (pre ++ a :: b :: c :: post)) false
  = ((a <? b)%float && negb (b <? c)%float)%bool.
Proof.
  destruct (feed_app st pre (a :: b :: c :: post)) as [st' ->].
  rewrite app_nth2; rewrite feed_length; [|lia].
  replace (List.length pre + 2 - List.length pre)%nat with 2%nat by lia. reflexivity.
Qed.

Lemma feed_no_two_in_a_row st ys i :
  nth i (feed st ys) false = true -> nth (S i) (feed st ys) false = false.
Proof.
  revert st i. induction ys as [|y ys IH]; intros st i.
  - destruct i; discriminate.
  - destruct i as [|i].
    + cbn [feed nth]. unfold detect_edge at 1. cbn [fst]. intros H.
      apply andb_true_iff in H as [_ H]. apply negb_true_iff in H.
      destruct ys as [|y' ys]; [reflexivity|]. cbn [feed nth detect_edge fst snd was_rising].
      rewrite H. reflexivity.
    + cbn [feed nth]. apply IH.
Qed.

Lemma samples_app sin n i m :
  samples sin n (i + m) = (samples sin n i ++ samples sin (n + Z.of_nat i) m)%list.
Proof.
  revert n. induction i as [|i IH]; intros n.
  - cbn [Nat.add Z.of_nat]. rewrite Z.add_0_r. reflexivity.
  - cbn [Nat.add]. rewrite !samples_succ, IH. cbn [app]. do 3 f_equal. lia.
Qed.

Lemma samples_length sin n m : List.length (samples sin n m) = m.
Proof. unfold samples. rewrite length_map, length_seq. reflexivity. Qed.

(** X7.  The loop never prints the step-impact line in two ticks in a row:
    in every run in which nothing but a transmission fails, whatever the
    signal and however long the run, a tick that prints the line is followed
    by a tick that does not. *)
Theorem step_impact_never_twice_in_a_row sin fuel em w :
  only_transmission_errors w ->
  exists evs,
    run_simulation sin fuel em w = (Running, extend w evs) /\
    forall i, nth i (marks false evs) false = true -> nth (S i) (marks false evs) false = false.
Proof.
  intros H. destruct (run_simulation_lines sin fuel em w H) as (evs & E & Hm & _).
  exists evs. split; [exact E|]. rewrite Hm. intros i. apply feed_no_two_in_a_row.
Qed.

Lemma step_impact_never_twice_in_a_row_witness :
  exists evs,
    run_simulation sin_of_five 5 emulator0 (start cooperative)
    = (Running, extend (start cooperative) evs) /\
    forall i, nth i (marks false evs) false = true -> nth (S i) (marks false evs) false = false.
Proof.
  apply (step_impact_never_twice_in_a_row sin_of_five 5 emulator0 (start cooperative)).
  intros i c. destruct c; reflexivity.
Defined.

(** X8.  The step-impact line is printed exactly in the tick after a peak: in
    every run in which nothing but a transmission fails, for three successive
    samples [a], [b], [c] of the steps [i], [i + 1], [i + 2], the tick of
    [c] prints the line if and only if [a < b] and not [b < c]; the first
    tick of a run never prints it. *)
Theorem step_impact_follows_a_peak sin fuel em w :
  only_transmission_errors w ->
  exists evs,
    run_simulation sin fuel em w = (Running, extend w evs) /\
    List.length (marks false evs) = fuel /\
    nth 0 (marks false evs) false = false /\
    forall i, (i + 2 < fuel)%nat ->
      nth (i + 2) (marks false evs) false
      = ((sample sin (Z.of_nat i) <? sample sin (Z.of_nat i + 1))%float
         && negb (sample sin (Z.of_nat i + 1) <? sample sin (Z.of_nat i + 2))%float)%bool.
Proof.
  intros H. destruct (run_simulation_lines sin fuel em w H) as (evs & E & Hm & _).
  exists evs. split; [exact E|]. rewrite Hm.
  split; [rewrite feed_length; apply samples_length|]. split.
  - destruct fuel as [|fuel]; [reflexivity|]. rewrite samples_succ. reflexivity.
  - intros i Hi. replace fuel with (i + S (S (S (fuel - i - 3))))%nat by lia.
    rewrite samples_app, !samples_succ.
    rewrite <- (samples_length sin 0 i) at 1. rewrite feed_peak.
    rewrite !Z.add_0_l. replace (Z.of_nat i + 1 + 1) with (Z.of_nat i + 2) by lia. reflexivity.
Qed.

Lemma step_impact_follows_a_peak_witness :
  exists evs,
    run_simulation sin_of_five 5 emulator0 (start cooperative)
    = (Running, extend (start cooperative) evs) /\
    List.length (marks false evs) = 5%nat /\
    nth 0 (marks false evs) false = false /\
    forall i, (i + 2 < 5)%nat ->
      nth (i + 2) (marks false evs) false
      = ((sample sin_of_five (Z.of_nat i) <? sample sin_of_five (Z.of_nat i + 1))%float
         && negb (sample sin_of_five (Z.of_nat i + 1)
                    <? sample sin_of_five (Z.of_nat i + 2))%float)%bool.
Proof.
  apply (step_impact_follows_a_peak sin_of_five 5 emulator0 (start cooperative)).
  intros i c. destruct c; reflexivity.
Defined.

(** ** Failures before the loop *)

(** X9.  The two header lines are printed before the [try]: if either print
    fails, [run_simulation] raises that error at once; the loop is not
    entered, no reset is sent and the session is not closed. *)
Theorem header_failure_skips_shutdown sin fuel em w e :
  (answer w 0 (Print header1) = Raises e ->
   run_simulation sin fuel em w = (Exc e, extend w [(Print header1, Raises e)])) /\
  (forall d,
     answer w 0 (Print header1) = Returns d ->
     answer w 1 (Print header2) = Raises e ->
     run_simulation sin fuel em w
     = (Exc e, extend w [(Print header1, Returns d); (Print header2, Raises e)])).
Proof.
  unfold run_simulation. fold header1 header2. split.
  - intros H0. exec. rewrite H0. gather. reflexivity.
  - intros d H0 H1. exec. rewrite H0. exec. rewrite H1. gather. reflexivity.
Qed.

Lemma header_failure_skips_shutdown_witness :
  run_simulation sin_taylor 3 emulator0 (start broken_console)
  = (Exc (Exception "[Errno 5] Input/output error"),
     extend (start broken_console)
       [(Print header1, Raises (Exception "[Errno 5] Input/output error"))]).
Proof.
  destruct (header_failure_skips_shutdown sin_taylor 3 emulator0 (start broken_console)
              (Exception "[Errno 5] Input/output error")) as [H _].
  apply H. reflexivity.
Defined.

(** ** [main]: no simulation without authentication *)

(** X11.  [main] simulates only after an accepted authentication: whatever the
    emulator and the user do, if the session sees anything after the
    [auth] line (a sensor command, a close), then the token was not empty and
    the run began with the full exchange, whose reply held no [KO]. *)
Theorem no_simulation_without_authentication sin fuel p tok w :
  exists evs,
    snd (main sin fuel p tok w) = extend w evs /\
    ((2 <= List.length (session_actions evs))%nat ->
     truthy tok = true /\
     exists d0 greeting d2 reply d4 rest,
       evs = ([(Connect "localhost" p 10, Returns d0);
               (ReadUntil {| host := "localhost"; port := p |} "OK" 10, Returns greeting);
               (Write {| host := "localhost"; port := p |}
                  ("auth " ++ str_of_token tok ++ nl), Returns d2);
               (ReadUntil {| host := "localhost"; port := p |} "OK" 10, Returns reply);
               (Print ("Connected and authenticated with emulator on port "
                         ++ str_of_int p ++ "."), Returns d4)] ++ rest)%list /\
       contains "KO" reply = false).
Proof.
  unfold main. rewrite bind_run.
  destruct (connect_shape "localhost" p tok w) as (ev1 & E1 & Hlen & Hsome).
  destruct (connect_to_emulator "localhost" p tok w) as [[[em|]|e|] w1];
    cbn [fst snd] in *; subst w1;
    try (exists ev1; split; [reflexivity|]; intros Habs; exfalso; lia).
  destruct (Hsome em eq_refl) as (-> & Ht & d0 & greeting & d2 & reply & d4 & Hev & HKO).
  destruct (run_simulation_actions sin fuel {| host := "localhost"; port := p |} (extend w ev1))
    as (ev2 & _ & _ & E2 & _).
  exists (ev1 ++ ev2)%list. rewrite E2, extend_extend. split; [reflexivity|].
  intros _. split; [assumption|]. exists d0, greeting, d2, reply, d4, ev2.
  rewrite Hev. split; [reflexivity | assumption].
Qed.

(** ** The token file *)

Lemma lstrip_app s t :
  lstrip (s ++ t) = if all_space s then lstrip t else lstrip s ++ t.
Proof.
  induction s as [|c s IH]; [reflexivity|].
  cbn [append lstrip all_space]. destruct (is_space c); [exact IH | reflexivity].
Qed.

Lemma lstrip_all_space s : all_space s = true -> lstrip s = "".
Proof.
  induction s as [|c s IH]; [reflexivity|]. cbn [all_space lstrip].
  destruct (is_space c); [exact IH | discriminate].
Qed.

Lemma rstrip_all_space s : all_space s = true -> rstrip s = "".
Proof.
  induction s as [|c s IH]; [reflexivity|]. cbn [all_space rstrip]. intros H.
  apply andb_true_iff in H as [Hc Hs]. rewrite (IH Hs), Hc. reflexivity.
Qed.

Lemma rstrip_app s t : all_space t = true -> rstrip (s ++ t) = rstrip s.
Proof.
  intros Ht. induction s as [|c s IH]; [apply rstrip_all_space; assumption|].
  cbn [append rstrip]. rewrite IH. reflexivity.
Qed.

Lemma strip_all_space s : all_space s = true -> strip s = "".
Proof. intros H. unfold strip. rewrite (lstrip_all_space s H). reflexivity. Qed.

Lemma strip_around pre s post :
  all_space pre = true -> all_space post = true -> strip (pre ++ s ++ post) = strip s.
Proof.
  intros Hpre Hpost. unfold strip. rewrite lstrip_app, Hpre, lstrip_app.
  destruct (all_space s) eqn:Hs.
  - rewrite (lstrip_all_space post Hpost), (lstrip_all_space s Hs). reflexivity.
  - apply rstrip_app. assumption.
Qed.

Lemma resolve_no_token_run args_token path file w d :
  truthy args_token = false ->
  (file = FileNotFoundError \/ exists text, file = Contents text /\ all_space text = true) ->
  (forall text, answer w 0 (Print text) = Returns d) ->
  exists notice tok,
    resolve_auth_token args_token path file w = (Ret tok, extend w [(Print notice, Returns d)]) /\
    truthy tok = false.
Proof.
  intros Ht Hfile Hp. unfold resolve_auth_token. rewrite Ht. cbn [negb].
  destruct Hfile as [-> | (text & -> & Hs)]; cbv zeta; exec; rewrite Hp; gather.
  - eexists. exists args_token. split; [reflexivity | assumption].
  - eexists. exists (Some (strip text)). split; [reflexivity|].
    rewrite (strip_all_space text Hs). reflexivity.
Qed.

(** X12.  With no token on the command line and none in the token file (the
    file is absent, or holds only whitespace), [main] still opens the
    connection and reads the greeting; it then reports the missing token and
    ends: these four calls are the whole run of [main], and nothing is
    written to the emulator. *)
Theorem without_token_main_still_connects sin fuel p args_token path file w d0 d1 greeting d3 :
  truthy args_token = false ->
  (file = FileNotFoundError \/ exists text, file = Contents text /\ all_space text = true) ->
  (forall text, answer w 0 (Print text) = Returns d0) ->
  answer w 1 (Connect "localhost" p 10) = Returns d1 ->
  answer w 2 (ReadUntil {| host := "localhost"; port := p |} "OK" 10) = Returns greeting ->
  answer w 3 (Print "Authentication token is missing...") = Returns d3 ->
  exists notice,
    main_from_args sin fuel p args_token path file w
    = (Ret tt,
       extend w [(Print notice, Returns d0);
                 (Connect "localhost" p 10, Returns d1);
                 (ReadUntil {| host := "localhost"; port := p |} "OK" 10, Returns greeting);
                 (Print "Authentication token is missing...", Returns d3)]).
Proof.
  intros Ht Hfile H0 H1 H2 H3. unfold main_from_args. rewrite bind_run.
  destruct (resolve_no_token_run args_token path file w d0 Ht Hfile H0) as (notice & tok & -> & Htok).
  exists notice. unfold main. rewrite bind_run.
  rewrite (missing_token_run "localhost" p tok (extend w [(Print notice, Returns d0)])
             d1 greeting d3 Htok).
  - unfold extend. cbn [oracle history]. rewrite <- app_assoc. reflexivity.
  - rewrite <- extend_push, answer_push. assumption.
  - rewrite <- extend_push, answer_push. assumption.
  - rewrite <- extend_push, answer_push. assumption.
Qed.

Lemma without_token_main_still_connects_witness :
  exists notice,
    main_from_args sin_taylor 3 5554 None "/root/.emulator_console_auth_token"
      FileNotFoundError (start cooperative)
    = (Ret tt,
       extend (start cooperative)
         [(Print notice, Returns "");
          (Connect "localhost" 5554 10, Returns "");
          (ReadUntil emulator0 "OK" 10,
           Returns "Android Console: type help for a list of commands OK");
          (Print "Authentication token is missing...", Returns "")]).
Proof.
  apply (without_token_main_still_connects sin_taylor 3 5554 None
           "/root/.emulator_console_auth_token" FileNotFoundError (start cooperative)).
  - reflexivity.
  - left. reflexivity.
  - intros text. reflexivity.
  - reflexivity.
  - reflexivity.
  - reflexivity.
Defined.

Lemma connect_sends_token h p tok w d0 greeting d2 :
  tok <> "" ->
  answer w 0 (Connect h p 10) = Returns d0 ->
  answer w 1 (ReadUntil {| host := h; port := p |} "OK" 10) = Returns greeting ->
  answer w 2 (Write {| host := h; port := p |} ("auth " ++ tok ++ nl)) = Returns d2 ->
  exists rest,
    snd (connect_to_emulator h p (Some tok) w)
    = extend w ([(Connect h p 10, Returns d0);
                 (ReadUntil {| host := h; port := p |} "OK" 10, Returns greeting);
                 (Write {| host := h; port := p |} ("auth " ++ tok ++ nl), Returns d2)]
                  ++ rest).
Proof.
  intros Htok H0 H1 H2. unfold connect_to_emulator.
  rewrite (truthy_some tok Htok). cbn [negb str_of_token].
  exec. rewrite H0. exec. rewrite H1. exec. rewrite H2. exec.
  next_answer; exec.
  - destruct (contains "KO" d); exec; next_answer; exec;
      try (destruct (is_Exception e); exec; [next_answer|]; exec);
      cbn [snd]; gather; eexists; reflexivity.
  - destruct (is_Exception e); exec; [next_answer|]; exec;
      cbn [snd]; gather; eexists; reflexivity.
Qed.

Lemma main_continues_connect sin fuel p tok w :
  exists more,
    snd (main sin fuel p tok w) = extend (snd (connect_to_emulator "localhost" p tok w)) more.
Proof.
  unfold main. rewrite bind_run.
  destruct (connect_to_emulator "localhost" p tok w) as [[[em|]|e|] w1]; cbn [snd];
    try (exists []; rewrite extend_nil; reflexivity).
  destruct (run_simulation_actions sin fuel em w1) as (ev & _ & _ & E & _). eauto.
Qed.

(** X13.  The token of the token file is sent without the whitespace around it:
    with no token on the command line and a file holding the token between
    runs of whitespace (a final newline, say), [main] announces the file,
    connects, reads the greeting and writes exactly [auth <token>] and one
    newline. *)
Theorem file_token_is_stripped sin fuel p args_token path pre tok post w d0 d1 greeting d3 :
  truthy args_token = false ->
  all_space pre = true -> all_space post = true -> strip tok = tok -> tok <> "" ->
  answer w 0 (Print ("Read auth token from " ++ path)) = Returns d0 ->
  answer w 1 (Connect "localhost" p 10) = Returns d1 ->
  answer w 2 (ReadUntil {| host := "localhost"; port := p |} "OK" 10) = Returns greeting ->
  answer w 3 (Write {| host := "localhost"; port := p |} ("auth " ++ tok ++ nl)) = Returns d3 ->
  exists rest,
    snd (main_from_args sin fuel p args_token path (Contents (pre ++ tok ++ post)) w)
    = extend w ([(Print ("Read auth token from " ++ path), Returns d0);
                 (Connect "localhost" p 10, Returns d1);
                 (ReadUntil {| host := "localhost"; port := p |} "OK" 10, Returns greeting);
                 (Write {| host := "localhost"; port := p |} ("auth " ++ tok ++ nl),
                  Returns d3)] ++ rest).
Proof.
  intros Ht Hpre Hpost Hstrip Htok H0 H1 H2 H3.
  unfold main_from_args, resolve_auth_token. rewrite Ht. cbn [negb]. cbv zeta.
  rewrite (strip_around pre tok post Hpre Hpost), Hstrip.
  exec. rewrite H0. exec. rewrite extend_push.
  set (w1 := extend w _).
  destruct (main_continues_connect sin fuel p (Some tok) w1) as (more & ->).
  destruct (connect_sends_token "localhost" p tok w1 d1 greeting d3 Htok) as (rest & ->).
  - unfold w1. rewrite <- extend_push, answer_push. assumption.
  - unfold w1. rewrite <- extend_push, answer_push. assumption.
  - unfold w1. rewrite <- extend_push, answer_push. assumption.
  - exists (rest ++ more)%list. unfold w1. rewrite !extend_extend.
    cbn [app]. rewrite <- ?app_assoc. reflexivity.
Qed.

Lemma file_token_is_stripped_witness :
  exists rest,
    snd (main_from_args sin_taylor 1 5554 None "/root/.emulator_console_auth_token"
           (Contents ("" ++ "secret" ++ nl)) (start rejecting))
    = extend (start rejecting)
        ([(Print ("Read auth token from " ++ "/root/.emulator_console_auth_token"), Returns "");
          (Connect "localhost" 5554 10, Returns "");
          (ReadUntil emulator0 "OK" 10, Returns "OK");
          (Write emulator0 ("auth " ++ "secret" ++ nl), Returns "")] ++ rest).
Proof.
  apply (file_token_is_stripped sin_taylor 1 5554 None "/root/.emulator_console_auth_token"
           "" "secret" nl (start rejecting)); try reflexivity.
  discriminate.
Defined.

(** ** The width of a plotted line *)

Lemma str_repeat_length_any s n :
  String.length (str_repeat s n) = (n * String.length s)%nat.
Proof.
  induction n as [|n IH]; [reflexivity|].
  cbn [str_repeat]. rewrite string_length_app, IH. lia.
Qed.

Lemma str_of_nat_short n : 0 <= n <= 99 -> (String.length (Py.str_of_nat n) <= 2)%nat.
Proof.
  intros Hn.
  assert (H : forallb (fun k => (String.length (Py.str_of_nat (Z.of_nat k)) <=? 2)%nat)
                (seq 0 100) = true) by (vm_compute; reflexivity).
  rewrite forallb_forall in H. specialize (H (Z.to_nat n)).
  rewrite Z2Nat.id in H by lia. apply Nat.leb_le, H, in_seq. lia.
Qed.

Lemma fixed2_short h :
  0 <= h <= 9900 -> (String.length (Py.fixed2 false h) <= 5)%nat.
Proof.
  intros Hh. unfold Py.fixed2. rewrite !string_length_app.
  assert (H : 0 <= h / 100 <= 99).
  { split; [apply Z.div_pos; lia | apply Z.div_le_upper_bound; lia]. }
  pose proof (str_of_nat_short (h / 100) H). cbn [String.length Py.digit]. lia.
Qed.

Lemma hundredths_le m e :
  0 < m -> -1074 <= e -> m * 2 ^ (e + 1074) <= 99 * 2 ^ 1074 -> Py.hundredths m e <= 9900.
Proof.
  intros Hm He H. unfold Py.hundredths.
  assert (P : 0 < 2 ^ 1074) by (apply pow2_pos; lia).
  destruct (Z.leb_spec 0 e) as [Hpos|Hneg].
  - rewrite Z.pow_add_r in H by lia. assert (0 < 2 ^ e) by (apply pow2_pos; lia). nia.
  - assert (Q : 0 < 2 ^ (- e)) by (apply pow2_pos; lia).
    assert (R : 0 < 2 ^ (e + 1074)) by (apply pow2_pos; lia).
    assert (S : 2 ^ 1074 = 2 ^ (e + 1074) * 2 ^ (- e)).
    { rewrite <- Z.pow_add_r by lia. f_equal. lia. }
    rewrite S in H.
    assert (Hm99 : m <= 99 * 2 ^ (- e)) by nia.
    rewrite <- (round_half_even_exact 9900 (2 ^ (- e)) Q).
    apply round_half_even_mono; [assumption | nia].
Qed.

Lemma Prim2SF_99 : Prim2SF 99 = S754_finite false 6966505673588736 (-46).
Proof. vm_compute. reflexivity. Qed.

Lemma format_width v :
  (0 <=? v)%float = true -> (v <=? 99)%float = true ->
  String.length (Py.format_2f 5 v) = 5%nat.
Proof.
  intros Hlo Hhi.
  apply leb_true in Hlo as (_ & Hnan & Hlo). apply leb_true in Hhi as (_ & _ & Hhi).
  assert (Hshort : (String.length (Py.format_2f 0 v) <= 5)%nat).
  { unfold Py.format_2f. rewrite pad_left_0.
    rewrite is_nan_spec in Hnan. unfold frank in Hlo, Hhi. rewrite Prim2SF_99 in Hhi.
    change (Prim2SF 0) with (S754_zero false) in Hlo.
    pose proof (Prim2SF_valid v) as Hv.
    destruct (Prim2SF v) as [s| s | | s m e]; cbn [rank is_nan_sf] in *.
    - destruct s; cbn; lia.
    - exfalso. destruct s; cbn [cond_Zopp] in *.
      + assert (0 < 2 ^ 2100) by (apply pow2_pos; lia). lia.
      + change (-46 + 1074) with 1028 in Hhi.
        replace (2 ^ 2100) with (2 ^ 1028 * 2 ^ 1072) in Hhi by reflexivity.
        assert (0 < 2 ^ 1028) by (apply pow2_pos; lia).
        assert (2 ^ 53 <= 2 ^ 1072) by (apply Z.pow_le_mono_r; lia).
        change (2 ^ 53) with 9007199254740992 in *. nia.
    - discriminate.
    - destruct (valid_finite s m e Hv) as (He & _).
      pose proof (rank_finite_bound s m e Hv) as Hr.
      destruct s; cbn [cond_Zopp] in *; [lia|].
      apply fixed2_short. split; [apply hundredths_nonneg; lia|].
      apply hundredths_le; [lia | lia |].
      eapply Z.le_trans; [exact Hhi|]. change (-46 + 1074) with 1028.
      replace (2 ^ 1074) with (2 ^ 1028 * 2 ^ 46) by reflexivity.
      change (2 ^ 46) with 70368744177664.
      assert (0 < 2 ^ 1028) by (apply pow2_pos; lia). nia. }
  rewrite format_2f_padded. unfold pad_left.
  rewrite string_length_app, str_repeat_length. lia.
Qed.

(** X10.  For every value from 0 to 99, so for every sample of the generator,
    [plot_data_point] makes one call, the print of a line of 8 characters plus
    the bar: the value takes exactly 5 characters, the separator 3, and the
    line is never longer than the rule printed under the header, which is
    [GRAPH_WIDTH + 8] characters long. *)
Theorem plotted_line_fits_under_header v :
  (0 <=? v)%float = true -> (v <=? 99)%float = true ->
  exists n line,
    bar_length v = inr n /\ plot_line v = inr line /\
    line = Py.format_2f 5 v ++ " | " ++ str_repeat "#" (Z.to_nat n) /\
    String.length (Py.format_2f 5 v) = 5%nat /\
    String.length line = (8 + Z.to_nat n)%nat /\
    (String.length line <= String.length header2)%nat /\
    String.length header2 = Z.to_nat (GRAPH_WIDTH + 8) /\
    forall w, snd (plot_data_point v w) = extend w [(Print line, answer w 0 (Print line))].
Proof.
  intros Hlo Hhi. destruct (bar_length_spec v) as [Hk Hb].
  pose proof (bar_of_range _ Hk) as Hn.
  exists (bar_of (clamp_offset v)). eexists. split; [exact Hb|].
  split; [apply plot_line_total|]. split; [reflexivity|].
  split; [apply format_width; assumption|].
  rewrite !string_length_app, (format_width v Hlo Hhi), str_repeat_length_any.
  cbn [String.length]. change (String.length header2) with 58%nat.
  split; [lia|]. split; [lia|]. split; [reflexivity|].
  intros w. rewrite plot_data_point_print, print_run. reflexivity.
Qed.

Lemma plotted_line_fits_under_header_witness :
  exists n line,
    bar_length 9.8 = inr n /\ plot_line 9.8 = inr line /\
    line = Py.format_2f 5 9.8 ++ " | " ++ str_repeat "#" (Z.to_nat n) /\
    String.length (Py.format_2f 5 9.8) = 5%nat /\
    String.length line = (8 + Z.to_nat n)%nat /\
    (String.length line <= String.length header2)%nat /\
    String.length header2 = Z.to_nat (GRAPH_WIDTH + 8) /\
    forall w, snd (plot_data_point 9.8 w) = extend w [(Print line, answer w 0 (Print line))].
Proof.
  apply (plotted_line_fits_under_header 9.8); reflexivity.
Defined.

(** ** Where exceptions come from *)

Lemma traced_ret {A} (a : A) : traced (ret a).
Proof. intros w. exists []. rewrite extend_nil. split; [reflexivity | discriminate]. Qed.

Lemma traced_bind {A B} (c : M A) (k : A -> M B) :
  traced c -> (forall a, traced (k a)) -> traced (bind c k).
Proof.
  intros Hc Hk w. rewrite bind_run. destruct (Hc w) as (ev1 & E1 & T1).
  destruct (c w) as [[a|e|] w1]; cbn [fst snd] in *; subst w1.
  - destruct (Hk a (extend w ev1)) as (ev2 & E2 & T2). exists (ev1 ++ ev2)%list.
    rewrite E2, extend_extend. split; [reflexivity|]. intros e He.
    destruct (T2 e He) as (before & cl & ->). exists (ev1 ++ before)%list, cl.
    rewrite app_assoc. reflexivity.
  - exists ev1. split; [reflexivity|]. intros e' He. inversion He; subst e'.
    apply T1. reflexivity.
  - exists ev1. split; [reflexivity | discriminate].
Qed.

Lemma traced_unit_call c : traced (perform c ;; ret tt).
Proof.
  intros w. rewrite unit_call_run. cbn [fst snd]. exists [(c, answer w 0 c)].
  split; [reflexivity|]. intros e He. exists [], c.
  destruct (answer w 0 c); inversion He. reflexivity.
Qed.

Ltac traced_leaf :=
  cbn [fst snd]; gather; eexists; split; [reflexivity|]; intros ? Hexc;
  first [ discriminate Hexc
        | inversion Hexc; subst;
          first [ eexists [], _; reflexivity
                | eexists [_], _; reflexivity
                | eexists [_; _], _; reflexivity ] ].

Lemma traced_set_sensor_data em sensor x y z : traced (set_sensor_data em sensor x y z).
Proof.
  intros w. unfold set_sensor_data. cbv zeta. exec.
  next_answer; exec.
  - next_answer; exec; [traced_leaf|].
    destruct (is_Exception e); exec; [next_answer; exec|]; traced_leaf.
  - destruct (is_Exception e); exec; [next_answer; exec|]; traced_leaf.
Qed.

Lemma traced_tick sin em st : traced (tick sin em st).
Proof.
  unfold tick, generate_walking_acceleration, detect_edge. cbv zeta.
  apply traced_bind; [apply traced_set_sensor_data|]. intros _.
  apply traced_bind; [rewrite plot_data_point_print; apply traced_unit_call|]. intros _.
  apply traced_bind; [destruct (_ && _); [apply traced_unit_call | apply traced_ret]|].
  intros _. apply traced_bind; [apply traced_unit_call | intros _; apply traced_ret].
Qed.

Lemma traced_while_True sin em fuel st : traced (while_True fuel (tick sin em) st).
Proof.
  revert st. induction fuel as [|fuel IH]; intros st.
  - intros w. exists []. cbn [while_True fst snd]. rewrite extend_nil.
    split; [reflexivity | discriminate].
  - cbn [while_True]. apply traced_bind; [apply traced_tick | intros st'; apply IH].
Qed.

(** X14.  The simulation never stops by itself: if [run_simulation] returns,
    then the user has interrupted it, some call in the loop, after the two
    header lines, was answered by a [KeyboardInterrupt], and the stop line was
    printed right after it. *)
Theorem simulation_returns_only_after_interrupt sin fuel em w :
  fst (run_simulation sin fuel em w) = Ret tt ->
  exists d1 d2 before cl d3 after,
    snd (run_simulation sin fuel em w)
    = extend w ((Print header1, Returns d1) :: (Print header2, Returns d2)
                  :: before ++ (cl, Raises KeyboardInterrupt)
                  :: (Print (nl ++ "Stopping simulation."), Returns d3) :: after).
Proof.
  unfold run_simulation. fold header1 header2. exec.
  next_answer; [|cbn [fst]; discriminate]. exec.
  next_answer; [|cbn [fst]; discriminate]. exec.
  set (w2 := push (push w _ _) _ _).
  destruct (traced_while_True sin em fuel initial_state w2) as (evl & El & Tl).
  pose proof (while_True_never_returns fuel (tick sin em) initial_state w2) as Hnr.
  destruct (while_True fuel (tick sin em) initial_state w2) as [[u|e|] w3];
    cbn [fst snd] in *; subst w3.
  - exfalso. apply (Hnr u). reflexivity.
  - destruct (Tl e eq_refl) as (before & cl & ->).
    destruct e; cbn [is_KeyboardInterrupt].
    + exec. next_answer.
      * destruct (cleanup_actions em
                    (push (extend w2 (before ++ [(cl, Raises KeyboardInterrupt)]))
                       (Print (nl ++ "Stopping simulation.")) (Returns d1)))
          as (evc & Ec & _).
        destruct (cleanup em _) as [[uc|ec|] w4]; cbn [fst snd] in *; subst w4;
          intros Hret; try discriminate Hret.
        exists d, d0, before, cl, d1, evc. unfold w2. gather.
        rewrite <- app_assoc. reflexivity.
      * destruct (cleanup em _) as [[uc|ec|] w4]; cbn [fst]; discriminate.
    + destruct (cleanup em _) as [[uc|ec|] w4]; cbn [fst]; discriminate.
    + destruct (cleanup em _) as [[uc|ec|] w4]; cbn [fst]; discriminate.
  - cbn [fst]. discriminate.
Qed.

Lemma simulation_returns_only_after_interrupt_witness :
  exists d1 d2 before cl d3 after,
    snd (run_simulation sin_taylor 1 emulator0 (start interrupted_once))
    = extend (start interrupted_once)
        ((Print header1, Returns d1) :: (Print header2, Returns d2)
           :: before ++ (cl, Raises KeyboardInterrupt)
           :: (Print (nl ++ "Stopping simulation."), Returns d3) :: after).
Proof.
  apply (simulation_returns_only_after_interrupt sin_taylor 1 emulator0 (start interrupted_once)).
  vm_compute. reflexivity.
Defined.
